(* ===== verification/_CoqProject ===== *)
-Q . S2P
Prelude.v
JsRuntime.v
JsArray.v
Glob.v
Markup.v
Chunker.v
Cards.v
ChatRoute.v
Bridge.v
ChatBot.v
ChatView.v
Panel.v
App.v
Transcribe.v
RssRoute.v
FeedList.v
Feeds.v
SidebarView.v
PanelView.v
Page.v
ChunkLoader.v
Presentation.v
