(* ===== verification/Prelude.v ===== *)
(** * SmartRSSFeed: a verification library for the podcast reader

    The repository (src/src/app) is a Next.js podcast reader: page.tsx
    lists feeds and shows an episode in ContentPanel.tsx, which plays its
    audio, asks api/transcribe for a word-level transcript and shows it
    through TranscriptCards.tsx; AIChatBot.tsx, rendered by layout.tsx
    next to the page, asks api/chat about the transcript and lets the
    user jump to the moments its answer cites.  The panel and the chat
    bot only talk through window messages ([TRANSCRIPT_READY],
    [PLAY_AUDIO]).  Once the JSX is set aside the logic is event handlers
    and pure helpers, which this library models as Rocq functions on
    explicit state records, file by file:

    - [JsRuntime.v]: the JavaScript built-ins the handlers call ([trim],
      [split], [join], [toLowerCase], [includes], [padStart],
      [toString], [findIndex], [parseInt], [Number], [replace] with a
      plain or a global pattern) and a backtracking
      matcher (a list of successes in the engine's priority order) for
      the regular expressions of the code.  These are the runtime's
      semantics, not repository code, and are not in the map.
    - [JsArray.v]: [Array.prototype.sort] with a comparator, as the
      stable insertion sort the standard makes the only result for a
      consistent comparator; it agrees with stdpp's [merge_sort] on
      distinct keys.  Runtime semantics, not in the map.
    - [Glob.v]: the glob patterns of Tailwind's [content] (fast-glob
      with micromatch syntax: [**], [*], braces, hidden names), a
      backtracking matcher proved equal to an inductive semantics.
      Library semantics, not in the map.
    - [Markup.v]: element trees for static JSX and SVG, with a nested
      induction principle, and the queries the checks use (ids,
      [url(#id)] references, classes, new-tab links).
    - [Chunker.v] ([Module Chunker]): the chunking effect of
      TranscriptCards.tsx (lines 40-69), the loop [for_each] over
      [chunk_body].  The inductive [chunking] is the specification of a
      correct grouping (spec 4.2); the code refines it and it determines
      the grouping uniquely (C1-C4).
    - [Cards.v] ([Module Cards]): the rest of TranscriptCards.tsx, the
      state hooks, the auto-advance effect, [navigateChunk],
      [handleDragEnd], [handleGotoPage], [handleWordClick] and [render],
      as handlers returning the new state and the [onTimeUpdate] seeks
      they make.  [cards_step] reacts to one event and settles the
      effect; its events include the re-renders ContentPanel causes,
      new time and playing state ([PropsChanged]) and new words
      ([WordsChanged]), after which the chunking effect runs on the
      mounted cards and keeps the index.  [reachable] gives the chunks
      and the index invariant by rule induction for every event but new
      words; the render throws exactly when the index is past the last
      chunk, which new words with fewer chunks cause (C5-C10; C7, C9
      and C10 are where the code departs from its spec).
    - [ChatRoute.v] ([Module ChatRoute]): api/chat/route.ts, the
      timestamp pattern, [parseTimestamp], the bullet-point pipeline,
      [formattedResponse] and [POST] with its validation; the Gemini
      client is a [Section] variable (C11).
    - [Bridge.v] ([Module Bridge]): the window messages and the
      [Listener] class both components implement.
    - [ChatBot.v] ([Module ChatBot]): AIChatBot.tsx, every hook and
      handler, with the keyboard listener that keeps the messages of the
      render that registered it; [formatTimestamp] and its round trip
      with the route's parser; the request in flight (C12-C15).
    - [ChatView.v] ([Module ChatView]): what AIChatBot.tsx renders, the
      open panel, the message bubbles and the bullet lists with the
      highlight of [selectedBulletPoint], shared by every answer (C16).
    - [Panel.v] ([Module Panel]): ContentPanel.tsx, the props, hooks and
      [<audio>] element, the reset on a new episode, the transcription
      requests in flight, the player handlers and the [PLAY_AUDIO]
      listener (C17-C18).
    - [PanelView.v] ([Module PanelView]): what ContentPanel.tsx
      renders, with the date that makes it throw, and its uncalled
      [formatContent] with the entity decoding it would do.
    - [App.v] ([Module App]): the two components and the window's
      message queue, dispatched in order to both listeners (C19-C21).
    - [Transcribe.v] ([Module Transcribe]): api/transcribe/route.ts,
      [fetchAudioWithRedirects] as a loop over rounds with [fetch] and
      Deepgram as [Section] variables, and [POST] (C22-C23).
    - [RssRoute.v] ([Module RssRoute]): api/rss/route.ts, its [POST]
      with the download and the parser as [Section] variables, and the
      [FeedItem] shape the client files share (C36).
    - [FeedList.v] ([Module FeedList]): FeedList.tsx, the effect that
      reloads on new props, each load in flight with the selection it
      was started for, [fetchFeed], the merge of all feeds sorted by
      date, and the render with its cards, whose descriptions go through
      the regex's global replace (C24, C31-C33).
    - [Feeds.v] ([Module Feeds]): page.tsx's feed list with its
      localStorage copy and first-visit check of lib/defaultFeeds.ts,
      and Sidebar.tsx's add and delete, as one state with the save
      effect run after each event (C25, C30, C34).
    - [SidebarView.v] ([Module SidebarView]): what Sidebar.tsx renders,
      the add form, the feed entries and its own episode list, which no
      reachable state shows (C35).
    - [Page.v] ([Module Page]): the page with the children it renders,
      FeedList and ContentPanel, and the TranscriptCards the panel
      mounts; after each event they are rendered again with their props
      ([list_props], [panel_props], [cards_props]), the cards mounted,
      re-rendered or unmounted ([sync_cards]); user input on the cards
      feeds their seeks to the panel.  [page_view] renders the whole
      page, which throws on an episode whose date [Date] cannot read and
      on cards whose index is past their last chunk; a second
      transcript arriving while the cards show a later card does that
      (C26-C29).
    - [ChunkLoader.v] ([Module ChunkLoader]): lib/chunkLoader.ts's
      [retryChunkLoad] and next.config.js's webpack hook (C37-C38).
    - [Presentation.v] ([Module Presentation]): tailwind.config.ts, the
      other flags of next.config.js, and Logo.tsx, Footer.tsx and
      layout.tsx as element trees.  The [content] globs select exactly
      the source files under src/pages, src/components and src/app
      (C39); the logo's paint references and its [flicker] animation
      resolve, and the layout opens no new tab that keeps its opener.

    Each component's state and handlers keep the source's names; the map
    of PROJECT.json gives the lines each definition translates.  Answers
    of servers, [fetch], [JSON.parse]/[JSON.stringify], [Date] parsing
    and dynamic [import] are [Section] variables, so every theorem holds
    for any behaviour of them; an asynchronous handler is split at its
    [await] into the part that runs at once and an event for its answer,
    so the interleavings of user events with answers are explicit.

    Times are JS numbers, modelled as [Q]: exact rationals agree with
    IEEE doubles on the comparisons the code makes as long as no value is
    NaN, and the transcription service always sends numbers.  Indices are
    [nat]; JS integer arithmetic that may go negative ([index +
    direction], [length - 1]) is done in [Z], as are milliseconds.
    Strings are lists of 8-bit characters: the model is exact for
    Latin-1 text, and whitespace is the ECMAScript set restricted to it.
    Chat timestamps are whole seconds ([nat]), as the route produces
    them.  The [play] event that [play()] triggers is run at once with
    it.  A [timeupdate] is an event of its own: playback ([Elapse]) and
    the native seek bar fire it, while a seek from code
    ([handleTimeUpdate], [handleAudioRequest]) only sets the element's
    time, and [currentTime] follows at the next [timeupdate].  Fuel: the
    chunking loop is structural over the words; [number_toString]'s
    fuel [n + 1] exceeds its number of digits; the redirect loop
    [fetch_loop] has fuel of its own beside the code's guard and
    counter and returns [None] when it runs out;
    [fetchAudioWithRedirects] gives it [maxRedirects + 1], and
    [fetchAudio_rounds] proves that any fuel above [maxRedirects]
    returns, after at most [maxRedirects] fetches; [loadChunk]'s fuel
    [maxRetries + 1] is the number of imports its counter allows, and
    [loadChunk_spec] shows that it never runs out; [replace_all]'s fuel
    [length s + 1] bounds its rounds, each of which consumes a character
    ([strip_tags_go] uses exactly this).

    Not modelled: the auto-scroll effects, which only move the DOM's
    scroll position; the class names, SVG icons and animations of the
    stateful components' JSX, which their views leave out (the static
    trees of Presentation.v keep them); what the classes look like, the
    CSS Tailwind generates; the meaning of next.config.js's flags, which
    only Next.js reads ([next_flags] records their values); React's
    development double run of effects ([reactStrictMode]); the
    TypeScript interfaces, whose shapes are the records of each file;
    the UTF-8 decode of [response.text()] in the transcribe route,
    whose page is taken as the characters it holds.

    Approximations: React compares effect dependencies with
    [Object.is]; FeedList.v compares the selection and the feed list
    structurally.  They differ only on two distinct but equal feed
    objects (a URL added twice): switching between them reloads the
    same URL in the browser and not in the model.  Feeds.v accepts the add form's events ([TypeUrl],
    [AddFeed], [CancelAdd]) whether or not the form is shown; the
    theorems that quantify over all events hold a fortiori for the
    events the page allows, and the defect scenarios open the form
    first.

    This file holds what every component shares: the [rss_scope]
    notations, the [rss] hint databases, tactics for the boolean tests of
    the code on [Q], [nat] and [Z], and generic lemmas on lists and
    integers. *)

From stdpp Require Export base list strings.
From Stdlib Require Export QArith Qabs Ascii ZArith Lia Lqa.
From Stdlib Require String.

Open Scope nat_scope.
Open Scope list_scope.

Declare Scope rss_scope.
Delimit Scope rss_scope with rss.
Open Scope rss_scope.

Create HintDb rss discriminated.
Create Rewrite HintDb rss_rw.

(** ** Times and closed intervals *)

(** [t] lies in the closed interval [[a, b]]: the test
    [currentTime >= x.start && currentTime <= x.end] the code writes for
    words and chunks alike. *)
Definition in_span (t a b : Q) : bool := Qle_bool a t && Qle_bool t b.

Notation "⟨ a , b ⟩ ∋ t" := (in_span t a b)
  (at level 70, a at level 60, b at level 60, t at level 60,
   format "⟨ a ,  b ⟩  ∋  t") : rss_scope.

(** Strict comparison of JS numbers, [a < b]. *)
Definition Qltb (a b : Q) : bool := negb (Qle_bool b a).

(** Remove the first occurrence of [x]: an answer settles one of the
    requests in flight. *)
Fixpoint list_remove_one `{EqDecision A} (x : A) (l : list A) : list A :=
  match l with
  | [] => []
  | y :: l' => if decide (x = y) then l' else y :: list_remove_one x l'
  end.

Lemma in_span_iff t a b : in_span t a b = true <-> (a <= t /\ t <= b)%Q.
Proof.
  unfold in_span. rewrite andb_true_iff, !Qle_bool_iff. reflexivity.
Qed.

Lemma in_span_false t a b : in_span t a b = false <-> ~ (a <= t /\ t <= b)%Q.
Proof.
  rewrite <- in_span_iff. destruct (in_span t a b); split; congruence.
Qed.

Lemma Qltb_iff a b : Qltb a b = true <-> (a < b)%Q.
Proof.
  unfold Qltb. rewrite negb_true_iff. split.
  - intros H. apply Qnot_le_lt. intros H'. apply Qle_bool_iff in H'. congruence.
  - intros H. destruct (Qle_bool b a) eqn:E; [|done]. apply Qle_bool_iff in E. lra.
Qed.

(** Turn the boolean comparisons of the code into propositions. *)
Ltac qbool :=
  repeat match goal with
  | H : Qle_bool _ _ = true |- _ => apply Qle_bool_iff in H
  | H : Qltb _ _ = true |- _ => apply Qltb_iff in H
  | H : in_span _ _ _ = true |- _ => apply in_span_iff in H; destruct H
  | H : in_span _ _ _ = false |- _ => apply in_span_false in H
  | |- Qle_bool _ _ = true => apply Qle_bool_iff
  | |- in_span _ _ _ = true => apply in_span_iff; split
  end.

Ltac nbool :=
  repeat match goal with
  | H : (_ =? _)%nat = true |- _ => apply Nat.eqb_eq in H
  | H : (_ =? _)%nat = false |- _ => apply Nat.eqb_neq in H
  | H : (_ <=? _)%nat = true |- _ => apply Nat.leb_le in H
  | H : (_ <=? _)%nat = false |- _ => apply Nat.leb_gt in H
  | H : (_ <? _)%nat = true |- _ => apply Nat.ltb_lt in H
  | H : (_ <? _)%nat = false |- _ => apply Nat.ltb_ge in H
  | H : (_ =? _)%Z = true |- _ => apply Z.eqb_eq in H
  | H : (_ =? _)%Z = false |- _ => apply Z.eqb_neq in H
  | H : (_ <=? _)%Z = true |- _ => apply Z.leb_le in H
  | H : (_ <=? _)%Z = false |- _ => apply Z.leb_gt in H
  | H : (_ <? _)%Z = true |- _ => apply Z.ltb_lt in H
  | H : (_ <? _)%Z = false |- _ => apply Z.ltb_ge in H
  | H : (_ && _)%bool = true |- _ => apply andb_true_iff in H; destruct H
  | H : (_ || _)%bool = false |- _ => apply orb_false_iff in H; destruct H
  | H : negb _ = true |- _ => apply negb_true_iff in H
  | H : negb _ = false |- _ => apply negb_false_iff in H
  end.

(** Turn a boolean comparison to prove into its proposition. *)
Ltac nbool_goal :=
  match goal with
  | |- (_ =? _)%nat = true => apply Nat.eqb_eq
  | |- (_ =? _)%nat = false => apply Nat.eqb_neq
  | |- (_ <=? _)%nat = true => apply Nat.leb_le
  | |- (_ <? _)%nat = true => apply Nat.ltb_lt
  | |- (_ =? _)%Z = true => apply Z.eqb_eq
  | |- (_ =? _)%Z = false => apply Z.eqb_neq
  | |- (_ <=? _)%Z = true => apply Z.leb_le
  | |- (_ <? _)%Z = true => apply Z.ltb_lt
  end.

(** Case on every [if] of the goal, keeping the tested equation. *)
(** Closes a decidable goal about closed data by evaluating its
    decision procedure. *)
Ltac decide_closed := apply (bool_decide_unpack _); vm_compute; exact I.

Ltac case_ifs :=
  repeat match goal with
  | |- context [if ?b then _ else _] =>
      let E := fresh "E" in destruct b eqn:E
  end.

(** ** Generic lemmas on lists *)

Lemma last_app_single {A} (l : list A) (x : A) : last (l ++ [x]) = Some x.
Proof. induction l as [|y [|z l] IH]; simpl in *; auto. Qed.

Lemma head_app_ne {A} (l r : list A) : l <> [] -> head (l ++ r) = head l.
Proof. destruct l; simpl; congruence. Qed.

Lemma app_eq_app_prefix {A} (a b c d : list A) :
  a ++ b = c ++ d -> length a <= length c -> exists m, c = a ++ m /\ b = m ++ d.
Proof.
  revert c. induction a as [|x a IH]; intros [|y c] Heq Hle; simpl in *.
  - exists []. auto.
  - exists (y :: c). auto.
  - lia.
  - injection Heq as -> Heq. destruct (IH c Heq ltac:(lia)) as (m & -> & ->).
    exists m. auto.
Qed.

Lemma take_app_exact {A} (a b : list A) : take (length a) (a ++ b) = a.
Proof. rewrite take_app_length. reflexivity. Qed.

Lemma forallb_seq_ext (f g : nat -> bool) a n :
  (forall i, a <= i < a + n -> f i = g i) -> forallb f (seq a n) = forallb g (seq a n).
Proof.
  revert a. induction n as [|n IH]; intros a H; simpl; [done|].
  rewrite (H a) by lia. f_equal. apply IH. intros i Hi. apply H. lia.
Qed.

Lemma filter_filter_idem {A} (f : A -> bool) l : List.filter f (List.filter f l) = List.filter f l.
Proof. induction l as [|x l IH]; simpl; [done|]. destruct (f x) eqn:E; simpl; [rewrite E|]; by rewrite IH. Qed.

(** ** Integers *)

(** A number of seconds as hours, minutes and seconds. *)
Lemma hms_decompose t :
  t = 3600 * (t / 3600) + 60 * ((t mod 3600) / 60) + t mod 60 /\ (t mod 3600) / 60 < 60 /\ t mod 60 < 60.
Proof.
  assert (E : t mod 3600 = t mod 60 + 60 * ((t / 60) mod 60)).
  { change 3600 with (60 * 60). apply Nat.Div0.mod_mul_r. }
  assert (Hs : t mod 60 < 60) by (apply Nat.mod_upper_bound; lia).
  assert (Hk : (t / 60) mod 60 < 60) by (apply Nat.mod_upper_bound; lia).
  assert (Hm : (t mod 3600) / 60 = (t / 60) mod 60).
  { rewrite E. symmetry. apply (Nat.div_unique _ _ _ (t mod 60)); lia. }
  pose proof (Nat.div_mod_eq t 3600). rewrite Hm. lia.
Qed.

#[export] Hint Resolve last_app_single head_app_ne : rss.
#[export] Hint Rewrite @last_app_single @take_app_exact : rss_rw.
