(* ===== verification/JsRuntime.v ===== *)
(** * The JavaScript built-ins the handlers call

    A JS string is a [list ascii] (8-bit code units, see the header of
    Prelude.v); string literals of the code are written [lit "..."].
    This file gives the ECMAScript semantics of the built-ins the
    repository uses, restricted to what it passes them, and a matcher
    for the regular expressions it writes:

    - a matcher returns every way of matching a prefix of its input as
      a pair (matched text, rest), in the order in which the JS
      backtracking engine tries them, so that the first element is the
      match JS reports;
    - the combinators cover what the code's literals use: character
      classes, sequence, alternation, greedy [?] and [{1,2}], greedy
      and lazy [*] over a class, and [$];
    - [search] is the unanchored [String.prototype.match] / [test]
      (leftmost start position, then the first alternative), and
      [replace_first] is [replace] with a non-global pattern. *)

From S2P Require Import Prelude.

Abbreviation jstr := (list ascii).

Definition lit (s : string) : jstr := String.list_ascii_of_string s.

(** The line feed ["\n"]; Rocq string literals have no escapes. *)
Definition nl : ascii := ascii_of_nat 10.

(** The double quote character, code 34. *)
Definition dquote : ascii := Ascii false true false false false true false false.

(** ** Characters *)

(** ECMAScript WhiteSpace and LineTerminator code units below 256:
    TAB, LF, VT, FF, CR, SPACE and NO-BREAK SPACE. *)
Definition is_ws (c : ascii) : bool :=
  let n := nat_of_ascii c in
  ((9 <=? n) && (n <=? 13)) || (n =? 32) || (n =? 160).

Definition is_digit (c : ascii) : bool :=
  (48 <=? nat_of_ascii c) && (nat_of_ascii c <=? 57).

Definition digit_val (c : ascii) : nat := nat_of_ascii c - 48.

(** The character of the decimal digit [k]. *)
Definition digit_char (k : nat) : ascii := ascii_of_nat (48 + k).

(** [toLowerCase] on one code unit of the Latin-1 range. *)
Definition to_lower_char (c : ascii) : ascii :=
  let n := nat_of_ascii c in
  if ((65 <=? n) && (n <=? 90)) || ((192 <=? n) && (n <=? 222) && negb (n =? 215))
  then ascii_of_nat (n + 32) else c.

Definition to_lower (s : jstr) : jstr := map to_lower_char s.

(** ** Strings *)

Fixpoint trim_start (s : jstr) : jstr :=
  match s with
  | c :: s' => if is_ws c then trim_start s' else s
  | [] => []
  end.

Definition trim_end (s : jstr) : jstr := rev (trim_start (rev s)).

(** [String.prototype.trim]. *)
Definition trim (s : jstr) : jstr := trim_end (trim_start s).

(** [s.split(sep)] for a one-character separator: [n] separators give
    [n + 1] pieces, and the empty string gives [[""]]. *)
Fixpoint split_on (sep : ascii) (s : jstr) : list jstr :=
  match s with
  | [] => [[]]
  | c :: s' =>
      if Ascii.eqb c sep then [] :: split_on sep s'
      else match split_on sep s' with
           | [] => [[c]]
           | p :: ps => (c :: p) :: ps
           end
  end.

(** JS truthiness of a string (the empty string is falsy) and of a
    possibly absent string, and of a [match] result ([null] is falsy). *)
Definition truthy (s : jstr) : bool := match s with [] => false | _ :: _ => true end.

Definition truthy_opt (o : option jstr) : bool :=
  match o with Some s => truthy s | None => false end.

(** [a || b] on possibly absent strings. *)
Definition or_str (a b : option jstr) : option jstr := if truthy_opt a then a else b.

Definition matched {A} (o : option A) : bool := match o with Some _ => true | None => false end.

(** [arr.join(sep)]. *)
Fixpoint join (sep : jstr) (l : list jstr) : jstr :=
  match l with
  | [] => []
  | [x] => x
  | x :: xs => x ++ sep ++ join sep xs
  end.

Fixpoint starts_with (pre s : jstr) : bool :=
  match pre, s with
  | [], _ => true
  | c :: pre', d :: s' => Ascii.eqb c d && starts_with pre' s'
  | _ :: _, [] => false
  end.

(** [s.includes(needle)]. *)
Fixpoint includes (needle s : jstr) : bool :=
  starts_with needle s ||
  match s with
  | [] => false
  | _ :: s' => includes needle s'
  end.

(** [s.padStart(n, pad)] with a one-character pad. *)
Definition pad_start (n : nat) (pad : ascii) (s : jstr) : jstr :=
  replicate (n - length s) pad ++ s.

(** ** Numbers *)

Fixpoint digits_value_acc (acc : nat) (s : jstr) : nat :=
  match s with
  | [] => acc
  | c :: s' => digits_value_acc (10 * acc + digit_val c) s'
  end.

Definition digits_value (s : jstr) : nat := digits_value_acc 0 s.

(** [n.toString()] for a non-negative integer: its decimal digits.  The
    fuel [n + 1] is enough, since each step divides by ten. *)
Fixpoint to_string_fuel (fuel n : nat) : jstr :=
  match fuel with
  | 0 => []
  | S f => if n <? 10 then [digit_char n] else to_string_fuel f (n / 10) ++ [digit_char (n mod 10)]
  end.

Definition number_toString (n : nat) : jstr := to_string_fuel (S n) n.

(** [Number(s)] on the strings the code gives it: the empty string is
    [0], a string of decimal digits is its value, and anything else is
    [NaN] ([None]).  Signs, fractions, exponents and hexadecimal
    literals, which [Number] also reads, never reach it here. *)
Definition js_Number (s : jstr) : option nat :=
  let t := trim s in
  if forallb is_digit t then Some (digits_value t) else None.

Fixpoint take_digits (s : jstr) : jstr :=
  match s with
  | c :: s' => if is_digit c then c :: take_digits s' else []
  | [] => []
  end.

Definition hex_val (c : ascii) : option nat :=
  let n := nat_of_ascii c in
  if (48 <=? n) && (n <=? 57) then Some (n - 48)
  else if (97 <=? n) && (n <=? 102) then Some (n - 87)
  else if (65 <=? n) && (n <=? 70) then Some (n - 55)
  else None.

Fixpoint hex_prefix_value (acc : nat) (seen : bool) (s : jstr) : option nat :=
  match s with
  | c :: s' =>
      match hex_val c with
      | Some d => hex_prefix_value (16 * acc + d) true s'
      | None => if seen then Some acc else None
      end
  | [] => if seen then Some acc else None
  end.

(** [parseInt(s)] with no radix: leading whitespace, an optional sign,
    then a [0x] prefix selects base 16; otherwise the longest prefix of
    decimal digits.  No digit at all gives [NaN] ([None]). *)
Definition parse_int (s : jstr) : option Z :=
  let t := trim_start s in
  let '(neg, body) :=
    match t with
    | c :: r => if Ascii.eqb c "-"%char then (true, r)
                else if Ascii.eqb c "+"%char then (false, r) else (false, t)
    | [] => (false, t)
    end in
  let v :=
    match body with
    | z :: x :: r =>
        if Ascii.eqb z "0"%char && (Ascii.eqb x "x"%char || Ascii.eqb x "X"%char)
        then hex_prefix_value 0 false r
        else match take_digits body with
             | [] => None
             | ds => Some (digits_value ds)
             end
    | _ => match take_digits body with
           | [] => None
           | ds => Some (digits_value ds)
           end
    end in
  (fun n => if neg then (- Z.of_nat n)%Z else Z.of_nat n) <$> v.

(** ** Arrays *)

(** [arr.findIndex(p)], with [-1] as [None]. *)
Fixpoint find_index {A} (p : A -> bool) (l : list A) : option nat :=
  match l with
  | [] => None
  | x :: l' => if p x then Some 0 else S <$> find_index p l'
  end.

(** ** Regular expressions *)

Definition matcher := jstr -> list (jstr * jstr).

Definition m_class (p : ascii -> bool) : matcher := fun s =>
  match s with
  | c :: s' => if p c then [([c], s')] else []
  | [] => []
  end.

Definition m_char (c : ascii) : matcher := m_class (Ascii.eqb c).

Definition m_eps : matcher := fun s => [([], s)].

Definition m_seq (m1 m2 : matcher) : matcher := fun s =>
  flat_map (fun ar => map (fun br => (ar.1 ++ br.1, br.2)) (m2 ar.2)) (m1 s).

Definition m_alt (m1 m2 : matcher) : matcher := fun s => m1 s ++ m2 s.

(** Greedy [r?]: first with [r], then without. *)
Definition m_opt (m : matcher) : matcher := m_alt m m_eps.

(** A literal run of characters, such as [\.mp3]. *)
Fixpoint m_word (w : jstr) : matcher :=
  match w with
  | [] => m_eps
  | c :: w' => m_seq (m_char c) (m_word w')
  end.

(** [$] without the [m] flag: the end of the input. *)
Definition m_end : matcher := fun s =>
  match s with [] => [([], [])] | _ => [] end.

Fixpoint run (p : ascii -> bool) (s : jstr) : nat :=
  match s with
  | c :: s' => if p c then S (run p s') else 0
  | [] => 0
  end.

(** [[class]*]: lazy tries the shortest run first, greedy the longest. *)
Definition m_star_lazy (p : ascii -> bool) : matcher := fun s =>
  map (fun n => (take n s, drop n s)) (seq 0 (S (run p s))).

Definition m_star_greedy (p : ascii -> bool) : matcher := fun s =>
  rev (m_star_lazy p s).

(** The match JS reports at a fixed start position. *)
Definition first_match (m : matcher) (s : jstr) : option (jstr * jstr) := head (m s).

(** Unanchored search: (text before, match, text after). *)
Fixpoint search (m : matcher) (s : jstr) : option (jstr * jstr * jstr) :=
  match first_match m s with
  | Some (a, r) => Some ([], a, r)
  | None =>
      match s with
      | [] => None
      | c :: s' => (fun bar => (c :: bar.1.1, bar.1.2, bar.2)) <$> search m s'
      end
  end.

(** [s.replace(re, rep)] for a pattern anchored with [^]: only a match
    at the start is replaced. *)
Definition replace_start (m : matcher) (rep s : jstr) : jstr :=
  match first_match m s with
  | Some (_, r) => rep ++ r
  | None => s
  end.

(** [s.replace(re, rep)] for a non-global [re]. *)
Definition replace_first (m : matcher) (rep s : jstr) : jstr :=
  match search m s with
  | Some (b, _, r) => b ++ rep ++ r
  | None => s
  end.

(** [s.replace(re, rep)] for a global [re]: each match, left to right,
    the next search starting after it; after an empty match the search
    moves on one character.  Each round consumes a character or ends, so
    [length s + 1] rounds are enough. *)
Fixpoint replace_all_fuel (fuel : nat) (m : matcher) (rep s : jstr) : jstr :=
  match fuel with
  | O => s
  | S f =>
      match search m s with
      | Some (b, [], r) =>
          b ++ rep ++ match r with [] => [] | c :: r' => c :: replace_all_fuel f m rep r' end
      | Some (b, _, r) => b ++ rep ++ replace_all_fuel f m rep r
      | None => s
      end
  end.

Definition replace_all (m : matcher) (rep s : jstr) : jstr := replace_all_fuel (S (length s)) m rep s.

(** * Lemmas *)

(** A matcher is sound when each of its results splits its input. *)
Definition msound (m : matcher) : Prop := forall s a r, In (a, r) (m s) -> s = a ++ r.

Lemma m_class_sound p : msound (m_class p).
Proof.
  intros [|c s] a r H; simpl in H; [done|].
  destruct (p c); simpl in H; [destruct H as [[= <- <-]|[]]|]; done.
Qed.

Lemma m_eps_sound : msound m_eps.
Proof. intros s a r [H|[]]. by injection H as <- <-. Qed.

Lemma m_seq_sound m1 m2 : msound m1 -> msound m2 -> msound (m_seq m1 m2).
Proof.
  intros H1 H2 s a r H. unfold m_seq in H. apply in_flat_map in H as ([a1 r1] & Hin1 & Hin).
  apply in_map_iff in Hin as ([a2 r2] & [= <- <-] & Hin2); simpl in *.
  rewrite (H1 _ _ _ Hin1), (H2 _ _ _ Hin2), app_assoc. done.
Qed.

Lemma m_alt_sound m1 m2 : msound m1 -> msound m2 -> msound (m_alt m1 m2).
Proof. intros H1 H2 s a r H. apply in_app_or in H as [H|H]; eauto. Qed.

Lemma m_opt_sound m : msound m -> msound (m_opt m).
Proof. intros H. apply m_alt_sound; [done | apply m_eps_sound]. Qed.

Lemma m_star_lazy_sound p : msound (m_star_lazy p).
Proof.
  intros s a r H. apply in_map_iff in H as (n & [= <- <-] & _). by rewrite take_drop.
Qed.

Lemma m_star_greedy_sound p : msound (m_star_greedy p).
Proof. intros s a r H. apply in_rev in H. by apply m_star_lazy_sound with p. Qed.

#[export] Hint Resolve m_class_sound m_eps_sound m_seq_sound m_alt_sound m_opt_sound
  m_star_lazy_sound m_star_greedy_sound : rss.

Lemma m_word_sound w : msound (m_word w).
Proof. induction w as [|c w IH]; simpl; eauto with rss. Qed.

#[export] Hint Resolve m_word_sound : rss.

Lemma first_match_sound m s a r : msound m -> first_match m s = Some (a, r) -> s = a ++ r.
Proof.
  intros Hm H. unfold first_match in H. destruct (m s) as [|x l] eqn:E; [done|].
  injection H as ->. apply Hm. rewrite E. by left.
Qed.

Lemma search_sound m s b a r : msound m -> search m s = Some (b, a, r) -> s = b ++ a ++ r.
Proof.
  intros Hm. revert b. induction s as [|c s IH]; intros b H; simpl in H.
  - destruct (first_match m []) as [[a' r']|] eqn:E; [|done].
    injection H as <- <- <-. simpl. by eapply first_match_sound.
  - destruct (first_match m (c :: s)) as [[a' r']|] eqn:E.
    { injection H as <- <- <-. simpl. by eapply first_match_sound. }
    destruct (search m s) as [[[b' a''] r'']|] eqn:E'; simpl in H; [|done].
    injection H as <- <- <-. simpl. f_equal. by apply IH.
Qed.

(** A greedy star over [c :: t], [c] in the class: the runs of [t]
    one longer, then the empty run. *)
Lemma m_star_greedy_cons p c t :
  p c = true -> m_star_greedy p (c :: t) = map (fun ar => (c :: ar.1, ar.2)) (m_star_greedy p t) ++ [([], c :: t)].
Proof.
  intros Hc. unfold m_star_greedy, m_star_lazy. simpl. rewrite Hc.
  rewrite <- seq_shift, map_map. simpl. rewrite map_app, map_rev, map_map. done.
Qed.

Lemma search_hit m s a r : first_match m s = Some (a, r) -> search m s = Some ([], a, r).
Proof. intros H. destruct s; simpl; by rewrite H. Qed.

Lemma search_cons_miss m c s :
  first_match m (c :: s) = None -> search m (c :: s) = (fun bar => (c :: bar.1.1, bar.1.2, bar.2)) <$> search m s.
Proof. intros H. simpl. by rewrite H. Qed.

(** ** Case *)

Lemma to_lower_char_idem c : to_lower_char (to_lower_char c) = to_lower_char c.
Proof.
  assert (Hn : nat_of_ascii c < 256) by apply nat_ascii_bounded.
  unfold to_lower_char at 2 3. set (n := nat_of_ascii c).
  destruct (((65 <=? n) && (n <=? 90)) || ((192 <=? n) && (n <=? 222) && negb (n =? 215))) eqn:E.
  - unfold to_lower_char. rewrite nat_ascii_embedding.
    + destruct (((65 <=? n + 32) && _) || _) eqn:E2; [|done].
      exfalso. apply orb_true_iff in E, E2.
      destruct E as [E|E], E2 as [E2|E2]; nbool; lia.
    + apply orb_true_iff in E. destruct E; nbool; lia.
  - unfold to_lower_char. fold n. by rewrite E.
Qed.

(** A string is in lower case when [toLowerCase] leaves it alone. *)
Lemma to_lower_Forall s : to_lower s = s <-> Forall (fun c => to_lower_char c = c) s.
Proof.
  induction s as [|c s IH]; simpl; [split; auto|]. rewrite Forall_cons_iff, <- IH. split.
  - intros H. by injection H.
  - by intros [-> ->].
Qed.

Lemma to_lower_idem s : to_lower (to_lower s) = to_lower s.
Proof. unfold to_lower. rewrite map_map. apply map_ext. apply to_lower_char_idem. Qed.

(** A piece of a lower-case string is in lower case. *)
Lemma to_lower_infix a b c : to_lower (a ++ b ++ c) = a ++ b ++ c -> to_lower b = b.
Proof. rewrite !to_lower_Forall, !Forall_app. tauto. Qed.

(** ** Text lemmas *)

Lemma trim_start_app_ws s t : Forall (fun c => is_ws c = true) s -> trim_start (s ++ t) = trim_start t.
Proof. induction 1 as [|c s Hc _ IH]; simpl; [done|]. by rewrite Hc. Qed.

Lemma trim_start_no_ws c s : is_ws c = false -> trim_start (c :: s) = c :: s.
Proof. simpl. intros ->. done. Qed.

Lemma split_on_not_nil sep s : split_on sep s <> [].
Proof. destruct s as [|c s]; simpl; [done|]. destruct (Ascii.eqb c sep); [done|]. by destruct (split_on sep s). Qed.

Lemma find_index_Some {A} (p : A -> bool) l i :
  find_index p l = Some i <->
  (exists x, l !! i = Some x /\ p x = true) /\ (forall j y, j < i -> l !! j = Some y -> p y = false).
Proof.
  revert i. induction l as [|x l IH]; intros i; simpl.
  - split; [done|]. intros [(y & Hy & _) _]. done.
  - destruct (p x) eqn:Hx.
    + split.
      * intros [= <-]. split; [eauto | intros; lia].
      * intros [_ Hmin]. destruct i as [|i]; [done|]. specialize (Hmin 0 x ltac:(lia) eq_refl). congruence.
    + rewrite fmap_Some. split.
      * intros (k & Hk & ->). apply IH in Hk as [Hex Hmin]. split; [done|].
        intros [|j] y Hj Hy; simpl in Hy; [congruence|]. apply (Hmin j y); [lia|done].
      * intros [Hex Hmin]. destruct i as [|i]; [destruct Hex as (y & [= <-] & Hy); congruence|].
        exists i. split; [|done]. apply IH. split; [done|].
        intros j y Hj Hy. apply (Hmin (S j)); [lia|done].
Qed.

Lemma find_index_None {A} (p : A -> bool) l :
  find_index p l = None <-> forall x, In x l -> p x = false.
Proof.
  induction l as [|x l IH]; simpl; [naive_solver|].
  destruct (p x) eqn:Hx.
  - split; [done|]. intros H. rewrite H in Hx by auto. done.
  - destruct (find_index p l) as [k|] eqn:E; simpl.
    + split; [done|]. intros H. enough (Some k = None) by done. apply IH. auto.
    + split; [|done]. intros _ y [<-|Hy]; [done|]. by apply IH.
Qed.

Lemma find_index_le {A} (p : A -> bool) l k x :
  l !! k = Some x -> p x = true -> exists j, find_index p l = Some j /\ j <= k.
Proof.
  revert k. induction l as [|y l IH]; intros k Hk Hx; [done|]. simpl.
  destruct (p y) eqn:Hy; [exists 0; split; [done|lia]|].
  destruct k as [|k]; simpl in Hk; [congruence|].
  destruct (IH k Hk Hx) as (j & -> & Hj). exists (S j). split; [done|lia].
Qed.

(** ** Inversion and introduction lemmas for the matchers *)

Lemma m_class_inv p s a r :
  In (a, r) (m_class p s) -> exists c, a = [c] /\ p c = true /\ s = c :: r.
Proof.
  destruct s as [|c s]; simpl; [done|]. destruct (p c) eqn:Hp; simpl; [|done].
  intros [[= <- <-]|[]]. eauto.
Qed.

Lemma m_seq_inv m1 m2 s a r :
  In (a, r) (m_seq m1 m2 s) -> exists a1 r1 a2, In (a1, r1) (m1 s) /\ In (a2, r) (m2 r1) /\ a = a1 ++ a2.
Proof.
  unfold m_seq. intros H. apply in_flat_map in H as ([a1 r1] & H1 & H2).
  apply in_map_iff in H2 as ([a2 r2] & [= <- <-] & H2). simpl in *.
  exists a1, r1, a2. done.
Qed.

Lemma m_alt_inv m1 m2 s x : In x (m_alt m1 m2 s) -> In x (m1 s) \/ In x (m2 s).
Proof. apply in_app_or. Qed.

Lemma m_eps_inv s a r : In (a, r) (m_eps s) -> a = [] /\ r = s.
Proof. intros [[= <- <-]|[]]. done. Qed.

Lemma m_class_intro p c s : p c = true -> In ([c], s) (m_class p (c :: s)).
Proof. simpl. intros ->. by left. Qed.

Lemma m_seq_intro m1 m2 s a1 r1 a2 r2 :
  In (a1, r1) (m1 s) -> In (a2, r2) (m2 r1) -> In (a1 ++ a2, r2) (m_seq m1 m2 s).
Proof.
  intros H1 H2. unfold m_seq. apply in_flat_map. exists (a1, r1). split; [done|].
  apply in_map_iff. exists (a2, r2). done.
Qed.

Lemma m_alt_intro_l m1 m2 s x : In x (m1 s) -> In x (m_alt m1 m2 s).
Proof. intros H. apply in_or_app. by left. Qed.

Lemma m_alt_intro_r m1 m2 s x : In x (m2 s) -> In x (m_alt m1 m2 s).
Proof. intros H. apply in_or_app. by right. Qed.

Lemma m_eps_intro s : In ([], s) (m_eps s).
Proof. by left. Qed.

#[export] Hint Resolve m_class_intro m_seq_intro m_alt_intro_l m_alt_intro_r m_eps_intro : rss.

(** The inversions above, applied until the hypotheses are flat. *)
Ltac minv :=
  repeat match goal with
  | H : In (_, _) (m_seq _ _ _) |- _ =>
      let a1 := fresh "a" in let r1 := fresh "r" in let a2 := fresh "a" in
      apply m_seq_inv in H as (a1 & r1 & a2 & ? & ? & ?)
  | H : In _ (m_alt _ _ _) |- _ => apply m_alt_inv in H as [H|H]
  | H : In (_, _) (m_class _ _) |- _ =>
      let c := fresh "c" in apply m_class_inv in H as (c & ? & ? & ?)
  | H : In (_, _) (m_eps _) |- _ => apply m_eps_inv in H as [? ?]
  end.

(** ** Digits *)

Lemma nat_of_digit_char k : k < 10 -> nat_of_ascii (digit_char k) = 48 + k.
Proof. intros H. unfold digit_char. apply nat_ascii_embedding. lia. Qed.

Lemma is_digit_char k : k < 10 -> is_digit (digit_char k) = true.
Proof.
  intros H. unfold is_digit. rewrite nat_of_digit_char by done.
  apply andb_true_iff. split; apply Nat.leb_le; lia.
Qed.

Lemma digit_val_char k : k < 10 -> digit_val (digit_char k) = k.
Proof. intros H. unfold digit_val. rewrite nat_of_digit_char by done. lia. Qed.

Lemma digit_val_lt c : is_digit c = true -> digit_val c < 10.
Proof. unfold is_digit, digit_val. intros H. nbool. lia. Qed.

Lemma digit_not_ws c : is_digit c = true -> is_ws c = false.
Proof.
  unfold is_digit, is_ws. intros H. nbool.
  apply orb_false_iff; split; [apply orb_false_iff; split|].
  - apply andb_false_iff. right. apply Nat.leb_gt. lia.
  - apply Nat.eqb_neq. lia.
  - apply Nat.eqb_neq. lia.
Qed.

Lemma digit_not_eq c d : is_digit c = true -> is_digit d = false -> Ascii.eqb c d = false.
Proof. intros Hc Hd. destruct (Ascii.eqb_spec c d) as [->|]; [congruence|done]. Qed.

Lemma digits_value_acc_snoc acc l c :
  digits_value_acc acc (l ++ [c]) = 10 * digits_value_acc acc l + digit_val c.
Proof. revert acc. induction l as [|d l IH]; intros acc; simpl; [done|]. apply IH. Qed.

Lemma to_string_fuel_digits fuel n :
  n < fuel -> forallb is_digit (to_string_fuel fuel n) = true /\ digits_value (to_string_fuel fuel n) = n.
Proof.
  revert n. induction fuel as [|f IH]; intros n Hn; [lia|]. cbn [to_string_fuel].
  destruct (n <? 10) eqn:E; nbool.
  - cbn [forallb]. rewrite is_digit_char by done. unfold digits_value. cbn [digits_value_acc].
    rewrite digit_val_char; lia.
  - assert (Hd : n / 10 < f) by (apply Nat.Div0.div_lt_upper_bound; lia).
    destruct (IH (n / 10) Hd) as [H1 H2]. rewrite forallb_app, H1. cbn [forallb andb].
    rewrite is_digit_char by (apply Nat.mod_upper_bound; lia). split; [done|].
    unfold digits_value in *. rewrite digits_value_acc_snoc, H2, digit_val_char by (apply Nat.mod_upper_bound; lia).
    pose proof (Nat.div_mod_eq n 10). lia.
Qed.

(** [Number(n.toString())] is [n]. *)
Lemma number_toString_digits n :
  forallb is_digit (number_toString n) = true /\ digits_value (number_toString n) = n.
Proof. apply to_string_fuel_digits. lia. Qed.

(** [n.toString().padStart(2, '0')] for [n < 100] is its two digits. *)
Lemma pad2_digits n :
  n < 100 -> pad_start 2 "0"%char (number_toString n) = [digit_char (n / 10); digit_char (n mod 10)].
Proof.
  intros Hn. unfold pad_start, number_toString. destruct (n <? 10) eqn:E; nbool.
  - destruct n as [|n']; [done|]. cbn [to_string_fuel].
    replace (S n' <? 10) with true by (symmetry; apply Nat.ltb_lt; lia).
    rewrite Nat.div_small, Nat.mod_small by lia. done.
  - destruct n as [|n']; [lia|]. cbn [to_string_fuel].
    replace (S n' <? 10) with false by (symmetry; apply Nat.ltb_ge; lia).
    destruct n' as [|f]; [lia|]. cbn [to_string_fuel].
    replace (S (S f) / 10 <? 10) with true by (symmetry; apply Nat.ltb_lt, Nat.Div0.div_lt_upper_bound; lia).
    done.
Qed.

Lemma digits_value_two a b :
  a < 10 -> b < 10 -> digits_value [digit_char a; digit_char b] = 10 * a + b.
Proof. intros Ha Hb. unfold digits_value. cbn [digits_value_acc]. rewrite !digit_val_char by done. lia. Qed.

(** ** Trimming *)

Lemma trim_start_keep s : Forall (fun c => is_ws c = false) (take 1 s) -> trim_start s = s.
Proof. destruct s as [|c s]; simpl; [done|]. intros H. inversion H; subst. by rewrite H2. Qed.

Lemma trim_no_ws s : Forall (fun c => is_ws c = false) s -> trim s = s.
Proof.
  intros H. unfold trim, trim_end. rewrite (trim_start_keep s) by (by apply Forall_take).
  rewrite (trim_start_keep (rev s)); [apply rev_involutive|].
  apply Forall_take. by apply Forall_rev.
Qed.

(** ** Splitting and joining *)

Lemma trim_start_snoc_keep l c : is_ws c = false -> trim_start (l ++ [c]) <> [].
Proof. intros Hc. induction l as [|d l IH]; simpl; [by rewrite Hc|]. by destruct (is_ws d). Qed.

(** A string that starts with a non-blank character is not blank. *)
Lemma truthy_trim_cons c s : is_ws c = false -> truthy (trim (c :: s)) = true.
Proof.
  intros Hc. unfold trim, trim_end. rewrite trim_start_no_ws by done. simpl.
  destruct (trim_start (rev s ++ [c])) eqn:E; [by apply trim_start_snoc_keep in E|].
  simpl. by destruct (rev l).
Qed.

Lemma split_on_no_sep sep s : Forall (fun c => Ascii.eqb c sep = false) s -> split_on sep s = [s].
Proof. induction 1 as [|c s Hc _ IH]; simpl; [done|]. by rewrite Hc, IH. Qed.

Lemma split_on_app_sep sep a b :
  Forall (fun c => Ascii.eqb c sep = false) a -> split_on sep (a ++ sep :: b) = a :: split_on sep b.
Proof.
  induction 1 as [|c a Hc _ IH]; simpl.
  - by rewrite Ascii.eqb_refl.
  - by rewrite Hc, IH.
Qed.

Lemma join_split_on sep s : join [sep] (split_on sep s) = s.
Proof.
  induction s as [|c s IH]; [done|]. simpl.
  destruct (Ascii.eqb_spec c sep) as [->|Hne].
  - destruct (split_on sep s) as [|p ps] eqn:E; [by apply split_on_not_nil in E|].
    simpl. rewrite <- IH. by destruct ps.
  - destruct (split_on sep s) as [|p ps] eqn:E; [by apply split_on_not_nil in E|].
    simpl in *. by destruct ps; rewrite IH.
Qed.

(** The pieces of a split never contain the separator. *)
Lemma split_on_pieces sep s : Forall (Forall (fun c => Ascii.eqb c sep = false)) (split_on sep s).
Proof.
  induction s as [|c s IH]; simpl; [by repeat constructor|].
  destruct (Ascii.eqb c sep) eqn:Ec; [by constructor|].
  destruct (split_on sep s) as [|p ps]; [by repeat constructor|].
  inversion IH; subst. by repeat constructor.
Qed.

(** Joining separator-free pieces with a doubled separator and splitting
    again gives the pieces back, with an empty piece between each two. *)
Lemma filter_split_join2 (keep : jstr -> bool) sep l :
  keep [] = false -> Forall (Forall (fun c => Ascii.eqb c sep = false)) l ->
  List.filter keep (split_on sep (join [sep; sep] l)) = List.filter keep l.
Proof.
  intros Hk. induction 1 as [|x l Hx Hl IH]; [by simpl; rewrite Hk|].
  destruct l as [|y l].
  - simpl. by rewrite split_on_no_sep.
  - change (join [sep; sep] (x :: y :: l)) with (x ++ sep :: sep :: join [sep; sep] (y :: l)).
    rewrite split_on_app_sep by done. cbn [split_on]. rewrite Ascii.eqb_refl.
    cbn [List.filter]. rewrite Hk, IH. done.
Qed.

(** ** The lazy star up to a stop character *)

Lemma m_star_lazy_cons p c s :
  p c = true ->
  m_star_lazy p (c :: s) = ([], c :: s) :: map (fun ar => (c :: ar.1, ar.2)) (m_star_lazy p s).
Proof.
  intros Hc. unfold m_star_lazy. simpl. rewrite Hc. simpl. f_equal.
  rewrite <- seq_shift, !map_map. reflexivity.
Qed.

Lemma m_seq_star_lazy_cons p m2 c t :
  p c = true -> m2 (c :: t) = [] ->
  m_seq (m_star_lazy p) m2 (c :: t) = map (fun q => (c :: q.1, q.2)) (m_seq (m_star_lazy p) m2 t).
Proof.
  intros Hp Hm. unfold m_seq. rewrite m_star_lazy_cons by done. cbn [flat_map fst snd]. rewrite Hm.
  cbn [map app]. induction (m_star_lazy p t) as [|ar l IH]; [done|].
  cbn [map flat_map]. rewrite map_app, IH, map_map. done.
Qed.

(** [.*?X] on [g ++ X :: rest], where [g] has no [X] and only
    characters of the class, first stops right before that [X]. *)
Lemma lazy_until_head p x g rest :
  Forall (fun c => p c = true /\ Ascii.eqb c x = false) g ->
  head (m_seq (m_star_lazy p) (m_char x) (g ++ x :: rest)) = Some (g ++ [x], rest).
Proof.
  induction 1 as [|c g [Hp Hx] _ IH].
  - unfold m_seq, m_star_lazy, m_char, m_class. simpl. by rewrite Ascii.eqb_refl.
  - simpl app. rewrite m_seq_star_lazy_cons by (try done; unfold m_char, m_class; by rewrite (Ascii.eqb_sym x c), Hx).
    destruct (m_seq _ _ (g ++ x :: rest)) as [|q l]; simpl in *; [done|]. by injection IH as ->.
Qed.

Lemma js_Number_digits f : forallb is_digit f = true -> js_Number f = Some (digits_value f).
Proof.
  intros H. unfold js_Number. rewrite trim_no_ws, H; [done|].
  apply Forall_forall. intros c Hc. apply digit_not_ws. apply forallb_forall with (x := c) in H; [done|].
  by apply list_elem_of_In.
Qed.

Lemma head_fmap_Some {A B} (f : A -> B) l y : f <$> head l = Some y -> exists x, In x l /\ f x = y.
Proof. destruct l as [|x l]; simpl; [done|]. intros [= <-]. exists x. by split; [left|]. Qed.

Lemma first_match_seq_char m c t :
  first_match (m_seq (m_char c) m) (c :: t) = (fun q => (c :: q.1, q.2)) <$> head (m t).
Proof.
  unfold first_match, m_seq, m_char, m_class. rewrite Ascii.eqb_refl. simpl.
  rewrite app_nil_r. destruct (m t); done.
Qed.

Lemma m_seq_intro_eq m1 m2 s a a1 r1 a2 r2 :
  In (a1, r1) (m1 s) -> In (a2, r2) (m2 r1) -> a = a1 ++ a2 -> In (a, r2) (m_seq m1 m2 s).
Proof. intros H1 H2 ->. by apply m_seq_intro with r1. Qed.

Lemma m_class_intro_eq p c s t : s = c :: t -> p c = true -> In ([c], t) (m_class p s).
Proof. intros -> Hp. simpl. rewrite Hp. by left. Qed.

(** Build a match of a combinator term on a concrete string, trying
    the alternatives in order and backtracking on failure; [close] proves
    the class tests. *)
Ltac mbuild_with close :=
  lazymatch goal with
  | |- In _ (m_seq _ _ _) =>
      eapply m_seq_intro_eq; [mbuild_with close | mbuild_with close | reflexivity]
  | |- In _ (m_alt _ _ _) =>
      (apply m_alt_intro_l; mbuild_with close) + (apply m_alt_intro_r; mbuild_with close)
  | |- In _ (m_eps _) => apply m_eps_intro
  | |- In _ (m_class _ _) =>
      eapply m_class_intro_eq; [reflexivity | first [assumption | reflexivity | close]]
  end.

(** The text before the first occurrence of [x] is determined. *)
Lemma app_cons_unique (x : ascii) a r b r' :
  a ++ x :: r = b ++ x :: r' -> ~ In x a -> ~ In x b -> a = b /\ r = r'.
Proof.
  revert b. induction a as [|c a IH]; intros [|d b] H Ha Hb; simpl in *.
  - by injection H.
  - injection H as -> _. tauto.
  - injection H as -> _. tauto.
  - injection H as -> H. destruct (IH b H) as [-> ->]; [tauto|tauto|done].
Qed.
