(* ===== verification/JsArray.v ===== *)
(** * [Array.prototype.sort] with a comparator

    ECMAScript requires [sort] to be stable, and for a consistent
    comparator it then has one possible result: the stable sorted
    permutation.  [js_sort] computes it by insertion, element by element
    in the array's order: an element goes after every element that does
    not compare greater.  For a comparator that is not consistent (one
    that answers [NaN], read as [0], for some pairs) the order the
    standard allows is implementation-defined and [js_sort] is one of the
    possible orders.

    The lemmas show that the result is a permutation, that it is sorted
    when the comparator is a difference of keys, that it agrees with
    stdpp's [merge_sort] when the keys are pairwise distinct (a sorted
    permutation is then unique), and that it only depends on the
    comparator's values on the array's elements. *)

From S2P Require Import Prelude.
From stdpp Require Import sorting.

Section Sort.
Context {A : Type}.

(** Insert [x] after the leading elements [y] with [cmp y x <= 0]. *)
Fixpoint insert_by (cmp : A -> A -> Z) (x : A) (l : list A) : list A :=
  match l with
  | [] => [x]
  | y :: l' => if (0 <? cmp y x)%Z then x :: l else y :: insert_by cmp x l'
  end.

(** [arr.sort(cmp)]. *)
Definition js_sort (cmp : A -> A -> Z) (l : list A) : list A :=
  fold_left (fun acc x => insert_by cmp x acc) l [].

(** The comparator [(a, b) => key(b) - key(a)]: newest first. *)
Definition desc_by (key : A -> Z) (a b : A) : Z := (key b - key a)%Z.

(** Its order: [a] may come before [b]. *)
Definition desc_rel (key : A -> Z) (a b : A) : Prop := (key b <= key a)%Z.

#[export] Instance desc_rel_dec key : RelDecision (desc_rel key).
Proof. intros a b. unfold desc_rel. apply _. Defined.

End Sort.

Section SortLemmas.
Context {A : Type}.
Implicit Types (l : list A) (x y : A).

Lemma insert_by_perm cmp x l : insert_by cmp x l ≡ₚ x :: l.
Proof.
  induction l as [|y l IH]; simpl; [done|].
  case_match; [done|]. rewrite IH. by constructor.
Qed.

Lemma fold_insert_perm cmp l acc : fold_left (fun acc x => insert_by cmp x acc) l acc ≡ₚ l ++ acc.
Proof.
  revert acc. induction l as [|x l IH]; intros acc; simpl; [done|].
  rewrite IH, insert_by_perm. by rewrite Permutation_middle.
Qed.

Lemma js_sort_perm cmp l : js_sort cmp l ≡ₚ l.
Proof. unfold js_sort. by rewrite fold_insert_perm, app_nil_r. Qed.

Lemma js_sort_length cmp l : length (js_sort cmp l) = length l.
Proof. apply Permutation_length, js_sort_perm. Qed.

Section Keyed.
Variable key : A -> Z.

Lemma insert_by_head x l :
  insert_by (desc_by key) x l = x :: l \/
  exists z l', l = z :: l' /\ insert_by (desc_by key) x l = z :: insert_by (desc_by key) x l' /\
               desc_rel key z x.
Proof.
  destruct l as [|z l']; simpl; [by left|]. unfold desc_by, desc_rel.
  destruct (0 <? key x - key z)%Z eqn:E; [by left|]. right. nbool. eexists _, _. split_and!; [done..|lia].
Qed.

Lemma insert_by_sorted x l : Sorted (desc_rel key) l -> Sorted (desc_rel key) (insert_by (desc_by key) x l).
Proof.
  induction 1 as [|y l Hs IH Hd]; simpl; [by repeat constructor|].
  unfold desc_by at 1. destruct (0 <? key x - key y)%Z eqn:E; nbool.
  - constructor; [by constructor|]. constructor. unfold desc_rel. lia.
  - constructor; [done|]. destruct (insert_by_head x l) as [->|(z & l' & -> & -> & Hz)].
    + constructor. unfold desc_rel. lia.
    + constructor. by inversion Hd.
Qed.

Lemma fold_insert_sorted l acc :
  Sorted (desc_rel key) acc -> Sorted (desc_rel key) (fold_left (fun acc x => insert_by (desc_by key) x acc) l acc).
Proof. revert acc. induction l as [|x l IH]; intros acc H; simpl; [done|]. by apply IH, insert_by_sorted. Qed.

(** Sorting by [(a, b) => key(b) - key(a)] puts the largest keys first. *)
Lemma js_sort_sorted l : Sorted (desc_rel key) (js_sort (desc_by key) l).
Proof. apply fold_insert_sorted. constructor. Qed.

#[export] Instance desc_rel_trans : Transitive (desc_rel key).
Proof. unfold desc_rel. intros a b c. lia. Qed.

#[export] Instance desc_rel_total : Total (desc_rel key).
Proof. unfold desc_rel. intros a b. lia. Qed.

(** Two sorted permutations with pairwise distinct keys are equal. *)
Lemma sorted_perm_unique l1 l2 :
  Sorted (desc_rel key) l1 -> Sorted (desc_rel key) l2 -> l1 ≡ₚ l2 -> NoDup (map key l1) -> l1 = l2.
Proof.
  intros H1 H2. apply Sorted_StronglySorted in H1, H2; [|apply _..]. revert l2 H2.
  induction H1 as [|x l1 H1 IH Hx]; intros l2 H2 Hp Hn.
  - by apply Permutation_nil in Hp.
  - destruct H2 as [|y l2 H2 Hy]; [symmetry in Hp; by apply Permutation_nil_cons in Hp|].
    simpl in Hn. apply NoDup_cons in Hn as [Hnx Hn].
    assert (Hxy : x = y).
    { assert (Hy' : y ∈ x :: l1) by (rewrite Hp; left). apply elem_of_cons in Hy' as [->|Hyin]; [done|].
      assert (Hx' : x ∈ y :: l2) by (rewrite <- Hp; left). apply elem_of_cons in Hx' as [->|Hxin]; [done|].
      apply Forall_forall with (x := y) in Hx; [|done]. apply Forall_forall with (x := x) in Hy; [|done].
      unfold desc_rel in Hx, Hy. destruct Hnx. apply list_elem_of_In, in_map_iff.
      exists y. split; [lia|by apply list_elem_of_In]. }
    subst y. f_equal. apply IH; [done| |done]. by apply Permutation_cons_inv in Hp.
Qed.

(** With pairwise distinct keys, the model of [sort] computes the same
    list as stdpp's merge sort. *)
Lemma js_sort_merge_sort l : NoDup (map key l) -> js_sort (desc_by key) l = merge_sort (desc_rel key) l.
Proof.
  intros Hn. apply sorted_perm_unique.
  - apply js_sort_sorted.
  - apply Sorted_merge_sort. apply _.
  - by rewrite js_sort_perm, merge_sort_Permutation.
  - eapply NoDup_Permutation_proper; [|exact Hn]. apply Permutation_map, js_sort_perm.
Qed.

End Keyed.

(** [sort] only looks at the comparator on the elements it sorts. *)
Lemma insert_by_ext cmp1 cmp2 x l :
  (forall y, y ∈ l -> cmp1 y x = cmp2 y x) -> insert_by cmp1 x l = insert_by cmp2 x l.
Proof.
  induction l as [|y l IH]; intros H; simpl; [done|].
  rewrite H by left. case_match; [done|]. f_equal. apply IH. intros z Hz. apply H. by right.
Qed.

Lemma fold_insert_ext cmp1 cmp2 l acc :
  (forall x y, x ∈ l ++ acc -> y ∈ l ++ acc -> cmp1 x y = cmp2 x y) ->
  fold_left (fun acc x => insert_by cmp1 x acc) l acc = fold_left (fun acc x => insert_by cmp2 x acc) l acc.
Proof.
  revert acc. induction l as [|x l IH]; intros acc H; simpl; [done|].
  assert (Hsub : forall a, a ∈ l ++ insert_by cmp2 x acc -> a ∈ (x :: l) ++ acc).
  { intros a. rewrite (insert_by_perm cmp2), !elem_of_app, !elem_of_cons. tauto. }
  rewrite (insert_by_ext cmp1 cmp2).
  - apply IH. intros a b Ha Hb. apply H; by apply Hsub.
  - intros y Hy. apply H; rewrite elem_of_app, elem_of_cons; auto.
Qed.

Lemma js_sort_ext cmp1 cmp2 l :
  (forall x y, x ∈ l -> y ∈ l -> cmp1 x y = cmp2 x y) -> js_sort cmp1 l = js_sort cmp2 l.
Proof. intros H. apply fold_insert_ext. intros x y. rewrite app_nil_r. apply H. Qed.

End SortLemmas.
