(* ===== verification/Glob.v ===== *)
(** * Glob patterns: the files a Tailwind [content] entry selects

    Tailwind passes the [content] entries of tailwind.config.ts to
    fast-glob, whose patterns follow micromatch: a pattern and a path are
    split at [/]; a segment [**] matches any number of path segments, none
    of them hidden (a leading [.]); inside a segment [*] matches any run of
    characters, though not a leading [.] of the segment, and [{a,b}] one of
    its alternatives.  This is the library's semantics, not repository
    code: [parse_glob] reads a pattern, [glob_match] is the backtracking
    matcher, and the inductive [path_matches] is the declarative meaning;
    [glob_match_spec] shows they agree. *)

From S2P Require Import Prelude JsRuntime.

Module Glob.

(** ** Patterns *)

Inductive SegTok := SLit (c : ascii) | SStar | SAlt (alts : list jstr).
Inductive PatSeg := Globstar | Seg (ts : list SegTok).

Definition slash : ascii := "/"%char.

(** The tokens of one segment; [st] holds the alternatives read so far
    and the current one while inside braces.  An unclosed brace is read
    as literal text. *)
Fixpoint parse_seg_go (s : jstr) (st : option (list jstr * jstr)) : list SegTok :=
  match s, st with
  | [], None => []
  | [], Some (alts, cur) => map SLit ("{"%char :: join (lit ",") (alts ++ [cur]))
  | c :: r, None =>
      if Ascii.eqb c "*" then SStar :: parse_seg_go r None
      else if Ascii.eqb c "{" then parse_seg_go r (Some ([], []))
      else SLit c :: parse_seg_go r None
  | c :: r, Some (alts, cur) =>
      if Ascii.eqb c "}" then SAlt (alts ++ [cur]) :: parse_seg_go r None
      else if Ascii.eqb c "," then parse_seg_go r (Some (alts ++ [cur], []))
      else parse_seg_go r (Some (alts, cur ++ [c]))
  end.

Definition parse_seg (s : jstr) : list SegTok := parse_seg_go s None.

Definition parse_glob (p : jstr) : list PatSeg :=
  map (fun seg => if bool_decide (seg = lit "**") then Globstar else Seg (parse_seg seg)) (split_on slash p).

(** ** The matcher *)

Definition hidden (s : jstr) : bool :=
  match s with c :: _ => Ascii.eqb c "." | [] => false end.

(** A segment pattern that starts with [*] does not match a hidden name. *)
Definition seg_ok (ts : list SegTok) (s : jstr) : bool :=
  match ts with SStar :: _ => negb (hidden s) | _ => true end.

Fixpoint seg_match (ts : list SegTok) (s : jstr) : bool :=
  match ts with
  | [] => bool_decide (s = [])
  | SLit c :: ts' => match s with d :: s' => Ascii.eqb c d && seg_match ts' s' | [] => false end
  | SStar :: ts' => existsb (fun k => seg_match ts' (drop k s)) (seq 0 (S (length s)))
  | SAlt alts :: ts' => existsb (fun a => starts_with a s && seg_match ts' (drop (length a) s)) alts
  end.

Fixpoint path_match (ps : list PatSeg) (segs : list jstr) : bool :=
  match ps with
  | [] => bool_decide (segs = [])
  | Globstar :: ps' =>
      existsb (fun k => forallb (fun d => negb (hidden d)) (take k segs) && path_match ps' (drop k segs))
              (seq 0 (S (length segs)))
  | Seg ts :: ps' =>
      match segs with
      | s :: segs' => seg_ok ts s && seg_match ts s && path_match ps' segs'
      | [] => false
      end
  end.

Definition glob_match (p path : jstr) : bool := path_match (parse_glob p) (split_on slash path).

(** ** The declarative semantics *)

Inductive seg_matches : list SegTok -> jstr -> Prop :=
| sm_nil : seg_matches [] []
| sm_lit c ts s : seg_matches ts s -> seg_matches (SLit c :: ts) (c :: s)
| sm_star ts u s : seg_matches ts s -> seg_matches (SStar :: ts) (u ++ s)
| sm_alt alts a ts s : a ∈ alts -> seg_matches ts s -> seg_matches (SAlt alts :: ts) (a ++ s).

Inductive path_matches : list PatSeg -> list jstr -> Prop :=
| pm_nil : path_matches [] []
| pm_seg ts ps s segs :
    seg_ok ts s = true -> seg_matches ts s -> path_matches ps segs -> path_matches (Seg ts :: ps) (s :: segs)
| pm_globstar ps dirs segs :
    Forall (fun d => hidden d = false) dirs -> path_matches ps segs -> path_matches (Globstar :: ps) (dirs ++ segs).

#[export] Hint Constructors seg_matches path_matches : rss.

(** ** Lemmas *)

Lemma starts_with_app a s : starts_with a s = true <-> exists r, s = a ++ r.
Proof.
  revert s. induction a as [|c a IH]; intros [|d s]; simpl.
  - split; [by exists []|done].
  - split; [by exists (d :: s)|done].
  - split; [done|intros [r Hr]; done].
  - rewrite andb_true_iff, IH. split.
    + intros [Hc%Ascii.eqb_eq [r ->]]. subst. by exists r.
    + intros [r [= -> ->]]. rewrite Ascii.eqb_refl. eauto.
Qed.

(** Choosing a split point among [0 .. length l]. *)
Lemma existsb_split {A} (P : list A -> list A -> bool) (l : list A) :
  existsb (fun k => P (take k l) (drop k l)) (seq 0 (S (length l))) = true <->
  exists u r, l = u ++ r /\ P u r = true.
Proof.
  rewrite existsb_exists. split.
  - intros (k & _ & Hk). exists (take k l), (drop k l). by rewrite take_drop.
  - intros (u & r & -> & H). exists (length u). split.
    + apply in_seq. rewrite length_app. lia.
    + by rewrite take_app_length, drop_app_length.
Qed.

Lemma seg_match_spec ts s : seg_match ts s = true <-> seg_matches ts s.
Proof.
  revert s. induction ts as [|[c| |alts] ts IH]; intros s; simpl.
  - rewrite bool_decide_eq_true. split; [intros ->; constructor|by inversion 1].
  - destruct s as [|d s].
    + split; [done|by inversion 1].
    + rewrite andb_true_iff, IH. split.
      * intros [->%Ascii.eqb_eq H]. by constructor.
      * inversion 1; subst. by rewrite Ascii.eqb_refl.
  - pose proof (existsb_split (fun _ r => seg_match ts r) s) as E. cbn beta in E. rewrite E. split.
    + intros (u & r & -> & H%IH). by constructor.
    + inversion 1; subst. eexists _, _. rewrite IH. eauto.
  - rewrite existsb_exists. split.
    + intros (a & Ha & (Hs & Hm)%andb_true_iff). apply starts_with_app in Hs as [r ->].
      rewrite drop_app_length in Hm. apply IH in Hm. constructor; [by apply list_elem_of_In|done].
    + inversion 1; subst. exists a. split; [by apply list_elem_of_In|].
      rewrite drop_app_length, (proj2 (starts_with_app _ _)) by eauto. by apply IH.
Qed.

Lemma forallb_visible (l : list jstr) :
  forallb (fun d => negb (hidden d)) l = true <-> Forall (fun d => hidden d = false) l.
Proof. rewrite forallb_forall, Forall_forall. setoid_rewrite negb_true_iff. by setoid_rewrite <- list_elem_of_In. Qed.

(** The matcher decides the declarative semantics. *)
Lemma glob_match_spec ps segs : path_match ps segs = true <-> path_matches ps segs.
Proof.
  revert segs. induction ps as [|[|ts] ps IH]; intros segs; simpl.
  - rewrite bool_decide_eq_true. split; [intros ->; constructor|by inversion 1].
  - pose proof (existsb_split (fun u r => forallb (fun d => negb (hidden d)) u && path_match ps r) segs) as E.
    cbn beta in E. rewrite E. split.
    + intros (u & r & -> & (Hu%forallb_visible & Hr%IH)%andb_true_iff). by constructor.
    + inversion 1; subst. eexists _, _. split; [done|]. apply andb_true_iff. by rewrite forallb_visible, IH.
  - destruct segs as [|s segs]; [split; [done|by inversion 1]|].
    rewrite !andb_true_iff, seg_match_spec, IH. split.
    + intros [[? ?] ?]. by constructor.
    + by inversion 1; subst.
Qed.

Lemma no_sep_iff sep (s : jstr) : Forall (fun c => Ascii.eqb c sep = false) s <-> sep ∉ s.
Proof.
  rewrite Forall_forall. split.
  - intros H Hin. apply H in Hin. by rewrite Ascii.eqb_refl in Hin.
  - intros H c Hc. apply Ascii.eqb_neq. by intros ->.
Qed.

(** Splitting a path joined from separator-free segments gives them back. *)
Lemma split_on_join sep segs :
  segs <> [] -> Forall (fun s => sep ∉ s) segs -> split_on sep (join [sep] segs) = segs.
Proof.
  intros Hne Hf. induction Hf as [|s segs Hs Hf IH]; [done|].
  assert (Hs' : Forall (fun c => Ascii.eqb c sep = false) s) by by apply no_sep_iff.
  destruct segs as [|s' segs].
  - by rewrite (split_on_no_sep _ s).
  - change (join [sep] (s :: s' :: segs)) with (s ++ sep :: join [sep] (s' :: segs)).
    rewrite split_on_app_sep by done. by rewrite IH.
Qed.

(** A literal segment matches exactly itself. *)
Lemma seg_matches_lits w s : seg_matches (map SLit w) s <-> s = w.
Proof.
  revert s. induction w as [|c w IH]; intros s; simpl.
  - split; [by inversion 1|intros ->; constructor].
  - split; [inversion 1; subst; f_equal; by apply IH|intros ->; constructor; by apply IH].
Qed.


End Glob.
