(* ===== verification/Markup.v ===== *)
(** * Element trees: the static markup of the components

    Logo.tsx, Footer.tsx and layout.tsx return fixed JSX trees (SVG in
    the logo's case) with at most a computed text or a child slot.  They
    are modelled as values of [Node]: an element with its tag, its
    attributes in source order and its children, a text, or a component
    the tree does not expand ([{children}], [<AIChatBot />]).  The
    queries of the checks below walk [elems], the elements in document
    order: the [id]s, the [url(#id)] references of the SVG paint
    attributes, the classes of [className], and the links that open a
    new tab. *)

From S2P Require Import Prelude JsRuntime.

Module Markup.

Local Unset Elimination Schemes.

Inductive Node :=
| Elem (tag : jstr) (attrs : list (jstr * jstr)) (children : list Node)
| Text (s : jstr)
| Comp (name : jstr).

Local Set Elimination Schemes.

(** The induction principle the nested list calls for, through
    [Forall]. *)
Section node_ind.
Variable P : Node -> Prop.
Hypothesis P_elem : forall t a cs, Forall P cs -> P (Elem t a cs).
Hypothesis P_text : forall s, P (Text s).
Hypothesis P_comp : forall n, P (Comp n).

Fixpoint node_ind (n : Node) : P n :=
  match n with
  | Elem t a cs =>
      P_elem t a cs
        ((fix go (l : list Node) : Forall P l :=
            match l with
            | [] => List.Forall_nil P
            | x :: l' => @List.Forall_cons _ P x l' (node_ind x) (go l')
            end) cs)
  | Text s => P_text s
  | Comp nm => P_comp nm
  end.
End node_ind.

(** ** Queries *)

Definition lookup_attr (k : jstr) (a : list (jstr * jstr)) : option jstr :=
  snd <$> find (fun kv => bool_decide (kv.1 = k)) a.

(** The elements of a tree in document order. *)
Fixpoint elems (n : Node) : list (jstr * list (jstr * jstr)) :=
  match n with
  | Elem t a cs => (t, a) :: concat (map elems cs)
  | Text _ | Comp _ => []
  end.

(** The texts, in document order. *)
Fixpoint texts (n : Node) : list jstr :=
  match n with
  | Elem _ _ cs => concat (map texts cs)
  | Text s => [s]
  | Comp _ => []
  end.

Definition ids (n : Node) : list jstr := omap (fun e => lookup_attr (lit "id") e.2) (elems n).

(** [url(#x)] names the element [x] of the document. *)
Definition url_ref (v : jstr) : option jstr :=
  if starts_with (lit "url(#") v && bool_decide (last v = Some ")"%char) && bool_decide (6 <= length v)
  then Some (take (length v - 6) (drop 5 v)) else None.

Definition refs (n : Node) : list jstr := concat (map (fun e => omap (fun kv => url_ref kv.2) e.2) (elems n)).

(** [className] split at its blanks. *)
Definition class_list (a : list (jstr * jstr)) : list jstr :=
  match lookup_attr (lit "className") a with
  | Some c => filter (fun s => truthy s) (split_on " "%char c)
  | None => []
  end.

Definition classes (n : Node) : list jstr := concat (map (fun e => class_list e.2) (elems n)).

(** Every reference names an element of the tree, and no two elements
    share an [id]. *)
Definition refs_resolved (n : Node) : bool :=
  forallb (fun r => bool_decide (r ∈ ids n)) (refs n) && bool_decide (NoDup (ids n)).

(** A link that opens a new tab ([target="_blank"]) keeps the opener
    from the new page ([rel] has [noopener]). *)
Definition opener_safe (a : list (jstr * jstr)) : bool :=
  match lookup_attr (lit "target") a with
  | Some t => if bool_decide (t = lit "_blank") then
                bool_decide (lit "noopener" ∈ default [] (split_on " "%char <$> lookup_attr (lit "rel") a))
              else true
  | None => true
  end.

Definition links_safe (n : Node) : bool := forallb (fun e => opener_safe e.2) (elems n).

(** ** Lemmas *)

Lemma elems_Elem t a cs : elems (Elem t a cs) = (t, a) :: concat (map elems cs).
Proof. done. Qed.

Lemma links_safe_Elem t a cs :
  links_safe (Elem t a cs) = opener_safe a && forallb links_safe cs.
Proof.
  unfold links_safe. rewrite elems_Elem. simpl. f_equal.
  induction cs as [|c cs IH]; [done|]. simpl. by rewrite forallb_app, IH.
Qed.

End Markup.
