(* ===== verification/Chunker.v ===== *)
(** * Chunker: grouping transcript words into cards

    Models the chunking effect of src/src/app/components/TranscriptCards.tsx
    (lines 39-69): the [forEach] loop over the words with its three
    mutable locals ([newChunks], [currentChunk], [wordCount]) becomes the
    record [ChunkLoop] threaded through [chunk_body], one call per
    iteration with the iteration's [index].

    The abstract specification [chunking] says which groupings are
    correct: every group but the last closes at a word that ends in
    terminal punctuation once the group has [limit] words, and no group
    contains an earlier such point.  [split_chunks_refines] shows the
    code's output is a grouping of that kind and [chunking_functional]
    that there is only one, so that [split_chunks_spec] characterises the
    output completely. *)

From S2P Require Import Prelude JsRuntime.

Module Chunker.

(** [interface Word] (lines 7-14). *)
Record Word := mkWord {
  word : jstr;
  start : Q;
  end_ : Q;
  confidence : option Q;
  punctuated_word : option jstr;
  speaker : option Z
}.

(** [interface TranscriptChunk] (lines 23-28). *)
Record TranscriptChunk := mkChunk {
  words : list Word;
  text : jstr;
  startTime : Q;
  endTime : Q
}.

(** Line 30. *)
Definition WORDS_PER_CHUNK : nat := 100.

(** The character class [[.!?]]. *)
Definition terminal_punct (c : ascii) : bool :=
  Ascii.eqb c "."%char || Ascii.eqb c "!"%char || Ascii.eqb c "?"%char.

(** [word.word.match(/[.!?]$/)] used as a truth value (line 53). *)
Definition endsWithPunctuation (w : jstr) : bool :=
  match search (m_seq (m_class terminal_punct) m_end) w with
  | Some _ => true
  | None => false
  end.

(** The object literal pushed at lines 57-62.  [currentChunk] is never
    empty there (the word was pushed first, line 48); the [0] defaults
    stand for the [TypeError] JS would raise and are never reached
    ([chunk_body_nonempty]). *)
Definition mk_chunk (currentChunk : list Word) : TranscriptChunk :=
  {| words := currentChunk;
     text := join (lit " ") (map word currentChunk);
     startTime := match head currentChunk with Some w => start w | None => 0%Q end;
     endTime := match last currentChunk with Some w => end_ w | None => 0%Q end |}.

(** The locals of the effect (lines 43-45). *)
Record ChunkLoop := mkLoop {
  newChunks : list TranscriptChunk;
  currentChunk : list Word;
  wordCount : nat
}.

Definition loop_init : ChunkLoop := mkLoop [] [] 0.

(** One iteration of the [forEach] callback (lines 47-65), for a word
    list of length [len] and a size threshold [limit]. *)
Definition chunk_body (limit len : nat) (st : ChunkLoop) (index : nat) (w : Word) : ChunkLoop :=
  let currentChunk := st.(currentChunk) ++ [w] in
  let wordCount := S st.(wordCount) in
  let isLastWord := index =? len - 1 in
  let endsWithPunct := endsWithPunctuation (word w) in
  let reachedWordLimit := limit <=? wordCount in
  if isLastWord || (endsWithPunct && reachedWordLimit)
  then mkLoop (st.(newChunks) ++ [mk_chunk currentChunk]) [] 0
  else mkLoop st.(newChunks) currentChunk wordCount.

(** [words.forEach((word, index) => ...)] from position [index] on. *)
Fixpoint for_each (limit len : nat) (st : ChunkLoop) (index : nat) (ws : list Word) : ChunkLoop :=
  match ws with
  | [] => st
  | w :: ws' => for_each limit len (chunk_body limit len st index w) (S index) ws'
  end.

(** The value passed to [setChunks] (line 68). *)
Definition split_chunks_with (limit : nat) (ws : list Word) : list TranscriptChunk :=
  (for_each limit (length ws) loop_init 0 ws).(newChunks).

Definition split_chunks (ws : list Word) : list TranscriptChunk :=
  split_chunks_with WORDS_PER_CHUNK ws.

(** ** Specification *)

(** A group closes here: its last word ends a sentence and it has
    reached the threshold. *)
Definition is_cut (limit : nat) (g : list Word) : bool :=
  match last g with
  | Some w => endsWithPunctuation (word w) && (limit <=? length g)
  | None => false
  end.

(** No proper non-empty prefix of the group is a closing point. *)
Definition no_early_cut (limit : nat) (g : list Word) : bool :=
  forallb (fun n => negb (is_cut limit (take n g))) (seq 1 (length g - 1)).

(** No non-empty prefix at all, the group included, is one. *)
Definition all_uncut (limit : nat) (g : list Word) : bool :=
  forallb (fun n => negb (is_cut limit (take n g))) (seq 1 (length g)).

Inductive chunking (limit : nat) : list Word -> list (list Word) -> Prop :=
| chunking_nil : chunking limit [] []
| chunking_last g :
    g <> [] -> no_early_cut limit g = true -> chunking limit g [g]
| chunking_cut g rest gs :
    is_cut limit g = true -> no_early_cut limit g = true -> rest <> [] ->
    chunking limit rest gs -> chunking limit (g ++ rest) (g :: gs).

(** ** Scenarios of the specification *)

Definition mkW (t : string) (a b : Q) : Word := mkWord (lit t) a b None None None.

Definition two_words : list Word := [mkW "the" 0 (3#10); mkW "cat." (3#10) (8#10)].

(** Periods only at the 120th and the 150th of 150 words. *)
Definition words150 : list Word :=
  map (fun i => mkW (if (i =? 119) || (i =? 149) then "w." else "w")
                    (inject_Z (Z.of_nat i)) (inject_Z (Z.of_nat (S i)))) (seq 0 150).

(** * Lemmas *)

Lemma endsWithPunctuation_last w :
  endsWithPunctuation w = match last w with Some c => terminal_punct c | None => false end.
Proof.
  unfold endsWithPunctuation. set (M := m_seq (m_class terminal_punct) m_end).
  induction w as [|c w IH]; [done|].
  assert (Hf : first_match M (c :: w) =
               if terminal_punct c && bool_decide (w = []) then Some ([c], []) else None).
  { unfold M, first_match, m_seq, m_class. destruct (terminal_punct c), w; done. }
  change (search M (c :: w)) with
    (match first_match M (c :: w) with
     | Some (a, r) => Some ([], a, r)
     | None => (fun bar => (c :: bar.1.1, bar.1.2, bar.2)) <$> search M w
     end).
  rewrite Hf. destruct w as [|d w].
  - simpl. by destruct (terminal_punct c).
  - rewrite andb_false_r. change (last (c :: d :: w)) with (last (d :: w)).
    rewrite <- IH. by destruct (search M (d :: w)).
Qed.

Lemma is_cut_snoc limit g w :
  is_cut limit (g ++ [w]) = endsWithPunctuation (word w) && (limit <=? S (length g)).
Proof. unfold is_cut. rewrite last_app_single, length_app. simpl. by rewrite Nat.add_1_r. Qed.

Lemma no_early_cut_snoc limit g w : no_early_cut limit (g ++ [w]) = all_uncut limit g.
Proof.
  unfold no_early_cut, all_uncut. rewrite length_app. simpl.
  replace (length g + 1 - 1) with (length g) by lia.
  apply forallb_seq_ext. intros i Hi. by rewrite take_app_le by lia.
Qed.

Lemma all_uncut_snoc limit g w :
  all_uncut limit (g ++ [w]) = all_uncut limit g && negb (is_cut limit (g ++ [w])).
Proof.
  unfold all_uncut. rewrite length_app, Nat.add_1_r, seq_S, forallb_app. simpl.
  rewrite (take_ge (g ++ [w])) by (rewrite length_app; simpl; lia).
  rewrite andb_true_r. f_equal. apply forallb_seq_ext. intros i Hi. by rewrite take_app_le by lia.
Qed.

Lemma no_early_cut_prefix limit p q :
  no_early_cut limit (p ++ q) = true -> p <> [] -> q <> [] -> is_cut limit p = false.
Proof.
  unfold no_early_cut. intros H Hp Hq. apply forallb_forall with (x := length p) in H.
  - rewrite take_app_length in H. by apply negb_true_iff.
  - apply in_seq. destruct p, q; simpl in *; try congruence. rewrite length_app. simpl. lia.
Qed.

(** Two cut points of the same word list that are both first closes
    coincide. *)
Lemma cut_prefix_unique limit g r g' r' :
  g ++ r = g' ++ r' -> is_cut limit g = true -> no_early_cut limit g' = true ->
  length g <= length g' -> g = g' /\ r = r'.
Proof.
  intros Heq Hcut Hno Hle. destruct (app_eq_app_prefix _ _ _ _ Heq Hle) as (m & -> & ->).
  destruct m as [|x m]; [by rewrite app_nil_r|].
  assert (g <> []) by (intros ->; done).
  rewrite (no_early_cut_prefix limit g (x :: m)) in Hcut; done.
Qed.

(** The specification admits one grouping per word list. *)
Lemma chunking_functional limit ws gs1 gs2 :
  chunking limit ws gs1 -> chunking limit ws gs2 -> gs1 = gs2.
Proof.
  intros H1. revert gs2. induction H1 as [|g Hg Hno|g rest gs Hcut Hno Hrest _ IH]; intros gs2 H2.
  - inversion H2 as [|g Hg|g rest gs2' Hc _ Hr _ Heq]; subst; [done|done|].
    destruct g; simpl in *; [done|congruence].
  - inversion H2 as [|g' Hg' Hno'|g' rest' gs' Hc' Hno' Hr' _ Heq]; subst; [done|done|].
    destruct (cut_prefix_unique limit g' rest' (g' ++ rest') [] ltac:(by rewrite app_nil_r) Hc' Hno)
      as [_ ->]; [rewrite length_app; lia|done].
  - inversion H2 as [|g' Hg' Hno'|g' rest' gs' Hc' Hno' Hr' Hch' Heq]; subst.
    + destruct g; simpl in *; [done|congruence].
    + destruct (cut_prefix_unique limit g rest (g ++ rest) [] ltac:(by rewrite app_nil_r) Hcut Hno')
        as [_ ->]; [rewrite length_app; lia|done].
    + destruct (Nat.le_ge_cases (length g) (length g')) as [Hle|Hle].
      * destruct (cut_prefix_unique limit g rest g' rest' (eq_sym Heq) Hcut Hno' Hle) as [-> ->].
        by rewrite (IH gs').
      * destruct (cut_prefix_unique limit g' rest' g rest Heq Hc' Hno Hle) as [-> ->].
        by rewrite (IH gs').
Qed.

(** The loop invariant: what is left to do produces a correct grouping
    of the pending words followed by the unread ones. *)
Lemma for_each_chunking limit len ws : forall st index,
  wordCount st = length (currentChunk st) -> index + length ws = len ->
  all_uncut limit (currentChunk st) = true -> ws <> [] ->
  exists gs, (for_each limit len st index ws).(newChunks) = st.(newChunks) ++ map mk_chunk gs
          /\ chunking limit (currentChunk st ++ ws) gs.
Proof.
  induction ws as [|w ws IH]; intros [nc cur wc] index Hwc Hlen Hun Hne; simpl in *; [done|].
  unfold chunk_body; simpl. rewrite Hwc.
  assert (Hlast : (index =? len - 1) = bool_decide (ws = [])).
  { destruct ws; simpl in *; apply Nat.eqb_eq || apply Nat.eqb_neq; simpl in *; lia. }
  rewrite Hlast, <- is_cut_snoc.
  destruct (bool_decide (ws = [])) eqn:Hws; simpl.
  - apply bool_decide_eq_true in Hws as ->. exists [cur ++ [w]]. simpl. split; [done|].
    apply chunking_last; [by destruct cur|]. by rewrite no_early_cut_snoc.
  - apply bool_decide_eq_false in Hws. destruct (is_cut limit (cur ++ [w])) eqn:Hc.
    + destruct (IH (mkLoop (nc ++ [mk_chunk (cur ++ [w])]) [] 0) (S index)) as (gs & Hres & Hch);
        simpl; try done; try lia.
      simpl in Hres, Hch. exists ((cur ++ [w]) :: gs). rewrite Hres, <- app_assoc. split; [done|].
      replace (cur ++ w :: ws) with ((cur ++ [w]) ++ ws) by by rewrite <- app_assoc.
      apply chunking_cut; try done. by rewrite no_early_cut_snoc.
    + destruct (IH (mkLoop nc (cur ++ [w]) (S (length cur))) (S index)) as (gs & Hres & Hch);
        simpl; try done; try lia.
      * rewrite length_app. simpl. lia.
      * by rewrite all_uncut_snoc, Hun, Hc.
      * simpl in Hres, Hch. exists gs. split; [done|]. by rewrite <- app_assoc in Hch.
Qed.

Lemma words_mk_chunk g : words (mk_chunk g) = g.
Proof. done. Qed.

Lemma map_words_mk_chunk gs : map words (map mk_chunk gs) = gs.
Proof. rewrite map_map. apply map_id. Qed.

Lemma chunking_concat limit ws gs : chunking limit ws gs -> concat gs = ws.
Proof. induction 1; simpl; [done|by rewrite app_nil_r|congruence]. Qed.

Lemma chunking_nonempty limit ws gs : chunking limit ws gs -> Forall (fun g => g <> []) gs.
Proof. induction 1 as [| |g rest gs Hc]; constructor; auto; by intros ->. Qed.

Lemma chunking_cuts limit ws gs :
  chunking limit ws gs -> forall i g, gs !! i = Some g -> S i < length gs -> is_cut limit g = true.
Proof.
  induction 1 as [|g Hg Hno|g rest gs Hc Hno Hr Hch IH]; intros i g' Hi Hlen; simpl in *; try lia.
  destruct i as [|i]; simpl in Hi; [congruence|]. apply (IH i); [done|lia].
Qed.

Lemma chunking_nil_inv limit gs : chunking limit [] gs -> gs = [].
Proof. intros H. eapply chunking_functional; [exact H|constructor]. Qed.

#[export] Hint Resolve chunking_concat chunking_nonempty : rss.

(** * Properties *)

(** The code's output is a grouping the specification allows. *)
Lemma split_chunks_with_chunking limit ws :
  chunking limit ws (map words (split_chunks_with limit ws)).
Proof.
  destruct ws as [|w ws]; [constructor|].
  destruct (for_each_chunking limit (length (w :: ws)) (w :: ws) loop_init 0) as (gs & Hres & Hch);
    try done.
  unfold split_chunks_with. rewrite Hres. simpl. by rewrite map_words_mk_chunk.
Qed.

(** C1: the code refines the specification: for every threshold and
    word list, the chunks the effect computes are exactly the groups of
    the unique grouping that [chunking] allows. *)
Theorem split_chunks_spec limit ws gs :
  chunking limit ws gs <-> map words (split_chunks_with limit ws) = gs.
Proof.
  split.
  - intros H. eapply chunking_functional; [apply split_chunks_with_chunking|exact H].
  - intros <-. apply split_chunks_with_chunking.
Qed.

(** C2: no word is lost, duplicated or reordered: the chunks' words,
    concatenated, are the input. *)
Theorem split_chunks_concat ws : concat (map words (split_chunks ws)) = ws.
Proof. eapply chunking_concat, split_chunks_with_chunking. Qed.

(** C3: every chunk but the last ends with a word whose text ends in
    [.], [!] or [?], and has at least [WORDS_PER_CHUNK] words. *)
Theorem split_chunks_boundaries ws i c :
  split_chunks ws !! i = Some c -> S i < length (split_chunks ws) ->
  (exists w, last (words c) = Some w /\ endsWithPunctuation (word w) = true)
  /\ WORDS_PER_CHUNK <= length (words c).
Proof.
  intros Hi Hlen.
  assert (Hcut : is_cut WORDS_PER_CHUNK (words c) = true).
  { apply (chunking_cuts WORDS_PER_CHUNK ws (map words (split_chunks ws)) (split_chunks_with_chunking _ _) i).
    - by rewrite list_lookup_fmap, Hi.
    - by rewrite length_map. }
  unfold is_cut in Hcut. destruct (last (words c)) as [w|]; [|done]. nbool. eauto.
Qed.

Lemma chunking_count limit ws gs :
  chunking limit ws gs -> length gs * limit <= length ws + limit.
Proof.
  induction 1 as [|g Hg Hno|g rest gs Hc Hno Hr Hch IH]; simpl; [lia|lia|].
  unfold is_cut in Hc. destruct (last g); [nbool|done]. rewrite length_app. lia.
Qed.

(** C4: the number of cards is bounded by the word count: all cards but
    the last hold at least [WORDS_PER_CHUNK] words. *)
Theorem split_chunks_count ws :
  length (split_chunks ws) * WORDS_PER_CHUNK <= length ws + WORDS_PER_CHUNK.
Proof.
  rewrite <- (length_map words). apply chunking_count, split_chunks_with_chunking.
Qed.

(** The fallbacks of [mk_chunk] are never used: every chunk is
    non-empty, starts at its first word's [start], ends at its last
    word's [end] and its text is its words joined by single spaces. *)
Theorem split_chunks_fields ws c :
  In c (split_chunks ws) ->
  exists w0 wn, head (words c) = Some w0 /\ last (words c) = Some wn /\
    startTime c = start w0 /\ endTime c = end_ wn /\ text c = join (lit " ") (map word (words c)).
Proof.
  intros Hin. assert (Hne : ws <> []) by (intros ->; simpl in Hin; done).
  unfold split_chunks, split_chunks_with in Hin.
  destruct (for_each_chunking WORDS_PER_CHUNK (length ws) ws loop_init 0) as (gs & Hres & Hgs);
    try done.
  simpl in Hres, Hgs. rewrite Hres in Hin. apply in_map_iff in Hin as (g & <- & Hg).
  apply chunking_nonempty in Hgs. rewrite Forall_forall in Hgs. specialize (Hgs g (proj2 (list_elem_of_In gs g) Hg)).
  destruct g as [|w0 g]; [done|]. destruct (last (w0 :: g)) as [wn|] eqn:El;
    [|apply last_None in El; done].
  exists w0, wn. simpl. rewrite El. auto.
Qed.

(** ** Examples of the specification *)

Example split_chunks_two_words :
  split_chunks two_words = [mkChunk two_words (lit "the cat.") 0 (8#10)].
Proof. vm_compute. reflexivity. Qed.

Example split_chunks_words150 : map (fun c => length (words c)) (split_chunks words150) = [120; 30].
Proof. vm_compute. reflexivity. Qed.

Example split_chunks_empty : split_chunks [] = [].
Proof. reflexivity. Qed.

Lemma split_chunks_boundaries_witness :
  exists c, split_chunks words150 !! 0 = Some c /\ 1 < length (split_chunks words150) /\
    WORDS_PER_CHUNK <= length (words c).
Proof.
  destruct (split_chunks words150 !! 0) as [c|] eqn:E; [|vm_compute in E; discriminate].
  assert (Hl : 1 < length (split_chunks words150)) by (vm_compute; lia).
  exists c. split; [reflexivity|split; [exact Hl|]].
  exact (proj2 (split_chunks_boundaries words150 0 c E Hl)).
Defined.

Lemma split_chunks_fields_witness :
  exists c, In c (split_chunks two_words) /\ startTime c = 0%Q.
Proof.
  exists (mkChunk two_words (lit "the cat.") 0 (8#10)). split; [|reflexivity].
  destruct (split_chunks_fields two_words (mkChunk two_words (lit "the cat.") 0 (8#10)))
    as (w0 & _ & _ & _ & _ & _ & _); [vm_compute; left; reflexivity|].
  vm_compute. left. reflexivity.
Defined.

End Chunker.
