(* ===== verification/Cards.v ===== *)
(** * Cards: the state machine of TranscriptCards.tsx

    The component's [useState] hooks (lines 33-36) are the record
    [CardsState]; its props (lines 16-21) are [Props].  Each handler is a
    function from the state to the new state and the list of
    [onTimeUpdate] calls it makes, in order: [navigateChunk] (98-109),
    [handleDragEnd] (84-96), [handleGotoPage] (111-124),
    [handleWordClick] (126-130).  The two effects are [chunk_effect]
    (40-69, through Chunker.v) and [auto_advance] (72-82).

    React runs [auto_advance] after every render whose dependencies
    ([currentTime], [chunks], [isPlaying], [currentChunkIndex]) changed;
    since it is idempotent ([auto_advance_idem]), [cards_step] runs it
    after every event, which is the same as running it when the
    dependencies change.  A re-render with a new [words] prop is the
    event [WordsChanged]: the chunking effect runs again and replaces
    the chunks, but nothing resets [currentChunkIndex].  ContentPanel
    does this to mounted cards when a second transcription answer
    arrives while the first one's cards are shown.  [reachable] collects
    the states of one mounted component. *)

From S2P Require Import Prelude JsRuntime Chunker.

Module Cards.
Import Chunker.

(** [TranscriptCardsProps] (lines 16-21); [p_onTimeUpdate] says whether
    the optional callback was passed. *)
Record Props := mkProps {
  p_words : list Word;
  p_currentTime : Q;
  p_isPlaying : bool;
  p_onTimeUpdate : bool
}.

(** The state hooks (lines 33-36). *)
Record CardsState := mkCards {
  chunks : list TranscriptChunk;
  currentChunkIndex : nat;
  dragDirection : Z;
  gotoPage : jstr
}.

Definition cards_init : CardsState := mkCards [] 0 0 [].

Definition setChunks (cs : list TranscriptChunk) (st : CardsState) : CardsState :=
  mkCards cs st.(currentChunkIndex) st.(dragDirection) st.(gotoPage).
Definition setCurrentChunkIndex (i : nat) (st : CardsState) : CardsState :=
  mkCards st.(chunks) i st.(dragDirection) st.(gotoPage).
Definition setDragDirection (d : Z) (st : CardsState) : CardsState :=
  mkCards st.(chunks) st.(currentChunkIndex) d st.(gotoPage).
Definition setGotoPage (v : jstr) (st : CardsState) : CardsState :=
  mkCards st.(chunks) st.(currentChunkIndex) st.(dragDirection) v.

(** Lines 40-69: nothing happens for an empty word list. *)
Definition chunk_effect (words : list Word) (st : CardsState) : CardsState :=
  match words with
  | [] => st
  | _ :: _ => setChunks (split_chunks words) st
  end.

(** The predicate of the [findIndex] at line 76. *)
Definition chunk_contains (t : Q) (c : TranscriptChunk) : bool :=
  ⟨startTime c, endTime c⟩ ∋ t.

(** Lines 72-82. *)
Definition auto_advance (currentTime : Q) (isPlaying : bool) (st : CardsState) : CardsState :=
  if negb isPlaying then st else
  match st.(chunks) with
  | [] => st
  | _ :: _ =>
      match find_index (chunk_contains currentTime) st.(chunks) with
      | Some currentChunk =>
          if currentChunk =? st.(currentChunkIndex) then st
          else setCurrentChunkIndex currentChunk st
      | None => st
      end
  end.

(** Lines 98-109. *)
Definition navigateChunk (onTimeUpdate : bool) (direction : Z) (st : CardsState)
    : CardsState * list Q :=
  let newIndex := (Z.of_nat st.(currentChunkIndex) + direction)%Z in
  if (0 <=? newIndex)%Z && (newIndex <? Z.of_nat (length st.(chunks)))%Z then
    let st' := setDragDirection direction (setCurrentChunkIndex (Z.to_nat newIndex) st) in
    match st.(chunks) !! Z.to_nat newIndex with
    | Some c => (st', if onTimeUpdate then [startTime c] else [])
    | None => (st', [])
    end
  else (st, []).

(** Lines 84-96. *)
Definition handleDragEnd (onTimeUpdate : bool) (velocity offset : Q) (st : CardsState)
    : CardsState * list Q :=
  let threshold := 50%Q in
  if Qle_bool 100 (Qabs velocity) || Qle_bool threshold (Qabs offset) then
    if Qltb 0 velocity && (0 <? st.(currentChunkIndex)) then
      navigateChunk onTimeUpdate (-1) st
    else if Qltb velocity 0 &&
            (Z.of_nat st.(currentChunkIndex) <? Z.of_nat (length st.(chunks)) - 1)%Z then
      navigateChunk onTimeUpdate 1 st
    else (st, [])
  else (st, []).

(** Lines 111-124; [parseInt] giving [NaN] fails both comparisons. *)
Definition handleGotoPage (onTimeUpdate : bool) (st : CardsState) : CardsState * list Q :=
  match parse_int st.(gotoPage) with
  | Some pageNumber =>
      if (0 <? pageNumber)%Z && (pageNumber <=? Z.of_nat (length st.(chunks)))%Z then
        let newIndex := Z.to_nat (pageNumber - 1) in
        let st' := setGotoPage [] (setCurrentChunkIndex newIndex st) in
        match st.(chunks) !! newIndex with
        | Some c => (st', if onTimeUpdate then [startTime c] else [])
        | None => (st', [])
        end
      else (st, [])
  | None => (st, [])
  end.

(** Lines 126-130. *)
Definition handleWordClick (onTimeUpdate ctrlKey : bool) (w : Word) : list Q :=
  if ctrlKey && onTimeUpdate then [start w] else [].

(** ** Rendering (lines 132-257) *)

(** The highlight test of line 196. *)
Definition word_highlighted (currentTime : Q) (w : Word) : bool :=
  ⟨start w, end_ w⟩ ∋ currentTime.

Inductive View :=
| ViewNull
| ViewCard (page pageCount : nat) (cardWords : list Word) (highlighted : list bool)
    (prevDisabled nextDisabled : bool) (progress : Q) (dots : list bool).

(** The pagination dots (lines 240-253): one per chunk, lit at
    [currentChunkIndex]. *)
Definition pagination_dots (st : CardsState) : list bool :=
  imap (fun index _ => bool_decide (index = st.(currentChunkIndex))) st.(chunks).

(** [None] is the [TypeError] of [chunks[currentChunkIndex].words]
    (line 191) when the index is out of range. *)
Definition render (currentTime : Q) (st : CardsState) : option View :=
  match st.(chunks) with
  | [] => Some ViewNull
  | cs =>
      match cs !! st.(currentChunkIndex) with
      | Some c =>
          Some (ViewCard (S st.(currentChunkIndex)) (length cs) (words c)
                  (map (word_highlighted currentTime) (words c))
                  (st.(currentChunkIndex) =? 0)
                  (Z.of_nat st.(currentChunkIndex) =? Z.of_nat (length cs) - 1)%Z
                  (inject_Z (Z.of_nat (S st.(currentChunkIndex))) /
                   inject_Z (Z.of_nat (length cs)) * 100)
                  (pagination_dots st))
      | None => None
      end
  end.

(** ** Events of a mounted component *)

Inductive CardsEvent :=
| PropsChanged (currentTime : Q) (isPlaying : bool)
| ClickPrev
| ClickNext
| DragEnd (velocity offset : Q)
| GotoInput (value : jstr)
| GotoSubmit
| WordClick (ctrlKey : bool) (w : Word)
| WordsChanged (ws : list Word).

Definition settle (pr : Props) (st : CardsState) : CardsState :=
  auto_advance pr.(p_currentTime) pr.(p_isPlaying) st.

Definition after (pr : Props) (r : CardsState * list Q) : CardsState * list Q :=
  (settle pr r.1, r.2).

(** The disabled buttons (lines 148 and 161) ignore clicks. *)
Definition cards_step (pr : Props) (e : CardsEvent) (st : CardsState)
    : Props * (CardsState * list Q) :=
  match e with
  | PropsChanged t p =>
      let pr' := mkProps pr.(p_words) t p pr.(p_onTimeUpdate) in (pr', (settle pr' st, []))
  | ClickPrev =>
      (pr, if st.(currentChunkIndex) =? 0 then (st, [])
           else after pr (navigateChunk pr.(p_onTimeUpdate) (-1) st))
  | ClickNext =>
      (pr, if (Z.of_nat st.(currentChunkIndex) =? Z.of_nat (length st.(chunks)) - 1)%Z then (st, [])
           else after pr (navigateChunk pr.(p_onTimeUpdate) 1 st))
  | DragEnd v o => (pr, after pr (handleDragEnd pr.(p_onTimeUpdate) v o st))
  | GotoInput v => (pr, (setGotoPage v st, []))
  | GotoSubmit => (pr, after pr (handleGotoPage pr.(p_onTimeUpdate) st))
  | WordClick ctrl w => (pr, (st, handleWordClick pr.(p_onTimeUpdate) ctrl w))
  | WordsChanged ws =>
      let pr' := mkProps ws pr.(p_currentTime) pr.(p_isPlaying) pr.(p_onTimeUpdate) in
      (pr', (settle pr' (chunk_effect ws st), []))
  end.

(** Mounting runs both effects: the chunking, then auto-advance. *)
Definition cards_mount (pr : Props) : CardsState :=
  settle pr (chunk_effect pr.(p_words) cards_init).

Inductive reachable : Props -> CardsState -> Prop :=
| reach_mount pr : reachable pr (cards_mount pr)
| reach_step pr st e pr' st' out :
    reachable pr st -> cards_step pr e st = (pr', (st', out)) -> reachable pr' st'.

(** The index invariant: in range, or zero when there is no chunk. *)
Definition index_ok (st : CardsState) : Prop :=
  st.(currentChunkIndex) < length st.(chunks) \/ (st.(chunks) = [] /\ st.(currentChunkIndex) = 0).

(** A step keeps the chunks and the index invariant. *)
Definition step_ok (st st' : CardsState) : Prop :=
  chunks st' = chunks st /\ (index_ok st -> index_ok st').

(** ** Scenarios *)

(** 101 one-second words; the 100th ends a sentence, so the first chunk
    spans [[0, 100]] and the second starts at [100]. *)
Definition touching_words : list Word :=
  map (fun i => mkW (if i =? 99 then "w." else "w")
                    (inject_Z (Z.of_nat i)) (inject_Z (Z.of_nat (S i)))) (seq 0 101).

Definition pr5 : Props := mkProps touching_words 5 true true.

Definition st5 : CardsState := cards_mount pr5.

(** The same words while paused, the second card shown, and then a new
    transcript of three words: one chunk. *)
Definition pr_paused : Props := mkProps touching_words 5 false true.
Definition on_second_card : CardsState := (cards_step pr_paused ClickNext (cards_mount pr_paused)).2.1.
Definition short_words : list Word := take 3 touching_words.

(** * Lemmas *)

Lemma find_index_lt {A} (p : A -> bool) l i : find_index p l = Some i -> i < length l.
Proof. intros H. apply find_index_Some in H as [(x & Hx & _) _]. eapply lookup_lt_Some; eauto. Qed.

Lemma auto_advance_chunks t p st : chunks (auto_advance t p st) = chunks st.
Proof. unfold auto_advance. destruct p; simpl; [|done]. by repeat case_match. Qed.

Lemma auto_advance_index_ok t p st : index_ok st -> index_ok (auto_advance t p st).
Proof.
  unfold auto_advance. destruct p; simpl; [|done]. intros H. repeat case_match; try done.
  left. simpl. match goal with Ek : find_index _ _ = Some _ |- _ => apply find_index_lt in Ek end.
  congruence.
Qed.

Lemma auto_advance_idem t p st : auto_advance t p (auto_advance t p st) = auto_advance t p st.
Proof.
  unfold auto_advance. destruct p; simpl; [|done].
  destruct (chunks st) as [|c cs] eqn:E; [by rewrite E|].
  destruct (find_index _ _) as [k|] eqn:Ek; [|by rewrite E, Ek].
  destruct (k =? currentChunkIndex st) eqn:Hk; simpl; rewrite ?E, ?Ek, ?Hk; [done|].
  by rewrite Nat.eqb_refl.
Qed.

(** A call to [navigateChunk] either leaves the state alone or moves to
    an index inside the chunk list. *)
Lemma navigateChunk_cases o d st :
  navigateChunk o d st = (st, []) \/
  exists i c, st.(chunks) !! i = Some c /\
    navigateChunk o d st = (setDragDirection d (setCurrentChunkIndex i st), if o then [startTime c] else []).
Proof.
  unfold navigateChunk. destruct (_ && _)%bool eqn:E; [|by left]. nbool. right.
  destruct (chunks st !! _) as [c|] eqn:Hc.
  - eauto.
  - apply lookup_ge_None in Hc. lia.
Qed.

Lemma handleDragEnd_cases o v off st :
  handleDragEnd o v off st = (st, []) \/ handleDragEnd o v off st = navigateChunk o (-1) st \/
  handleDragEnd o v off st = navigateChunk o 1 st.
Proof. unfold handleDragEnd. case_ifs; tauto. Qed.

Lemma handleGotoPage_cases o st :
  handleGotoPage o st = (st, []) \/
  exists i c, st.(chunks) !! i = Some c /\
    handleGotoPage o st = (setGotoPage [] (setCurrentChunkIndex i st), if o then [startTime c] else []).
Proof.
  unfold handleGotoPage. destruct (parse_int _) as [p|]; [|by left].
  destruct (_ && _)%bool eqn:E; [|by left].
  nbool. right. destruct (chunks st !! _) as [c|] eqn:Hc.
  - eauto.
  - apply lookup_ge_None in Hc. lia.
Qed.

(** Moving to an index that exists keeps the invariant. *)
Lemma moved_index_ok st i c : st.(chunks) !! i = Some c -> index_ok (setCurrentChunkIndex i st).
Proof. intros H. left. simpl. eapply lookup_lt_Some; eauto. Qed.

Lemma step_ok_settle pr st st' : step_ok st st' -> step_ok st (settle pr st').
Proof.
  intros [Hc Hi]. unfold settle. split; [by rewrite auto_advance_chunks|].
  intros H. apply auto_advance_index_ok. auto.
Qed.

Lemma step_ok_navigate o d st : step_ok st (navigateChunk o d st).1.
Proof.
  destruct (navigateChunk_cases o d st) as [->|(i & c & Hc & ->)]; [done|].
  split; [done|]. intros _. left. simpl. eapply lookup_lt_Some; eauto.
Qed.

Lemma step_ok_goto o st : step_ok st (handleGotoPage o st).1.
Proof.
  destruct (handleGotoPage_cases o st) as [->|(i & c & Hc & ->)]; [done|].
  split; [done|]. intros _. left. simpl. eapply lookup_lt_Some; eauto.
Qed.

Lemma step_ok_drag o v off st : step_ok st (handleDragEnd o v off st).1.
Proof.
  destruct (handleDragEnd_cases o v off st) as [->|[->| ->]]; [done|apply step_ok_navigate..].
Qed.

#[export] Hint Resolve step_ok_settle step_ok_navigate step_ok_goto step_ok_drag : rss.

Lemma step_ok_refl st : step_ok st st.
Proof. split; auto. Qed.

Lemma step_ok_setGotoPage v st : step_ok st (setGotoPage v st).
Proof. split; [done|]. intros H. exact H. Qed.

#[export] Hint Resolve step_ok_refl step_ok_setGotoPage : rss.

Lemma cards_step_ok pr e st pr' st' out :
  (forall ws, e <> WordsChanged ws) ->
  cards_step pr e st = (pr', (st', out)) -> step_ok st st' /\ p_words pr' = p_words pr.
Proof.
  intros He H. destruct e; [..|by destruct (He ws)]; simpl in H; unfold after in H;
    repeat match type of H with context [if ?b then _ else _] => destruct b end;
    injection H as <- <- <-; split; auto with rss.
Qed.

Lemma cards_mount_inv pr :
  chunks (cards_mount pr) = split_chunks (p_words pr) /\ index_ok (cards_mount pr).
Proof.
  unfold cards_mount, settle. rewrite auto_advance_chunks. split.
  - by destruct (p_words pr).
  - apply auto_advance_index_ok. destruct (p_words pr) as [|w ws]; [right; done|].
    simpl. destruct (split_chunks (w :: ws)) eqn:E; [|left; simpl; lia].
    pose proof (chunking_concat _ _ _ (split_chunks_with_chunking WORDS_PER_CHUNK (w :: ws))) as Hc.
    unfold split_chunks in E. by rewrite E in Hc.
Qed.

(** The chunks of a non-empty word list are never empty. *)
Lemma split_chunks_nonempty ws : ws <> [] -> split_chunks ws <> [].
Proof.
  intros Hne E. pose proof (chunking_concat _ _ _ (split_chunks_with_chunking WORDS_PER_CHUNK ws)) as Hc.
  unfold split_chunks in E. rewrite E in Hc. by apply Hne.
Qed.

Lemma chunk_effect_chunks ws st : ws <> [] -> chunks (chunk_effect ws st) = split_chunks ws.
Proof. by destruct ws. Qed.

(** The chunks follow the words prop whenever it is non-empty. *)
Lemma reachable_chunks pr st :
  reachable pr st -> p_words pr <> [] -> chunks st = split_chunks (p_words pr).
Proof.
  induction 1 as [pr|pr st e pr' st' out _ IH Hstep]; intros Hne.
  - unfold cards_mount, settle. by rewrite auto_advance_chunks, chunk_effect_chunks.
  - destruct e as [| | | | | | | ws].
    8: { unfold cards_step in Hstep. injection Hstep as <- <- <-. simpl in Hne. unfold settle.
         rewrite auto_advance_chunks. by apply chunk_effect_chunks. }
    all: apply cards_step_ok in Hstep as [[Hc _] Hw]; [|intros ? ?; discriminate];
      rewrite Hw, Hc; apply IH; by rewrite <- Hw.
Qed.

Lemma navigateChunk_in_range d st :
  (0 <= Z.of_nat (currentChunkIndex st) + d < Z.of_nat (length (chunks st)))%Z ->
  exists c, chunks st !! Z.to_nat (Z.of_nat (currentChunkIndex st) + d) = Some c /\
    navigateChunk true d st =
      (setDragDirection d (setCurrentChunkIndex (Z.to_nat (Z.of_nat (currentChunkIndex st) + d)) st),
       [startTime c]).
Proof.
  intros Hr. unfold navigateChunk.
  replace ((0 <=? _)%Z && (_ <? _)%Z) with true by (symmetry; apply andb_true_iff; split; nbool_goal; lia).
  destruct (chunks st !! _) as [c|] eqn:Hc; [eauto|].
  apply lookup_ge_None in Hc. lia.
Qed.

Lemma navigateChunk_out_of_range o d st :
  ~ (0 <= Z.of_nat (currentChunkIndex st) + d < Z.of_nat (length (chunks st)))%Z ->
  navigateChunk o d st = (st, []).
Proof.
  intros Hr. unfold navigateChunk.
  destruct ((0 <=? _)%Z && (_ <? _)%Z) eqn:E; [|done]. nbool. lia.
Qed.


Lemma pagination_dots_length st : length (pagination_dots st) = length (chunks st).
Proof. apply length_imap. Qed.

(** With the index in range, the only lit dot is the current chunk's. *)
Lemma pagination_dots_lit st i :
  currentChunkIndex st < length (chunks st) ->
  pagination_dots st !! i = Some true <-> i = currentChunkIndex st.
Proof.
  intros Hlt. unfold pagination_dots. rewrite list_lookup_imap.
  destruct (chunks st !! i) eqn:E; simpl.
  - split; [intros [= H]; by apply bool_decide_eq_true in H|intros ->; by rewrite bool_decide_eq_true_2].
  - apply lookup_ge_None in E. split; [done|lia].
Qed.

(** When paused, or when no chunk contains the time, the effect
    leaves the state unchanged. *)
Lemma auto_advance_stays t p st :
  (p = false \/ forall c, In c (chunks st) -> chunk_contains t c = false) -> auto_advance t p st = st.
Proof.
  intros [->|Hnone]; [done|]. unfold auto_advance. destruct p; [|done]. simpl.
  destruct (chunks st) eqn:E; [done|].
  by rewrite (proj2 (find_index_None _ _) Hnone).
Qed.

(** Rendering throws exactly when there are chunks and the index is
    past the last one. *)
Lemma render_None_iff t st :
  render t st = None <-> chunks st <> [] /\ length (chunks st) <= currentChunkIndex st.
Proof.
  unfold render. destruct (chunks st) as [|c cs] eqn:Ec; [split; [done|by intros []]|].
  destruct ((c :: cs) !! _) as [c'|] eqn:E.
  - apply lookup_lt_Some in E. split; [done|intros [_ ?]; lia].
  - apply lookup_ge_None in E. split; [done|done].
Qed.

(** While paused, a re-render with a new time keeps the state, and
    one with new words only replaces the chunks. *)
Lemma props_change_paused pr st t :
  (cards_step pr (PropsChanged t false) st).2.1 = st /\ p_isPlaying (cards_step pr (PropsChanged t false) st).1 = false.
Proof. done. Qed.

Lemma words_change_paused pr st ws :
  p_isPlaying pr = false -> (cards_step pr (WordsChanged ws) st).2.1 = chunk_effect ws st.
Proof. intros Hp. simpl. unfold settle, auto_advance. simpl. by rewrite Hp. Qed.

Lemma chunk_effect_index ws st : currentChunkIndex (chunk_effect ws st) = currentChunkIndex st.
Proof. by destruct ws. Qed.

(** * Properties *)

(** C5: in every state of a mounted card view the chunks are those of
    the current [words] prop (when it is non-empty); mounting puts the
    index in range (or at 0 with no chunks), and every event other than
    a change of [words] keeps it there. *)
Theorem reachable_inv pr st :
  reachable pr st ->
  (p_words pr <> [] -> chunks st = split_chunks (p_words pr)) /\
  index_ok (cards_mount pr) /\
  (forall e pr' st' out, (forall ws, e <> WordsChanged ws) ->
     cards_step pr e st = (pr', (st', out)) -> index_ok st -> index_ok st').
Proof.
  intros Hr. split; [by apply reachable_chunks|]. split; [apply cards_mount_inv|].
  intros e pr' st' out He Hs. by apply (cards_step_ok pr e st pr' st' out He Hs).
Qed.

(** C6: rendering throws (the [TypeError] of [chunks[currentChunkIndex].words],
    line 191) exactly when there are chunks and the index is past the
    last one; a card it does show has a page number in [1..pageCount],
    one pagination dot per chunk and exactly one dot lit, the one of the
    shown page. *)
Theorem render_throws_iff t st :
  (render t st = None <-> chunks st <> [] /\ length (chunks st) <= currentChunkIndex st) /\
  (forall page n cw hl pd nd pg dots, render t st = Some (ViewCard page n cw hl pd nd pg dots) ->
     1 <= page <= n /\ length dots = n /\ (forall i, dots !! i = Some true <-> S i = page)).
Proof.
  split; [apply render_None_iff|]. intros ???????? Hv. unfold render in Hv.
  destruct (chunks st) as [|c cs] eqn:Ec; [done|].
  destruct ((c :: cs) !! _) as [c'|] eqn:E; [|done]. injection Hv as <- <- _ _ _ _ _ <-.
  apply lookup_lt_Some in E. simpl in *. split; [lia|]. split; [by rewrite pagination_dots_length, Ec|].
  intros i. rewrite pagination_dots_lit by (rewrite Ec; done). lia.
Qed.

(** C7: a new [words] prop whose chunks end before the current index
    (a shorter transcript replacing the one shown on a later card)
    makes the next render throw, unless auto-advance moves the index:
    when paused, or when no new chunk contains the playback time, the
    chunking effect replaces the chunks and leaves [currentChunkIndex]
    past their end. *)
Theorem words_change_throws pr st ws t :
  ws <> [] -> length (split_chunks ws) <= currentChunkIndex st ->
  (p_isPlaying pr = false \/ forall c, In c (split_chunks ws) -> chunk_contains (p_currentTime pr) c = false) ->
  render t (cards_step pr (WordsChanged ws) st).2.1 = None.
Proof.
  intros Hne Hlen Hstay. cbn [cards_step fst snd]. unfold settle. cbn [p_currentTime p_isPlaying].
  rewrite auto_advance_stays.
  - apply render_None_iff. rewrite chunk_effect_chunks by done. split; [by apply split_chunks_nonempty|].
    destruct ws; [done|]. exact Hlen.
  - rewrite chunk_effect_chunks by done. exact Hstay.
Qed.

Lemma auto_advance_found t st j :
  find_index (chunk_contains t) (chunks st) = Some j -> currentChunkIndex (auto_advance t true st) = j.
Proof.
  intros Hj. unfold auto_advance. simpl. destruct (chunks st) eqn:E; [done|].
  rewrite Hj. destruct (j =? currentChunkIndex st) eqn:Hk; nbool; simpl; congruence.
Qed.

(** C8: [navigateChunk] on both sides of its guard.  A navigation that
    stays inside the chunk list moves the index by [direction], records
    the direction and asks the player, once, to seek to the start of the
    new chunk; one that would leave it, [-1] on the first chunk or [+1]
    on the last, changes nothing and seeks nowhere. *)
Theorem navigateChunk_spec o d st :
  let i := (Z.of_nat (currentChunkIndex st) + d)%Z in
  ((0 <= i < Z.of_nat (length (chunks st)))%Z ->
     exists c, chunks st !! Z.to_nat i = Some c /\
       navigateChunk true d st = (setDragDirection d (setCurrentChunkIndex (Z.to_nat i) st), [startTime c])) /\
  (~ (0 <= i < Z.of_nat (length (chunks st)))%Z -> navigateChunk o d st = (st, [])).
Proof. intros i. split; [apply navigateChunk_in_range|apply navigateChunk_out_of_range]. Qed.

(** Submitting a page number in [1, chunks.length] shows that page
    (index [page - 1]), clears the input and seeks to the chunk's start. *)
Theorem handleGotoPage_jumps st p :
  parse_int (gotoPage st) = Some p -> (0 < p <= Z.of_nat (length (chunks st)))%Z ->
  exists c, chunks st !! Z.to_nat (p - 1) = Some c /\
    handleGotoPage true st = (setGotoPage [] (setCurrentChunkIndex (Z.to_nat (p - 1)) st), [startTime c]).
Proof.
  intros Hp Hr. unfold handleGotoPage. rewrite Hp.
  replace ((0 <? p)%Z && _) with true by (symmetry; apply andb_true_iff; split; nbool_goal; lia).
  destruct (chunks st !! _) as [c|] eqn:Hc; [eauto|].
  apply lookup_ge_None in Hc. lia.
Qed.

(** Any other input, [NaN] included, is ignored: no state change
    and no seek. *)
Theorem handleGotoPage_ignores o st :
  (forall p, parse_int (gotoPage st) = Some p -> p <= 0 \/ Z.of_nat (length (chunks st)) < p)%Z ->
  handleGotoPage o st = (st, []).
Proof.
  intros H. unfold handleGotoPage. destruct (parse_int _) as [p|] eqn:Hp; [|done].
  destruct ((0 <? p)%Z && _) eqn:E; [|done]. nbool. destruct (H p eq_refl); lia.
Qed.

(** C9: while playing, a new playback time selects the first chunk
    whose [[startTime, endTime]] contains it. *)
Theorem auto_advance_least t st k c :
  chunks st !! k = Some c -> chunk_contains t c = true ->
  (forall j c', j < k -> chunks st !! j = Some c' -> chunk_contains t c' = false) ->
  currentChunkIndex (auto_advance t true st) = k.
Proof.
  intros Hk Hc Hmin. apply auto_advance_found, find_index_Some. eauto.
Qed.


(** C10: while the audio plays, [navigateChunk(1)] is undone by the
    auto-advance effect, which re-runs because [currentChunkIndex]
    changed and still sees the old [currentTime]: the index returns to
    the chunk being played, only the seek request remains. *)
Theorem navigate_reverted_while_playing pr st c :
  p_isPlaying pr = true -> p_onTimeUpdate pr = true ->
  find_index (chunk_contains (p_currentTime pr)) (chunks st) = Some (currentChunkIndex st) ->
  chunks st !! S (currentChunkIndex st) = Some c ->
  cards_step pr ClickNext st = (pr, (setDragDirection 1 st, [startTime c])).
Proof.
  intros Hp Ho Hf Hc. pose proof (lookup_lt_Some _ _ _ Hc) as Hlt. simpl.
  replace (_ =? _)%Z with false by (symmetry; nbool_goal; lia).
  destruct (navigateChunk_in_range 1 st) as (c' & Hc' & Hnav); [lia|].
  rewrite Ho, Hnav. unfold after, settle, auto_advance. rewrite Hp. simpl.
  replace (Z.to_nat _) with (S (currentChunkIndex st)) in * by lia.
  rewrite Hc in Hc'. injection Hc' as <-.
  destruct (chunks st) as [|c0 cs] eqn:E; [done|]. rewrite Hf.
  replace (_ =? _) with false by (symmetry; apply Nat.eqb_neq; lia).
  destruct st; simpl in *; subst. done.
Qed.

(** When chunk [k]'s span reaches the start of chunk [k + 1] (the
    last word of one chunk ends where the next begins), the playback
    time that a seek to chunk [k + 1] produces selects chunk [k] or an
    earlier one: chunk [k + 1] is never shown at its own start. *)
Theorem seek_into_touching_chunk st k ck ck1 :
  chunks st !! k = Some ck -> chunks st !! S k = Some ck1 ->
  (startTime ck <= startTime ck1 <= endTime ck)%Q ->
  currentChunkIndex (auto_advance (startTime ck1) true st) <= k.
Proof.
  intros Hk Hk1 Hr.
  destruct (find_index_le (chunk_contains (startTime ck1)) (chunks st) k ck Hk) as (j & Hj & Hle).
  - unfold chunk_contains. by apply in_span_iff.
  - by rewrite (auto_advance_found _ _ _ Hj).
Qed.

(** The swipe direction is read from the velocity only: a drag
    released at rest is ignored whatever its offset, although the code
    accepts it as a swipe when [|offset| >= 50]. *)
Theorem handleDragEnd_zero_velocity o off st :
  handleDragEnd o 0 off st = (st, []).
Proof. unfold handleDragEnd. by case_ifs. Qed.

Lemma st5_shape : length (chunks st5) = 2 /\ currentChunkIndex st5 = 0.
Proof. vm_compute. split; reflexivity. Qed.

Lemma reachable_inv_witness :
  (p_words pr5 <> [] -> chunks st5 = split_chunks (p_words pr5)) /\
  index_ok (cards_mount pr5) /\
  (forall e pr' st' out, (forall ws, e <> WordsChanged ws) ->
     cards_step pr5 e st5 = (pr', (st', out)) -> index_ok st5 -> index_ok st').
Proof. apply (reachable_inv pr5 st5). apply reach_mount. Defined.

Lemma words_change_throws_witness :
  render 5 (cards_step pr_paused (WordsChanged short_words) on_second_card).2.1 = None.
Proof.
  apply words_change_throws.
  - vm_compute. discriminate.
  - vm_compute. lia.
  - by left.
Defined.

(** The paused view on its second card is reachable, and the new
    transcript takes it down. *)
Example second_transcript_crashes :
  reachable pr_paused on_second_card /\ currentChunkIndex on_second_card = 1 /\
  render 5 (cards_step pr_paused (WordsChanged short_words) on_second_card).2.1 = None.
Proof.
  split; [|vm_compute; split; reflexivity].
  apply (reach_step pr_paused (cards_mount pr_paused) ClickNext pr_paused on_second_card
           (cards_step pr_paused ClickNext (cards_mount pr_paused)).2.2); [apply reach_mount|].
  vm_compute. reflexivity.
Qed.

Lemma navigateChunk_spec_witness :
  (exists c, navigateChunk true 1 st5 = (setDragDirection 1 (setCurrentChunkIndex 1 st5), [startTime c])) /\
  navigateChunk true (-1) st5 = (st5, []).
Proof.
  destruct st5_shape as [Hl Hi]. split.
  - destruct (proj1 (navigateChunk_spec true 1 st5)) as (c & _ & Hnav); [rewrite Hl, Hi; lia|].
    exists c. rewrite Hnav, Hi. reflexivity.
  - apply (proj2 (navigateChunk_spec true (-1) st5)). rewrite Hl, Hi. lia.
Defined.

Lemma handleGotoPage_jumps_witness :
  exists c, handleGotoPage true (setGotoPage (lit "2") st5) =
    (setGotoPage [] (setCurrentChunkIndex 1 (setGotoPage (lit "2") st5)), [startTime c]).
Proof.
  destruct st5_shape as [Hl Hi].
  destruct (handleGotoPage_jumps (setGotoPage (lit "2") st5) 2) as (c & _ & H);
    [vm_compute; reflexivity|change (chunks (setGotoPage (lit "2") st5)) with (chunks st5); rewrite Hl; lia|].
  exists c. exact H.
Defined.

Lemma handleGotoPage_ignores_witness :
  handleGotoPage true (setGotoPage (lit "7") st5) = (setGotoPage (lit "7") st5, []).
Proof.
  destruct st5_shape as [Hl Hi].
  apply handleGotoPage_ignores. change (chunks (setGotoPage (lit "7") st5)) with (chunks st5).
  rewrite Hl. intros p Hp. vm_compute in Hp.
  injection Hp as <-. lia.
Defined.

Lemma auto_advance_least_witness : currentChunkIndex (auto_advance (201 # 2) true st5) = 1.
Proof.
  destruct (chunks st5 !! 1) as [c|] eqn:H1; [|vm_compute in H1; discriminate].
  apply (auto_advance_least (201 # 2) st5 1 c H1).
  - vm_compute in H1. injection H1 as <-. vm_compute. reflexivity.
  - intros [|j] c' Hj Hc'; [|lia]. vm_compute in Hc'. injection Hc' as <-. vm_compute. reflexivity.
Defined.

Lemma auto_advance_stays_witness : auto_advance (201 # 2) false st5 = st5.
Proof. apply auto_advance_stays. by left. Defined.

Lemma navigate_reverted_while_playing_witness :
  exists c, cards_step pr5 ClickNext st5 = (pr5, (setDragDirection 1 st5, [startTime c])).
Proof.
  destruct (chunks st5 !! 1) as [c|] eqn:Hc; [|vm_compute in Hc; discriminate].
  exists c. apply navigate_reverted_while_playing; [reflexivity|reflexivity| |].
  - vm_compute. reflexivity.
  - destruct st5_shape as [_ ->]. exact Hc.
Defined.

Lemma seek_into_touching_chunk_witness :
  exists ck1, chunks st5 !! 1 = Some ck1 /\ currentChunkIndex (auto_advance (startTime ck1) true st5) <= 0.
Proof.
  destruct (chunks st5 !! 0) as [ck|] eqn:H0; [|vm_compute in H0; discriminate].
  destruct (chunks st5 !! 1) as [ck1|] eqn:H1; [|vm_compute in H1; discriminate].
  exists ck1. split; [reflexivity|]. apply (seek_into_touching_chunk st5 0 ck ck1 H0 H1).
  vm_compute in H0, H1. injection H0 as <-. injection H1 as <-.
  split; apply Qle_bool_iff; vm_compute; reflexivity.
Defined.

End Cards.
