(* ===== verification/ChatRoute.v ===== *)
(** * ChatRoute: the question-answering API route

    Models src/src/app/api/chat/route.ts.  [POST] (lines 25-162) is a
    function of the configured API key, the parsed request body and the
    Gemini client, a Section variable [generateContent] that returns the
    response text or [None] when the call rejects.  The client receives
    the request kind chosen by [type === 'summary'], the transcript and
    the message; the fixed prompt texts around them (lines 52-91) are
    not spelled out.

    The response parsing is modelled exactly: the timestamp regular
    expression of lines 108 and 112 is written with the matchers of
    JsRuntime.v in the engine's order of alternatives, [parseTimestamp]
    (lines 164-178) splits on [:] and applies [Number], and
    [bulletPoints] is the [split] / [filter] / [map] / [filter] chain of
    lines 105-123.  The theorems show what a bullet point is: the text
    after a [[MM:SS]] or [[HH:MM:SS]] prefix of one response line, with
    a timestamp below 100 hours. *)

From S2P Require Import Prelude JsRuntime.

Module ChatRoute.

(** [interface ChatRequest] (lines 14-18) as [await req.json()] gives
    it; an absent field is [None]. *)
Record ChatRequest := mkRequest {
  message : option jstr;
  type_ : option jstr;
  transcript : option jstr
}.

(** [interface BulletPoint] (lines 20-23). *)
Record BulletPoint := mkBullet {
  text : jstr;
  timestamp : nat
}.

Definition colon : ascii := ":"%char.

Definition is_digit05 (c : ascii) : bool :=
  (48 <=? nat_of_ascii c) && (nat_of_ascii c <=? 53).

(** [\d], [[0-5]] and [\d{1,2}] (greedy: two digits first). *)
Definition m_d : matcher := m_class is_digit.
Definition m_d05 : matcher := m_class is_digit05.
Definition m_d12 : matcher := m_alt (m_seq m_d m_d) m_d.

(** Group 1 of [/^\[((\d{1,2}:)?[0-5]?\d:[0-5]\d)\]/]. *)
Definition ts_group : matcher :=
  m_seq (m_opt (m_seq m_d12 (m_char colon)))
        (m_seq (m_opt m_d05) (m_seq m_d (m_seq (m_char colon) (m_seq m_d05 m_d)))).

(** [line.match(/^\[((\d{1,2}:)?[0-5]?\d:[0-5]\d)\]/)] (lines 108 and
    112): the pattern is anchored at the start; the result is group 1 of
    the first way the engine finds to match, or [None] for [null]. *)
Definition timestampMatch (line : jstr) : option jstr :=
  match line with
  | c :: r =>
      if Ascii.eqb c "["%char then
        fst <$> head (flat_map (fun ar => match ar.2 with
                                          | d :: r' => if Ascii.eqb d "]"%char then [(ar.1, r')] else []
                                          | [] => []
                                          end) (ts_group r))
      else None
  | [] => None
  end.

(** [parseTimestamp] (lines 164-178); [None] is [NaN], which the
    arithmetic propagates. *)
Definition parseTimestamp (ts : jstr) : option nat :=
  match map js_Number (split_on colon ts) with
  | [h; m; s] => h ≫= fun h => m ≫= fun m => s ≫= fun s => Some (h * 3600 + m * 60 + s)
  | [m; s] => m ≫= fun m => s ≫= fun s => Some (m * 60 + s)
  | _ => Some 0
  end.

(** The class of [.]: any character but a line terminator. *)
Definition not_line_terminator (c : ascii) : bool :=
  negb ((nat_of_ascii c =? 10) || (nat_of_ascii c =? 13)).

(** [/^\[.*?\]/] (line 116). *)
Definition bracket_prefix : matcher :=
  m_seq (m_char "["%char) (m_seq (m_star_lazy not_line_terminator) (m_char "]"%char)).

(** The first [filter] (lines 106-110). *)
Definition keep_line (line : jstr) : bool :=
  truthy (trim line) && matched (timestampMatch line).

(** The [map] callback (lines 111-120); [None] is [null]. *)
Definition to_point (line : jstr) : option (jstr * option nat) :=
  match timestampMatch line with
  | Some g => Some (trim (replace_start bracket_prefix [] line), parseTimestamp g)
  | None => None
  end.

(** The second [filter] (lines 121-123). *)
Definition point_ok (p : option (jstr * option nat)) : option BulletPoint :=
  match p with
  | Some (t, Some ts) => if truthy t then Some (mkBullet t ts) else None
  | _ => None
  end.

(** Lines 105-123. *)
Definition bulletPoints (responseContent : jstr) : list BulletPoint :=
  omap point_ok (map to_point (List.filter keep_line (split_on nl responseContent))).

(** Lines 128-131. *)
Definition formattedResponse (responseContent : jstr) : jstr :=
  join [nl; nl] (List.filter (fun line => truthy (trim line)) (split_on nl responseContent)).

(** ** The handler *)

Inductive ChatKind := Summary | Qa.

(** [type === 'summary'] chooses the summary prompt (line 53). *)
Definition chat_kind (type_ : option jstr) : ChatKind :=
  if bool_decide (type_ = Some (lit "summary")) then Summary else Qa.

Inductive Body :=
| ErrorBody (error : jstr)
| OkBody (message : jstr) (type_ : option jstr) (bulletPoints : list BulletPoint).

Record Response := mkResponse { status : nat; body : Body }.

Definition err_key : jstr :=
  lit "Google Gemini API key is not configured. Please add it to your environment variables.".
Definition err_message : jstr := lit "Message is required".
Definition err_transcript : jstr := lit "Transcript is required".
Definition err_gemini : jstr := lit "Failed to process request with Gemini API. Please try again.".
Definition err_request : jstr := lit "Failed to process request. Please check your input and try again.".

Section Post.

(** [model.generateContent(prompt)] followed by [response.text()]. *)
Variable generateContent : ChatKind -> jstr -> jstr -> option jstr.

(** Lines 25-162; [req = None] is a body that [req.json()] rejects. *)
Definition POST (apiKey : option jstr) (req : option ChatRequest) : Response :=
  if negb (truthy_opt apiKey) then mkResponse 500 (ErrorBody err_key) else
  match req with
  | None => mkResponse 500 (ErrorBody err_request)
  | Some r =>
      match r.(message), r.(transcript) with
      | Some msg, Some tr =>
          if negb (truthy msg) then mkResponse 400 (ErrorBody err_message)
          else if negb (truthy tr) then mkResponse 400 (ErrorBody err_transcript)
          else match generateContent (chat_kind r.(type_)) tr msg with
               | Some responseContent =>
                   if truthy responseContent
                   then mkResponse 200 (OkBody (formattedResponse responseContent) r.(type_)
                                                (bulletPoints responseContent))
                   else mkResponse 500 (ErrorBody err_gemini)
               | None => mkResponse 500 (ErrorBody err_gemini)
               end
      | None, _ => mkResponse 400 (ErrorBody err_message)
      | Some msg, None =>
          if negb (truthy msg) then mkResponse 400 (ErrorBody err_message)
          else mkResponse 400 (ErrorBody err_transcript)
      end
  end.

End Post.

(** ** The fields a timestamp is made of *)

Definition hours_ok (h : jstr) : bool :=
  match h with [d] => is_digit d | [d1; d2] => is_digit d1 && is_digit d2 | _ => false end.
Definition minutes_ok (m : jstr) : bool :=
  match m with [d] => is_digit d | [d1; d2] => is_digit05 d1 && is_digit d2 | _ => false end.
Definition seconds_ok (s : jstr) : bool :=
  match s with [d1; d2] => is_digit05 d1 && is_digit d2 | _ => false end.

(** [MM:SS] or [HH:MM:SS], split at the colons. *)
Definition ts_fields (g : jstr) : bool :=
  match split_on colon g with
  | [m; s] => minutes_ok m && seconds_ok s
  | [h; m; s] => hours_ok h && minutes_ok m && seconds_ok s
  | _ => false
  end.

(** ** A sample answer of the model *)

(** An answer with a preamble, two well-formed points, a blank line and a
    point whose timestamp the pattern rejects. *)
Definition sample_response : jstr :=
  lit "Here are the key points:" ++ nl :: lit "[02:15] Host discusses AI" ++ nl :: nl ::
  lit "[1:05:30]   A quote  " ++ nl :: lit "[99:99] out of range".

(** * Lemmas *)

Lemma digit05_digit c : is_digit05 c = true -> is_digit c = true.
Proof. unfold is_digit05, is_digit. intros H. nbool. apply andb_true_iff. split; apply Nat.leb_le; lia. Qed.

Lemma digit_not_colon c : is_digit c = true -> Ascii.eqb c colon = false.
Proof. intros H. by apply digit_not_eq. Qed.

Lemma ts_group_sound_msound : msound ts_group.
Proof. unfold ts_group, m_d12, m_d, m_d05, m_char. auto 20 with rss. Qed.

(** Evaluate [ts_fields] on a list of digit and colon variables. *)
Ltac ts_eval :=
  repeat match goal with
  | H : Ascii.eqb _ _ = true |- _ => apply Ascii.eqb_eq in H; subst
  | H : is_digit05 ?c = true |- _ =>
      lazymatch goal with
      | _ : is_digit c = true |- _ => fail
      | _ => pose proof (digit05_digit c H)
      end
  end;
  unfold ts_fields;
  repeat (cbn [app split_on];
          repeat match goal with
          | H : is_digit ?c = true |- context [Ascii.eqb ?c colon] => rewrite (digit_not_colon c H)
          | |- context [Ascii.eqb colon colon] => rewrite Ascii.eqb_refl
          end);
  cbn [hours_ok minutes_ok seconds_ok];
  repeat match goal with H : ?b = true |- context [?b] => rewrite H end;
  reflexivity.

Lemma ts_group_sound s a r :
  In (a, r) (ts_group s) -> s = a ++ r /\ ts_fields a = true.
Proof.
  intros H. split; [by apply ts_group_sound_msound|].
  unfold ts_group, m_opt, m_d12, m_d, m_d05, m_char in H. minv; subst; ts_eval.
Qed.

Lemma digit05_val c : is_digit05 c = true -> digit_val c < 6.
Proof. unfold is_digit05, digit_val. intros H. nbool. lia. Qed.

(** Each field is a digit string of bounded value. *)
Lemma hours_ok_value h : hours_ok h = true -> forallb is_digit h = true /\ digits_value h < 100.
Proof.
  destruct h as [|d1 [|d2 [|]]]; cbn [hours_ok]; try done; intros H; nbool;
    unfold digits_value; cbn [forallb digits_value_acc];
    repeat match goal with H : is_digit ?c = true |- _ => pose proof (digit_val_lt c H); rewrite H; clear H end;
    split; try done; lia.
Qed.

Lemma minutes_ok_value m : minutes_ok m = true -> forallb is_digit m = true /\ digits_value m < 60.
Proof.
  destruct m as [|d1 [|d2 [|]]]; cbn [minutes_ok]; try done; intros H; nbool;
    unfold digits_value; cbn [forallb digits_value_acc];
    repeat match goal with
    | H : is_digit05 ?c = true |- _ => pose proof (digit05_val c H); apply digit05_digit in H
    | H : is_digit ?c = true |- _ => pose proof (digit_val_lt c H); rewrite H; clear H
    end; split; try done; lia.
Qed.

Lemma seconds_ok_value s : seconds_ok s = true -> forallb is_digit s = true /\ digits_value s < 60.
Proof.
  destruct s as [|d1 [|d2 [|]]]; cbn [seconds_ok]; try done; intros H; nbool.
  pose proof (digit05_val d1 H). apply digit05_digit in H. pose proof (digit_val_lt d2 H0).
  unfold digits_value; cbn [forallb digits_value_acc]. rewrite H, H0. split; [done|lia].
Qed.

(** The value of a well-formed timestamp, and its bound 99:59:59. *)
Lemma ts_fields_value g :
  ts_fields g = true -> exists n, parseTimestamp g = Some n /\ n <= 99 * 3600 + 59 * 60 + 59.
Proof.
  unfold ts_fields, parseTimestamp.
  destruct (split_on colon g) as [|f1 [|f2 [|f3 [|f4 l]]]]; try done; intros H; nbool.
  - apply minutes_ok_value in H as [Hm Vm]. apply seconds_ok_value in H0 as [Hs Vs].
    cbn [map]. rewrite !js_Number_digits by done. eexists. split; [reflexivity|lia].
  - apply hours_ok_value in H as [Hh Vh]. apply minutes_ok_value in H1 as [Hm Vm].
    apply seconds_ok_value in H0 as [Hs Vs].
    cbn [map]. rewrite !js_Number_digits by done. eexists. split; [reflexivity|lia].
Qed.

Lemma fields_chars f :
  forallb is_digit f = true -> Forall (fun c => c = colon \/ is_digit c = true) f.
Proof.
  intros H. apply Forall_forall. intros c Hc. right.
  apply forallb_forall with (x := c) in H; [done|]. by apply list_elem_of_In.
Qed.

Lemma ts_fields_chars g : ts_fields g = true -> Forall (fun c => c = colon \/ is_digit c = true) g.
Proof.
  intros H. rewrite <- (join_split_on colon g). unfold ts_fields in H.
  destruct (split_on colon g) as [|f1 [|f2 [|f3 [|f4 l]]]]; try done; nbool; simpl.
  - apply minutes_ok_value in H as [Hm _]. apply seconds_ok_value in H0 as [Hs _].
    apply Forall_app; split; [by apply fields_chars|]. constructor; [by left|]. by apply fields_chars.
  - apply hours_ok_value in H as [Hh _]. apply minutes_ok_value in H1 as [Hm _].
    apply seconds_ok_value in H0 as [Hs _].
    apply Forall_app; split; [by apply fields_chars|]. constructor; [by left|].
    apply Forall_app; split; [by apply fields_chars|]. constructor; [by left|]. by apply fields_chars.
Qed.

(** The group never runs past the closing bracket nor a line end. *)
Lemma ts_fields_lazy_ok g :
  ts_fields g = true ->
  Forall (fun c => not_line_terminator c = true /\ Ascii.eqb c "]"%char = false) g.
Proof.
  intros H. eapply Forall_impl; [by apply ts_fields_chars|].
  intros c [->|Hd]; [done|]. unfold is_digit in Hd. nbool. unfold not_line_terminator. split.
  - apply negb_true_iff, orb_false_iff. split; apply Nat.eqb_neq; lia.
  - destruct (Ascii.eqb_spec c "]"%char) as [->|]; [|done].
    change (nat_of_ascii "]"%char) with 93 in *. lia.
Qed.

(** A matched line starts with the group in brackets. *)
Lemma timestampMatch_sound line g :
  timestampMatch line = Some g -> exists rest, line = "["%char :: g ++ "]"%char :: rest /\ ts_fields g = true.
Proof.
  destruct line as [|c r]; [done|]. simpl. destruct (Ascii.eqb_spec c "["%char) as [->|]; [|done].
  intros H. apply head_fmap_Some in H as ([a r'] & Hin & <-). apply in_flat_map in Hin as ([a' ar] & Hg & Hx).
  destruct ar as [|d r'']; [done|]. simpl in Hx. destruct (Ascii.eqb_spec d "]"%char) as [->|]; [|done].
  destruct Hx as [[= <- <-]|[]]. apply ts_group_sound in Hg as [-> Hf]. eauto.
Qed.

(** Removing [/^\[.*?\]/] from such a line leaves what follows the
    bracket. *)
Lemma replace_bracket_prefix g rest :
  ts_fields g = true -> replace_start bracket_prefix [] ("["%char :: g ++ "]"%char :: rest) = rest.
Proof.
  intros H. unfold replace_start, bracket_prefix. rewrite first_match_seq_char.
  rewrite lazy_until_head by (by apply ts_fields_lazy_ok). done.
Qed.

(** Where a bullet point comes from. *)
Lemma bulletPoints_origin rc b :
  In b (bulletPoints rc) ->
  exists line g rest, In line (split_on nl rc) /\ line = "["%char :: g ++ "]"%char :: rest /\
    ts_fields g = true /\ parseTimestamp g = Some (timestamp b) /\ text b = trim rest /\ truthy (text b) = true.
Proof.
  unfold bulletPoints. rewrite <- list_elem_of_In, list_elem_of_omap.
  intros (p & Hp & Hok). apply list_elem_of_In, in_map_iff in Hp as (line & <- & Hline).
  apply filter_In in Hline as [Hline _]. unfold to_point in Hok.
  destruct (timestampMatch line) as [g|] eqn:Hm; [|done].
  destruct (parseTimestamp g) as [n|] eqn:Hn; simpl in Hok; [|done].
  destruct (truthy _) eqn:Ht; [|done]. injection Hok as <-.
  apply timestampMatch_sound in Hm as (rest & -> & Hf). exists ("["%char :: g ++ "]"%char :: rest), g, rest.
  simpl. rewrite replace_bracket_prefix in * by done. auto 10.
Qed.

Lemma ts_fields_no_bracket g : ts_fields g = true -> ~ In "]"%char g.
Proof.
  intros H Hin. apply ts_fields_lazy_ok in H. apply Forall_forall with (x := "]"%char) in H.
  - rewrite Ascii.eqb_refl in H. by destruct H.
  - by apply list_elem_of_In.
Qed.

(** Build the match of [ts_group] on a timestamp given by its digits. *)
Ltac ts_build :=
  cbn [join app]; unfold ts_group, m_opt, m_d12, m_d, m_d05, m_char;
  mbuild_with ltac:(apply digit05_digit; assumption).

Lemma hours_ok_shape h :
  hours_ok h = true -> (exists d, h = [d] /\ is_digit d = true) \/
                      (exists d1 d2, h = [d1; d2] /\ is_digit d1 = true /\ is_digit d2 = true).
Proof. destruct h as [|d1 [|d2 [|]]]; simpl; try done; intros H; nbool; eauto 6. Qed.

Lemma minutes_ok_shape m :
  minutes_ok m = true -> (exists d, m = [d] /\ is_digit d = true) \/
                        (exists d1 d2, m = [d1; d2] /\ is_digit05 d1 = true /\ is_digit d2 = true).
Proof. destruct m as [|d1 [|d2 [|]]]; simpl; try done; intros H; nbool; eauto 6. Qed.

Lemma seconds_ok_shape s :
  seconds_ok s = true -> exists d1 d2, s = [d1; d2] /\ is_digit05 d1 = true /\ is_digit d2 = true.
Proof. destruct s as [|d1 [|d2 [|]]]; simpl; try done; intros H; nbool; eauto. Qed.

(** Every well-formed timestamp is one of the ways the group matches. *)
Lemma ts_group_complete g r : ts_fields g = true -> In (g, r) (ts_group (g ++ r)).
Proof.
  intros H. rewrite <- (join_split_on colon g). unfold ts_fields in H.
  destruct (split_on colon g) as [|f1 [|f2 [|f3 [|f4 l]]]]; try done; nbool.
  - apply minutes_ok_shape in H as [(m & -> & Hm)|(m1 & m2 & -> & Hm1 & Hm2)];
      apply seconds_ok_shape in H0 as (s1 & s2 & -> & Hs1 & Hs2); ts_build.
  - apply hours_ok_shape in H as [(h & -> & Hh)|(h1 & h2 & -> & Hh1 & Hh2)];
      apply minutes_ok_shape in H1 as [(m & -> & Hm)|(m1 & m2 & -> & Hm1 & Hm2)];
      apply seconds_ok_shape in H0 as (s1 & s2 & -> & Hs1 & Hs2); ts_build.
Qed.

(** The timestamp match of a line [[g]rest] is [g]. *)
Lemma timestampMatch_complete g rest :
  ts_fields g = true -> timestampMatch ("["%char :: g ++ "]"%char :: rest) = Some g.
Proof.
  intros Hf. unfold timestampMatch. rewrite Ascii.eqb_refl.
  set (F := fun ar : jstr * jstr => match ar.2 with
                                   | d :: r' => if Ascii.eqb d "]"%char then [(ar.1, r')] else []
                                   | [] => [] end).
  assert (Hin : In (g, rest) (flat_map F (ts_group (g ++ "]"%char :: rest)))).
  { apply in_flat_map. exists (g, "]"%char :: rest). split; [by apply ts_group_complete|].
    unfold F. simpl. by left. }
  assert (Hall : forall y, In y (flat_map F (ts_group (g ++ "]"%char :: rest))) -> y.1 = g).
  { intros y Hy. apply in_flat_map in Hy as ([a [|d r']] & Hg & Hy); [done|].
    unfold F in Hy. simpl in Hy. destruct (Ascii.eqb_spec d "]"%char) as [->|]; [|done].
    destruct Hy as [<-|[]]. apply ts_group_sound in Hg as [Heq Ha]. simpl.
    symmetry. apply (app_cons_unique "]"%char g rest a r' Heq); by apply ts_fields_no_bracket. }
  destruct (flat_map F _) as [|y l] eqn:E; [done|]. simpl. f_equal. apply Hall. by left.
Qed.

(** * Properties *)

(** Every bullet point's timestamp is at most 99:59:59, the
    largest value the timestamp pattern admits. *)
Theorem bulletPoints_timestamp_bound rc b :
  In b (bulletPoints rc) -> timestamp b <= 99 * 3600 + 59 * 60 + 59.
Proof.
  intros H. apply bulletPoints_origin in H as (line & g & rest & _ & _ & Hf & Hp & _).
  destruct (ts_fields_value g Hf) as (n & Hn & Hle). congruence.
Qed.

(** Every bullet point comes from one line of the response that
    starts with a bracketed [MM:SS] or [HH:MM:SS] timestamp; its text is
    the rest of the line, trimmed and non-empty, and its timestamp the
    parsed value. *)
Theorem bulletPoints_sound rc b :
  In b (bulletPoints rc) ->
  exists line g rest, In line (split_on nl rc) /\ line = "["%char :: g ++ "]"%char :: rest /\
    ts_fields g = true /\ parseTimestamp g = Some (timestamp b) /\ text b = trim rest /\ text b <> [].
Proof.
  intros H. apply bulletPoints_origin in H as (line & g & rest & ? & ? & ? & ? & ? & Ht).
  exists line, g, rest. repeat split; try done. by destruct (text b).
Qed.

(** Conversely, every response line [[g]rest] with a well-formed
    timestamp [g] and a non-blank [rest] yields a bullet point. *)
Theorem bulletPoints_complete rc g rest :
  In ("["%char :: g ++ "]"%char :: rest) (split_on nl rc) -> ts_fields g = true -> truthy (trim rest) = true ->
  exists b n, In b (bulletPoints rc) /\ parseTimestamp g = Some n /\ b = mkBullet (trim rest) n.
Proof.
  intros Hin Hf Ht. destruct (ts_fields_value g Hf) as (n & Hn & _). exists (mkBullet (trim rest) n), n.
  split; [|done]. unfold bulletPoints. rewrite <- list_elem_of_In, list_elem_of_omap.
  exists (to_point ("["%char :: g ++ "]"%char :: rest)). split.
  - apply list_elem_of_In, in_map, filter_In. split; [done|]. unfold keep_line.
    rewrite timestampMatch_complete, truthy_trim_cons by done. done.
  - unfold to_point. rewrite timestampMatch_complete, replace_bracket_prefix, Hn by done. simpl. by rewrite Ht.
Qed.

(** [formattedResponse] keeps exactly the non-blank lines of the
    model's answer, in order, and formatting again changes nothing. *)
Theorem formattedResponse_lines rc :
  List.filter (fun line => truthy (trim line)) (split_on nl (formattedResponse rc)) =
  List.filter (fun line => truthy (trim line)) (split_on nl rc) /\
  formattedResponse (formattedResponse rc) = formattedResponse rc.
Proof.
  assert (H : List.filter (fun line => truthy (trim line)) (split_on nl (formattedResponse rc)) =
              List.filter (fun line => truthy (trim line)) (split_on nl rc)).
  { unfold formattedResponse. rewrite filter_split_join2; [| done |].
    - apply filter_filter_idem.
    - eapply incl_Forall; [apply incl_filter | apply split_on_pieces]. }
  split; [done|]. unfold formattedResponse at 1. by rewrite H.
Qed.

Section PostProps.
Variable generateContent : ChatKind -> jstr -> jstr -> option jstr.

(** Without an API key every request fails with status 500 and the
    configuration message, before the body is read. *)
Theorem POST_requires_key apiKey req :
  truthy_opt apiKey = false -> POST generateContent apiKey req = mkResponse 500 (ErrorBody err_key).
Proof. intros H. unfold POST. by rewrite H. Qed.

(** With a key, a request with a missing or empty message is
    rejected with status 400 and "Message is required"; one with a message
    but a missing or empty transcript with "Transcript is required". *)
Theorem POST_validation apiKey r :
  truthy_opt apiKey = true ->
  (truthy_opt r.(message) = false ->
     POST generateContent apiKey (Some r) = mkResponse 400 (ErrorBody err_message)) /\
  (truthy_opt r.(message) = true -> truthy_opt r.(transcript) = false ->
     POST generateContent apiKey (Some r) = mkResponse 400 (ErrorBody err_transcript)).
Proof.
  intros Hk. unfold POST. rewrite Hk. simpl.
  destruct r as [[m|] ty [t|]]; simpl; split; intros; try discriminate;
    repeat match goal with H : truthy _ = _ |- _ => rewrite H; clear H end; done.
Qed.

(** C11: the route answers 200 exactly when the key is set, the message
    and transcript are non-empty, and the model (with the summary prompt
    iff [type] is ["summary"]) returns a non-empty text; the answer then
    carries the formatted text, the request's type and the extracted
    bullet points. *)
Theorem POST_ok apiKey req :
  status (POST generateContent apiKey req) = 200 <->
  exists r msg tr rc,
    truthy_opt apiKey = true /\ req = Some r /\ r.(message) = Some msg /\ r.(transcript) = Some tr /\
    truthy msg = true /\ truthy tr = true /\
    generateContent (chat_kind r.(type_)) tr msg = Some rc /\ truthy rc = true /\
    POST generateContent apiKey req =
      mkResponse 200 (OkBody (formattedResponse rc) r.(type_) (bulletPoints rc)).
Proof.
  split.
  - unfold POST. destruct (truthy_opt apiKey) eqn:Hk; [|done]. simpl.
    destruct req as [r|]; [|done]. destruct r as [[m|] ty [t|]]; simpl; try done;
      [|by destruct (truthy m)].
    destruct (truthy m) eqn:Hm; [|done]. destruct (truthy t) eqn:Ht; [|done]. simpl.
    destruct (generateContent (chat_kind ty) t m) as [rc|] eqn:Hg; [|done].
    destruct (truthy rc) eqn:Hr; [|done]. intros _. by exists (mkRequest (Some m) ty (Some t)), m, t, rc.
  - intros (r & msg & tr & rc & _ & _ & _ & _ & _ & _ & _ & _ & ->). done.
Qed.

End PostProps.

(** ** The sample answer *)

Example sample_bulletPoints :
  bulletPoints sample_response =
    [mkBullet (lit "Host discusses AI") 135; mkBullet (lit "A quote") 3930].
Proof. vm_compute. reflexivity. Qed.

Lemma bulletPoints_timestamp_bound_witness :
  In (mkBullet (lit "A quote") 3930) (bulletPoints sample_response) /\
  timestamp (mkBullet (lit "A quote") 3930) <= 99 * 3600 + 59 * 60 + 59.
Proof.
  split; [vm_compute; auto|]. apply (bulletPoints_timestamp_bound sample_response). vm_compute; auto.
Defined.

Lemma bulletPoints_sound_witness :
  exists line g rest, In line (split_on nl sample_response) /\ line = "["%char :: g ++ "]"%char :: rest /\
    ts_fields g = true /\ parseTimestamp g = Some (timestamp (mkBullet (lit "Host discusses AI") 135)) /\
    text (mkBullet (lit "Host discusses AI") 135) = trim rest /\ text (mkBullet (lit "Host discusses AI") 135) <> [].
Proof. apply (bulletPoints_sound sample_response). vm_compute; auto. Defined.

Lemma bulletPoints_complete_witness :
  exists b n, In b (bulletPoints sample_response) /\ parseTimestamp (lit "1:05:30") = Some n /\
    b = mkBullet (trim (lit "   A quote  ")) n.
Proof. apply (bulletPoints_complete sample_response); vm_compute; auto 10. Defined.

Lemma POST_requires_key_witness :
  POST (fun _ _ _ => Some sample_response) None (Some (mkRequest (Some (lit "q")) None (Some (lit "t")))) =
    mkResponse 500 (ErrorBody err_key).
Proof. apply POST_requires_key. reflexivity. Defined.

Lemma POST_validation_witness :
  POST (fun _ _ _ => Some sample_response) (Some (lit "key")) (Some (mkRequest (Some []) None (Some (lit "t")))) =
    mkResponse 400 (ErrorBody err_message).
Proof. apply (POST_validation (fun _ _ _ => Some sample_response)); reflexivity. Defined.

End ChatRoute.
