(* ===== verification/Bridge.v ===== *)
(** * The window message bridge between the chat bot and the player

    AIChatBot.tsx and ContentPanel.tsx never call each other: they talk
    through [window.postMessage] and [window.addEventListener('message')].
    This file holds the two message shapes the code posts and the
    interface a component implements to receive them: a [Listener] maps a
    message and the component's state to its new state.  ChatBot.v and
    Panel.v provide the instances; App.v composes them and proves the
    cross-component properties against this interface. *)

From S2P Require Import Prelude JsRuntime.

Module Bridge.

(** [event.data] of a window message: [{type: 'TRANSCRIPT_READY',
    transcript}] (ContentPanel.tsx 176-179), [{type: 'PLAY_AUDIO',
    timestamp}] (AIChatBot.tsx 79-82), or anything else. *)
Inductive WindowMessage :=
| TranscriptReady (transcript : option jstr)
| PlayAudio (timestamp : Q)
| OtherMessage.

(** A component's [message] event listener. *)
Class Listener (S : Type) := on_message : WindowMessage -> S -> S.

(** JS truthiness of a number that is never [NaN]. *)
Definition truthy_num (q : Q) : bool := negb (Qeq_bool q 0).

Lemma truthy_num_false q : truthy_num q = false <-> (q == 0)%Q.
Proof.
  unfold truthy_num. rewrite negb_false_iff. split; [apply Qeq_bool_eq | apply Qeq_eq_bool].
Qed.

End Bridge.
