(* ===== verification/ChatBot.v ===== *)
(** * The chat panel: components/AIChatBot.tsx

    The component's state hooks (lines 24-29) are the fields of
    [ChatState]; the [keydown] listener, which the effect of lines 40-63
    registers again only when [isOpen] changes, keeps the [messages] of
    the render that registered it, and that copy is the field
    [keyListenerMessages].  The request in flight of [handleSubmit] is
    [pending].  Each handler is a function from the state to the new state
    (and, for [handleSubmit], the request it sends, for the clicks, the
    window messages it posts); [chat_step] is the component's reaction to
    one user or network event. *)

From S2P Require Import Prelude JsRuntime ChatRoute Bridge.

Module ChatBot.
Import ChatRoute Bridge.

(** ** Data (lines 6-21) *)

Inductive Role := User | Assistant.

#[export] Instance Role_eq_dec : EqDecision Role.
Proof. solve_decision. Defined.

(** [interface Message]; the optional [timestamp] field is never set. *)
Record Message := mkMessage {
  role : Role;
  content : jstr;
  m_type : option jstr;
  m_bulletPoints : option (list BulletPoint)
}.

Record ChatState := mkChat {
  isOpen : bool;
  messages : list Message;
  input : jstr;
  isLoading : bool;
  selectedBulletPoint : option nat;
  transcript : option jstr;
  keyListenerMessages : list Message;
  pending : option ChatRequest
}.

(** Lines 24-29, and the listener the effect registers at mount. *)
Definition chat_init : ChatState := mkChat false [] [] false None None [] None.

Definition setSelected (s : option nat) (st : ChatState) : ChatState :=
  mkChat st.(isOpen) st.(messages) st.(input) st.(isLoading) s st.(transcript)
         st.(keyListenerMessages) st.(pending).
Definition setTranscript (t : option jstr) (st : ChatState) : ChatState :=
  mkChat st.(isOpen) st.(messages) st.(input) st.(isLoading) st.(selectedBulletPoint) t
         st.(keyListenerMessages) st.(pending).
Definition setInput (s : jstr) (st : ChatState) : ChatState :=
  mkChat st.(isOpen) st.(messages) s st.(isLoading) st.(selectedBulletPoint) st.(transcript)
         st.(keyListenerMessages) st.(pending).

(** [setIsOpen]: the keyboard effect (deps [[isOpen]]) runs again after
    the render and its new listener closes over the current messages. *)
Definition setIsOpen (b : bool) (st : ChatState) : ChatState :=
  mkChat b st.(messages) st.(input) st.(isLoading) st.(selectedBulletPoint) st.(transcript)
         (if Bool.eqb b st.(isOpen) then st.(keyListenerMessages) else st.(messages)) st.(pending).

(** ** [formatTimestamp] (lines 213-222) *)

(** [x.toString().padStart(2, '0')]. *)
Definition pad2 (n : nat) : jstr := pad_start 2 "0"%char (number_toString n).

(** The timestamps it receives are the route's, whole seconds. *)
Definition formatTimestamp (seconds : nat) : jstr :=
  let hours := seconds / 3600 in
  let minutes := (seconds mod 3600) / 60 in
  let remainingSeconds := seconds mod 60 in
  if 0 <? hours then pad2 hours ++ colon :: pad2 minutes ++ colon :: pad2 remainingSeconds
  else pad2 minutes ++ colon :: pad2 remainingSeconds.

(** ** Keyboard shortcuts (lines 40-63) *)

Inductive KeyCode := Space | ArrowUp | ArrowDown | OtherKey.

(** [messages.flatMap(m => m.bulletPoints || [])]. *)
Definition all_bulletPoints (ms : list Message) : list BulletPoint :=
  flat_map (fun m => default [] m.(m_bulletPoints)) ms.

(** The updater of lines 52-57, over the messages [ms] it sees. *)
Definition select_next (ms : list Message) (up : bool) (prev : option nat) : option nat :=
  match prev with
  | None => Some 0
  | Some p =>
      let newIndex := (Z.of_nat p + if up then -1 else 1)%Z in
      Some (Z.to_nat (Z.max 0 (Z.min newIndex (Z.of_nat (length (all_bulletPoints ms)) - 1))))
  end.

(** [handleKeyDown]: [Space] only prevents the default action. *)
Definition handleKeyDown (code : KeyCode) (st : ChatState) : ChatState :=
  if negb st.(isOpen) then st else
  match code with
  | ArrowUp => setSelected (select_next st.(keyListenerMessages) true st.(selectedBulletPoint)) st
  | ArrowDown => setSelected (select_next st.(keyListenerMessages) false st.(selectedBulletPoint)) st
  | _ => st
  end.

(** ** Window messages (lines 66-83) *)

(** [handleMessage]: only [TRANSCRIPT_READY] is heard. *)
Definition handleMessage (m : WindowMessage) (st : ChatState) : ChatState :=
  match m with
  | TranscriptReady t => setTranscript t st
  | _ => st
  end.

#[export] Instance chat_listener : Listener ChatState := handleMessage.

(** [handleBulletPointClick]: the message it posts. *)
Definition handleBulletPointClick (timestamp : nat) : WindowMessage :=
  PlayAudio (inject_Z (Z.of_nat timestamp)).

(** Lines 86-89. *)
Definition handleClearChat (st : ChatState) : ChatState :=
  mkChat st.(isOpen) [] st.(input) st.(isLoading) None st.(transcript)
         st.(keyListenerMessages) st.(pending).

(** ** [handleSubmit] (lines 91-136) *)

(** Line 106. *)
Definition request_type (userMessage : jstr) : jstr :=
  if includes (lit "summarize") (to_lower userMessage) then lit "summary" else lit "qa".

(** Lines 92-109: the guard, the state updates before the [await], and
    the body of the request. *)
Definition handleSubmit (st : ChatState) : ChatState * option ChatRequest :=
  if negb (truthy (trim st.(input))) || negb (truthy_opt st.(transcript)) then (st, None) else
  let userMessage := trim st.(input) in
  let req := mkRequest (Some userMessage) (Some (request_type userMessage)) st.(transcript) in
  (mkChat st.(isOpen) (st.(messages) ++ [mkMessage User userMessage None None]) [] true
          st.(selectedBulletPoint) st.(transcript) st.(keyListenerMessages) (Some req), Some req).

(** What comes back: the route's response, or a rejected [fetch] or
    [response.json()] with its error message. *)
Inductive Reply := RouteReply (r : Response) | FetchFailed (message : jstr).

Definition response_ok (r : Response) : bool := (200 <=? r.(status)) && (r.(status) <? 300).

(** Lines 111-132: the message appended.  [transcript] is the one of the
    submitting render, which the guard made non-empty, so the error text
    is [error.message]. *)
Definition assistant_reply (rp : Reply) : Message :=
  match rp with
  | RouteReply r =>
      if response_ok r then
        match r.(body) with
        | OkBody m ty bps => mkMessage Assistant m ty (Some bps)
        | ErrorBody _ => mkMessage Assistant [] None None
        end
      else
        let e := match r.(body) with ErrorBody e => e | OkBody _ _ _ => [] end in
        mkMessage Assistant (if truthy e then e else lit "Failed to get response") None None
  | FetchFailed msg => mkMessage Assistant msg None None
  end.

(** The continuation after the [await]s, with the [finally] of line 134. *)
Definition handleReply (rp : Reply) (st : ChatState) : ChatState :=
  mkChat st.(isOpen) (st.(messages) ++ [assistant_reply rp]) st.(input) false st.(selectedBulletPoint)
         st.(transcript) st.(keyListenerMessages) None.

(** ** Rendering (lines 138-210, 224-353) *)

(** The send button's [disabled] (line 341); the browser submits the
    form, by click or by Enter, only while it is enabled. *)
Definition send_enabled (st : ChatState) : bool :=
  negb st.(isLoading) && truthy (trim st.(input)) && truthy_opt st.(transcript).

(** Lines 147, 159, 170, 183 and 201: bullet [index] of a message is
    shown selected. *)
Definition bullet_selected (st : ChatState) (index : nat) : bool :=
  bool_decide (st.(selectedBulletPoint) = Some index).

(** ** Events *)

Inductive ChatEvent :=
| ToggleOpen                         (* line 228 *)
| CloseChat                          (* line 272 *)
| ClearChat                          (* line 263 *)
| KeyDown (code : KeyCode)
| Window (m : WindowMessage)
| TypeInput (s : jstr)               (* line 331 *)
| Submit
| Arrive (rp : Reply)
| PlayBullet (msg index : nat)       (* lines 154-157 *)
| SeekBullet (msg index : nat).      (* line 181 *)

Definition bullet_at (st : ChatState) (msg index : nat) : option BulletPoint :=
  m ← st.(messages) !! msg;
  if bool_decide (m.(role) = Assistant) then bps ← m.(m_bulletPoints); bps !! index else None.

(** One event: the new state, the request sent, the messages posted.
    The panel and its buttons exist only while [isOpen]; the reply can
    only arrive while a request is pending. *)
Definition chat_step (e : ChatEvent) (st : ChatState)
    : ChatState * option ChatRequest * list WindowMessage :=
  match e with
  | ToggleOpen => (setIsOpen (negb st.(isOpen)) st, None, [])
  | CloseChat => if st.(isOpen) then (setIsOpen false st, None, []) else (st, None, [])
  | ClearChat => if st.(isOpen) then (handleClearChat st, None, []) else (st, None, [])
  | KeyDown c => (handleKeyDown c st, None, [])
  | Window m => (handleMessage m st, None, [])
  | TypeInput s => if st.(isOpen) && truthy_opt st.(transcript) then (setInput s st, None, [])
                   else (st, None, [])
  | Submit => if st.(isOpen) && send_enabled st then let '(st', r) := handleSubmit st in (st', r, [])
              else (st, None, [])
  | Arrive rp => match st.(pending) with Some _ => (handleReply rp st, None, []) | None => (st, None, []) end
  | PlayBullet i j =>
      match (if st.(isOpen) then bullet_at st i j else None) with
      | Some b => (setSelected (Some j) st, None, [handleBulletPointClick b.(timestamp)])
      | None => (st, None, [])
      end
  | SeekBullet i j =>
      match (if st.(isOpen) then bullet_at st i j else None) with
      | Some b => (st, None, [handleBulletPointClick b.(timestamp)])
      | None => (st, None, [])
      end
  end.

Definition chat_state (e : ChatEvent) (st : ChatState) : ChatState := (chat_step e st).1.1.

Inductive chat_reachable : ChatState -> Prop :=
| chat_reach_init : chat_reachable chat_init
| chat_reach_step e st : chat_reachable st -> chat_reachable (chat_state e st).

Fixpoint run_chat (es : list ChatEvent) (st : ChatState) : ChatState :=
  match es with [] => st | e :: es' => run_chat es' (chat_state e st) end.

(** The invariant of the request in flight. *)
Definition chat_inv (st : ChatState) : Prop :=
  (st.(isLoading) = true <-> is_Some st.(pending)) /\
  forall req, st.(pending) = Some req -> truthy_opt req.(message) = true /\ truthy_opt (ChatRoute.transcript req) = true.

(** ** A session *)

Definition sample_bullets : list BulletPoint :=
  [mkBullet (lit "Opening remarks") 0; mkBullet (lit "AI in healthcare") 135;
   mkBullet (lit "Closing") 3930].

Definition sample_reply : Reply :=
  RouteReply (mkResponse 200 (OkBody (lit "[00:00] Opening remarks") (Some (lit "summary")) sample_bullets)).

(** The transcript arrives, then the user opens the chat. *)
Definition opened : ChatState :=
  run_chat [Window (TranscriptReady (Some (lit "the transcript"))); ToggleOpen] chat_init.

(** The user asks for a summary, the answer arrives, Down is pressed. *)
Definition session : list ChatEvent :=
  [TypeInput (lit "Summarize please"); Submit; Arrive sample_reply; KeyDown ArrowDown].

(** * Lemmas *)

Lemma digit05_char k : k < 6 -> is_digit05 (digit_char k) = true.
Proof.
  intros H. unfold is_digit05. rewrite nat_of_digit_char by lia.
  apply andb_true_iff. split; apply Nat.leb_le; lia.
Qed.

Lemma pad2_shape x :
  x < 100 -> pad2 x = [digit_char (x / 10); digit_char (x mod 10)] /\ x / 10 < 10 /\ x mod 10 < 10.
Proof.
  intros H. split; [by apply pad2_digits|]. split; [apply Nat.Div0.div_lt_upper_bound; lia|].
  apply Nat.mod_upper_bound. lia.
Qed.

Lemma pad2_no_colon x : x < 100 -> Forall (fun c => Ascii.eqb c colon = false) (pad2 x).
Proof.
  intros H. destruct (pad2_shape x H) as (-> & Ha & Hb).
  repeat constructor; by apply digit_not_colon, is_digit_char.
Qed.

Lemma pad2_hours x : x < 100 -> hours_ok (pad2 x) = true.
Proof. intros H. destruct (pad2_shape x H) as (-> & Ha & Hb). cbn [hours_ok]. by rewrite !is_digit_char. Qed.

Lemma pad2_sixty x : x < 60 -> minutes_ok (pad2 x) = true /\ seconds_ok (pad2 x) = true.
Proof.
  intros H. destruct (pad2_shape x ltac:(lia)) as (-> & Ha & Hb). cbn [minutes_ok seconds_ok].
  rewrite digit05_char, is_digit_char by (done || (apply Nat.Div0.div_lt_upper_bound; lia)). done.
Qed.

Lemma pad2_number x : x < 100 -> js_Number (pad2 x) = Some x.
Proof.
  intros H. destruct (pad2_shape x H) as (-> & Ha & Hb).
  rewrite js_Number_digits; [|by cbn [forallb]; rewrite !is_digit_char].
  rewrite digits_value_two by done. f_equal. pose proof (Nat.div_mod_eq x 10). lia.
Qed.

#[export] Hint Resolve pad2_no_colon pad2_hours pad2_number : rss.

(** What the route reads back from a displayed timestamp. *)
Lemma formatTimestamp_fields t :
  t < 100 * 3600 -> ts_fields (formatTimestamp t) = true /\ parseTimestamp (formatTimestamp t) = Some t.
Proof.
  intros Ht. destruct (hms_decompose t) as (Et & Hm & Hs).
  assert (Hh : t / 3600 < 100) by (apply Nat.Div0.div_lt_upper_bound; lia).
  destruct (pad2_sixty _ Hm) as [Mm Sm]. destruct (pad2_sixty _ Hs) as [Ms Ss].
  unfold formatTimestamp, ts_fields, parseTimestamp. destruct (0 <? t / 3600) eqn:E; nbool.
  - rewrite !split_on_app_sep, split_on_no_sep by eauto with rss lia.
    rewrite pad2_hours, Mm, Ss by done. cbn [map]. rewrite !pad2_number by lia. split; [done|]. cbn [mbind option_bind]. f_equal. lia.
  - rewrite !split_on_app_sep, split_on_no_sep by eauto with rss lia.
    rewrite Mm, Ss. cbn [map]. rewrite !pad2_number by lia. split; [done|]. cbn [mbind option_bind]. f_equal. lia.
Qed.

Lemma chat_kind_request_type u :
  chat_kind (Some (request_type u)) = if includes (lit "summarize") (to_lower u) then Summary else Qa.
Proof. unfold request_type. by destruct (includes _ _). Qed.

Lemma chat_inv_init : chat_inv chat_init.
Proof. split; [split; [done|by intros []]|done]. Qed.

Lemma handleSubmit_inv st st' r :
  handleSubmit st = (st', r) -> chat_inv st -> chat_inv st'.
Proof.
  unfold handleSubmit. destruct (negb _ || negb _) eqn:E; intros [= <- <-]; [done|].
  nbool. split; [split; [by eexists|done]|]. intros req Hr. simpl in Hr. injection Hr as <-. simpl.
  split; [done|]. by destruct (transcript st).
Qed.

Lemma chat_step_inv e st : chat_inv st -> chat_inv (chat_state e st).
Proof.
  intros Hi. unfold chat_state, chat_step.
  destruct e; repeat (case_match; simplify_eq/=); try (by eapply handleSubmit_inv);
    unfold handleKeyDown, handleMessage, handleReply; repeat case_match; try done; destruct st; try done.
  split; [split; [done|by intros []]|done].
Qed.

(** Events other than opening or closing the panel keep the keyboard
    listener, and the panel open. *)
Lemma chat_step_frozen e st :
  e <> ToggleOpen -> e <> CloseChat ->
  keyListenerMessages (chat_state e st) = keyListenerMessages st /\ isOpen (chat_state e st) = isOpen st.
Proof.
  intros H1 H2. unfold chat_state, chat_step.
  destruct e; try done; repeat (case_match; simplify_eq/=);
    unfold handleKeyDown, handleMessage, handleSubmit, handleReply in *;
    repeat (case_match; simplify_eq/=); done.
Qed.

Lemma run_chat_frozen es st :
  Forall (fun e => e <> ToggleOpen /\ e <> CloseChat) es ->
  keyListenerMessages (run_chat es st) = keyListenerMessages st /\ isOpen (run_chat es st) = isOpen st.
Proof.
  intros H. revert st. induction H as [|e es [H1 H2] _ IH]; intros st; [done|]. simpl.
  destruct (IH (chat_state e st)) as [-> ->]. by apply chat_step_frozen.
Qed.

Lemma select_next_empty ms up prev : all_bulletPoints ms = [] -> select_next ms up prev = Some 0.
Proof. intros H. destruct prev as [p|]; [|done]. simpl. rewrite H. simpl. f_equal. lia. Qed.

Lemma run_chat_reachable es st : chat_reachable st -> chat_reachable (run_chat es st).
Proof. revert st. induction es as [|e es IH]; intros st H; [done|]. apply IH. by constructor. Qed.

(** * Properties *)

(** C12: a displayed timestamp (below 100 hours) is read back by the
    route's timestamp pattern and parser as the same number of seconds. *)
Theorem formatTimestamp_roundtrip t rest :
  t < 100 * 3600 ->
  timestampMatch ("["%char :: formatTimestamp t ++ "]"%char :: rest) = Some (formatTimestamp t) /\
  parseTimestamp (formatTimestamp t) = Some t.
Proof.
  intros Ht. destruct (formatTimestamp_fields t Ht) as [Hf Hp]. split; [|done].
  by apply timestampMatch_complete.
Qed.

(** Every bullet point the route extracts is shown with a timestamp
    that the route would read back as the bullet's own timestamp. *)
Theorem bullet_timestamp_redisplay rc b rest :
  In b (bulletPoints rc) ->
  timestampMatch ("["%char :: formatTimestamp (timestamp b) ++ "]"%char :: rest) =
    Some (formatTimestamp (timestamp b)) /\
  parseTimestamp (formatTimestamp (timestamp b)) = Some (timestamp b).
Proof.
  intros H. apply bulletPoints_origin in H as (line & g & r & _ & _ & Hf & Hp & _).
  destruct (ts_fields_value g Hf) as (n & Hn & Hle).
  assert (Ht : timestamp b < 100 * 3600) by (rewrite Hp in Hn; injection Hn; lia).
  destruct (formatTimestamp_fields _ Ht) as [Hf' Hp']. split; [|done].
  by apply timestampMatch_complete.
Qed.

(** C13: asking a question with the panel open and the send button
    enabled sends the trimmed input, with the summary prompt exactly when
    it contains "summarize" in any case; when the model answers, the
    conversation gains the question and the answer with the route's
    formatted text and bullet points. *)
Theorem ask_answer generateContent apiKey st t rc :
  isOpen st = true -> send_enabled st = true -> transcript st = Some t -> truthy_opt apiKey = true ->
  generateContent (if includes (lit "summarize") (to_lower (trim (input st))) then Summary else Qa)
                  t (trim (input st)) = Some rc ->
  truthy rc = true ->
  exists req,
    (chat_step Submit st).1.2 = Some req /\
    messages (chat_state (Arrive (RouteReply (POST generateContent apiKey (Some req)))) (chat_state Submit st)) =
      messages st ++ [mkMessage User (trim (input st)) None None;
                      mkMessage Assistant (formattedResponse rc) (Some (request_type (trim (input st))))
                                (Some (bulletPoints rc))].
Proof.
  intros Ho He Ht Hk Hg Hr. destruct st as [o ms inp ld sel tr kl pd]; cbn [isOpen transcript input messages] in *; subst o tr.
  unfold chat_state, chat_step. rewrite He. cbn -[trim]. unfold send_enabled in He.
  apply andb_true_iff in He as [He Htt]. apply andb_true_iff in He as [Hld Hin]. cbn -[trim] in Hin.
  cbn in Htt. unfold handleSubmit. cbn -[trim]. rewrite Hin, Htt. cbn -[trim].
  eexists. split; [reflexivity|]. cbn -[trim POST request_type].
  unfold POST. rewrite Hk. cbn -[trim chat_kind request_type]. rewrite Hin, Htt.
  cbn -[trim chat_kind request_type].
  rewrite chat_kind_request_type, Hg, Hr. simpl. by rewrite <- app_assoc.
Qed.

(** C14: in every reachable state the chat is loading exactly when a
    request is in flight, and a request in flight has a non-empty
    message and transcript. *)
Theorem chat_reachable_inv st : chat_reachable st -> chat_inv st.
Proof. induction 1; [apply chat_inv_init | by apply chat_step_inv]. Qed.

(** C15: the keyboard listener only sees the messages of the render in
    which the panel was last opened or closed: after opening the chat
    before any answer, Up and Down select the first bullet point whatever
    answers arrive later, so the keys cannot move past it. *)
Theorem arrow_keys_stuck es st code :
  isOpen st = true -> keyListenerMessages st = messages st -> all_bulletPoints (messages st) = [] ->
  Forall (fun e => e <> ToggleOpen /\ e <> CloseChat) es -> code = ArrowUp \/ code = ArrowDown ->
  selectedBulletPoint (handleKeyDown code (run_chat es st)) = Some 0.
Proof.
  intros Ho Hk Hb Hes Hc. destruct (run_chat_frozen es st Hes) as [Hk' Ho'].
  unfold handleKeyDown. rewrite Ho', Ho. simpl.
  destruct Hc as [->| ->]; simpl; apply select_next_empty; by rewrite Hk', Hk.
Qed.

(** ** Witnesses *)

Lemma formatTimestamp_roundtrip_witness :
  timestampMatch ("["%char :: formatTimestamp 3930 ++ "]"%char :: lit " Closing") = Some (formatTimestamp 3930) /\
  parseTimestamp (formatTimestamp 3930) = Some 3930.
Proof. apply formatTimestamp_roundtrip. lia. Defined.

Lemma bullet_timestamp_redisplay_witness :
  timestampMatch ("["%char :: formatTimestamp 3930 ++ "]"%char :: []) = Some (formatTimestamp 3930) /\
  parseTimestamp (formatTimestamp 3930) = Some 3930.
Proof.
  apply (bullet_timestamp_redisplay sample_response (mkBullet (lit "A quote") 3930) []).
  vm_compute. auto.
Defined.

Lemma ask_answer_witness :
  exists req,
    (chat_step Submit (run_chat [TypeInput (lit "Summarize please")] opened)).1.2 = Some req /\
    messages (chat_state (Arrive (RouteReply (POST (fun _ _ _ => Some sample_response) (Some (lit "key"))
                                                   (Some req))))
                         (chat_state Submit (run_chat [TypeInput (lit "Summarize please")] opened))) =
      messages (run_chat [TypeInput (lit "Summarize please")] opened) ++
        [mkMessage User (trim (lit "Summarize please")) None None;
         mkMessage Assistant (formattedResponse sample_response)
                   (Some (request_type (trim (lit "Summarize please")))) (Some (bulletPoints sample_response))].
Proof.
  apply (ask_answer (fun _ _ _ => Some sample_response) (Some (lit "key"))
                    (run_chat [TypeInput (lit "Summarize please")] opened) (lit "the transcript"));
    vm_compute; reflexivity.
Defined.

Lemma chat_reachable_inv_witness :
  chat_inv (run_chat [TypeInput (lit "Summarize please"); Submit] opened) /\
  isLoading (run_chat [TypeInput (lit "Summarize please"); Submit] opened) = true.
Proof.
  split; [|vm_compute; reflexivity].
  apply chat_reachable_inv. apply run_chat_reachable, run_chat_reachable, chat_reach_init.
Defined.

Lemma arrow_keys_stuck_witness :
  selectedBulletPoint (handleKeyDown ArrowDown (run_chat session opened)) = Some 0 /\
  length (all_bulletPoints (messages (run_chat session opened))) = 3.
Proof.
  split; [|vm_compute; reflexivity].
  apply arrow_keys_stuck; [vm_compute; reflexivity..| |by right].
  repeat constructor; discriminate.
Defined.

End ChatBot.
