(* ===== verification/ChatView.v ===== *)
(** * What the chat panel shows: AIChatBot.tsx, lines 138-211 and 224-353

    [render_chat] is the part of the component's output that depends on
    its state: the toggle button, and while [isOpen] the header's hint,
    each message with, for an assistant message, its bullet points
    ([renderBulletPoints]), the typing indicator and the input form.
    A bullet point is drawn as selected when [selectedBulletPoint] is its
    index in its own message's list; the keyboard handler of ChatBot.v
    counts the same state over the bullet points of all messages. *)

From S2P Require Import Prelude JsRuntime ChatRoute ChatBot.

Module ChatView.
Import ChatRoute ChatBot.

(** ** Data *)

(** One bullet point (lines 143-206). *)
Record BulletView := mkBulletView {
  bv_text : jstr;
  bv_stamp : jstr;          (** [formatTimestamp(point.timestamp)] *)
  bv_selected : bool        (** highlight, pause icon *)
}.

(** One message (lines 295-310). *)
Record MessageView := mkMessageView {
  mv_user : bool;                           (** right-aligned, blue *)
  mv_content : jstr;
  mv_bullets : option (list BulletView)     (** [null] when there is none *)
}.

(** The open panel. *)
Record OpenView := mkOpenView {
  header_hint : jstr;
  message_views : list MessageView;
  typing : bool;                 (** the three dots, line 311 *)
  placeholder : jstr;
  input_disabled : bool;
  send_disabled : bool
}.

Record ChatPanelView := mkChatPanelView {
  toggle_spins : bool;           (** line 234 *)
  panel : option OpenView
}.

Definition messages_of_view (v : ChatPanelView) : list MessageView :=
  match panel v with Some ov => message_views ov | None => [] end.

(** ** Rendering *)

Definition quoted (s : jstr) : jstr := [dquote] ++ s ++ [dquote].

(** [renderBulletPoints] (lines 138-210). *)
Definition renderBulletPoints (st : ChatState) (bps : option (list BulletPoint)) : option (list BulletView) :=
  (fun l => imap (fun index point => mkBulletView (text point) (formatTimestamp (timestamp point))
                                                  (bullet_selected st index)) l) <$> bps.

Definition render_message (st : ChatState) (m : Message) : MessageView :=
  mkMessageView (bool_decide (role m = User)) (content m)
    (if bool_decide (role m = Assistant) then renderBulletPoints st (m_bulletPoints m) else None).

Definition render_chat (st : ChatState) : ChatPanelView :=
  mkChatPanelView (negb (isOpen st))
    (if isOpen st then
       Some (mkOpenView
               (if truthy_opt (ChatBot.transcript st)
                then lit "Ask questions or type " ++ quoted (lit "summarize") ++ lit " for key points"
                else lit "Waiting for transcript... Please generate it first.")
               (map (render_message st) (messages st))
               (isLoading st)
               (if truthy_opt (ChatBot.transcript st)
                then lit "Ask a question or type " ++ quoted (lit "summarize") ++ lit " for key points..."
                else lit "Please generate transcript first...")
               (negb (truthy_opt (ChatBot.transcript st)))
               (negb (send_enabled st)))
     else None).

(** ** Two answers with bullet points *)

(** The chat after two summaries came in. *)
Definition two_answers : ChatState :=
  run_chat [TypeInput (lit "summarize"); Submit; Arrive sample_reply;
            TypeInput (lit "summarize again"); Submit; Arrive sample_reply] opened.

(** * Lemmas *)

Lemma renderBulletPoints_lookup st bps i bvs :
  renderBulletPoints st (Some bps) = Some bvs ->
  bvs !! i = (fun point => mkBulletView (text point) (formatTimestamp (timestamp point)) (bullet_selected st i)) <$> bps !! i.
Proof. unfold renderBulletPoints. simpl. intros [= <-]. by rewrite list_lookup_imap. Qed.

Lemma play_bullet_selects st i j b :
  isOpen st = true -> bullet_at st i j = Some b ->
  chat_state (PlayBullet i j) st = setSelected (Some j) st.
Proof. intros Ho Hb. unfold chat_state, chat_step. by rewrite Ho, Hb. Qed.

(** * Properties *)

(** C16: playing bullet point [j] of one answer highlights bullet point
    [j] of every assistant answer that has one: the selection is a bare
    index, compared with each message's own indices. *)
Theorem play_bullet_highlights_all st i j b m bps b' :
  isOpen st = true -> bullet_at st i j = Some b ->
  m ∈ messages st -> role m = Assistant -> m_bulletPoints m = Some bps -> bps !! j = Some b' ->
  let st' := chat_state (PlayBullet i j) st in
  m ∈ messages st' /\
  exists bvs bv, mv_bullets (render_message st' m) = Some bvs /\ bvs !! j = Some bv /\
                 bv_text bv = text b' /\ bv_selected bv = true.
Proof.
  intros Ho Hb Hm Hr Hbp Hj st'. unfold st'. rewrite (play_bullet_selects st i j b Ho Hb).
  split; [done|]. unfold render_message. cbn [role m_bulletPoints]. rewrite Hr, Hbp.
  rewrite (bool_decide_eq_true_2 (Assistant = Assistant)) by done. eexists _, _. split; [reflexivity|].
  rewrite (renderBulletPoints_lookup _ bps j _ eq_refl), Hj. split; [reflexivity|].
  split; [done|]. unfold bullet_selected. simpl. by apply bool_decide_eq_true_2.
Qed.

(** ** Witnesses *)

(** Playing the first bullet point of the second answer highlights the
    first bullet point of both answers. *)
Example both_answers_highlighted :
  map (fun mv => (fun bvs => map bv_selected bvs) <$> mv_bullets mv)
      (messages_of_view (render_chat (chat_state (PlayBullet 3 0) two_answers))) =
  [None; Some [true; false; false]; None; Some [true; false; false]].
Proof. vm_compute. reflexivity. Qed.

Lemma play_bullet_highlights_all_witness :
  exists m bps b', m ∈ messages two_answers /\ m_bulletPoints m = Some bps /\ bps !! 0 = Some b' /\
  (m ∈ messages (chat_state (PlayBullet 3 0) two_answers) /\
   exists bvs bv, mv_bullets (render_message (chat_state (PlayBullet 3 0) two_answers) m) = Some bvs /\
                  bvs !! 0 = Some bv /\ bv_text bv = text b' /\ bv_selected bv = true).
Proof.
  assert (Hm : messages two_answers !! 1 = Some (assistant_reply sample_reply)) by (vm_compute; reflexivity).
  exists (assistant_reply sample_reply), sample_bullets, (mkBullet (lit "Opening remarks") 0).
  split; [by eapply list_elem_of_lookup_2|]. split; [reflexivity|]. split; [reflexivity|].
  apply (play_bullet_highlights_all two_answers 3 0 (mkBullet (lit "Opening remarks") 0) _ sample_bullets);
    first [reflexivity | by eapply list_elem_of_lookup_2 | vm_compute; reflexivity].
Defined.

End ChatView.
