(* ===== verification/Panel.v ===== *)
(** * The episode panel: components/ContentPanel.tsx

    The panel owns the [<audio>] element, the transcription request and
    the transcript state that TranscriptCards.tsx displays, and listens
    for the chat bot's [PLAY_AUDIO] messages.  Its state hooks (lines
    64-70) and its props [content] and [audioUrl] are the fields of
    [PanelState]; the [<audio>] element is the record [Audio] (its
    [currentTime] and whether it is paused); the transcription requests
    in flight are listed with the [audioUrl] each was sent for.  Each
    handler is a function on this state; [panel_step] is the reaction to
    one event of the user, the element or the network, with the window
    messages it posts. *)

From S2P Require Import Prelude JsRuntime Chunker Bridge.

Module Panel.
Import Chunker Bridge.

(** ** Data *)

(** A word of the transcription response (transcribe/route.ts 64-70). *)
Record RawWord := mkRawWord {
  rw_word : jstr;
  rw_punctuated_word : option jstr;
  rw_start : Q;
  rw_end : Q;
  rw_confidence : option Q;
  rw_speaker : option Z
}.

(** The body of the transcribe route's answer: [error], [text], [words]. *)
Record TranscribeBody := mkTranscribeBody {
  tb_error : option jstr;
  tb_text : option jstr;
  tb_words : option (list RawWord)
}.

(** [fetch] resolves with [response.ok] and the JSON body, or rejects. *)
Inductive TranscribeReply :=
| TrResponse (ok : bool) (b : TranscribeBody)
| TrFailed (message : jstr).

(** The [<audio>] element: its [currentTime] and [paused]. *)
Record Audio := mkAudio { a_currentTime : Q; a_paused : bool }.

Record PanelState := mkPanel {
  content : option jstr;
  audioUrl : option jstr;
  isTranscribing : bool;
  transcript : option jstr;
  words : list Word;
  transcriptError : option jstr;
  isPlaying : bool;
  currentTime : Q;
  isTranscribed : bool;
  audio : Audio;
  requests : list (option jstr)
}.

(** The element is rendered, and [audioRef.current] set, exactly when
    there is content (line 230) and an audio URL (line 299). *)
Definition has_audio (st : PanelState) : bool := truthy_opt st.(content) && truthy_opt st.(audioUrl).

Definition setAudio (a : Audio) (playing : bool) (st : PanelState) : PanelState :=
  mkPanel st.(content) st.(audioUrl) st.(isTranscribing) st.(transcript) st.(words) st.(transcriptError)
          playing st.(currentTime) st.(isTranscribed) a st.(requests).

Definition setCurrentTime (t : Q) (st : PanelState) : PanelState :=
  mkPanel st.(content) st.(audioUrl) st.(isTranscribing) st.(transcript) st.(words) st.(transcriptError)
          st.(isPlaying) t st.(isTranscribed) st.(audio) st.(requests).

(** ** The effect on [audioUrl] (lines 75-96) *)

(** The new props, and the reset the effect performs; [pause()] and
    [currentTime = 0] on the element, [load()] of the new source. *)
Definition selectEpisode (c u : option jstr) (st : PanelState) : PanelState :=
  let st := mkPanel c u st.(isTranscribing) st.(transcript) st.(words) st.(transcriptError)
                    st.(isPlaying) st.(currentTime) st.(isTranscribed) st.(audio) st.(requests) in
  let el := if has_audio st then mkAudio 0 true else st.(audio) in
  let playing := if has_audio st then false else st.(isPlaying) in
  mkPanel c u false None [] None playing 0 false el st.(requests).

Definition panel_init (c u : option jstr) : PanelState :=
  selectEpisode c u (mkPanel c u false None [] None false 0 false (mkAudio 0 true) []).

(** ** The player (lines 99-135, 221-228) *)

(** [play()]: the element plays, and its [play] event sets [isPlaying]. *)
Definition play (st : PanelState) : PanelState :=
  setAudio (mkAudio st.(audio).(a_currentTime) false) true st.

(** [handleAudioRequest]. *)
Definition handleAudioRequest (timestamp : Q) (st : PanelState) : PanelState :=
  if has_audio st then play (setAudio (mkAudio timestamp st.(audio).(a_paused)) st.(isPlaying) st) else st.

(** [handleTimeUpdate], the [onTimeUpdate] of TranscriptCards. *)
Definition handleTimeUpdate (time : Q) (st : PanelState) : PanelState :=
  if has_audio st then
    let st := setAudio (mkAudio time st.(audio).(a_paused)) st.(isPlaying) st in
    if negb st.(isPlaying) then play st else st
  else st.

(** The element's [timeupdate] listener: [audioElement.currentTime || 0]. *)
Definition onTimeUpdateEvent (st : PanelState) : PanelState :=
  setCurrentTime st.(audio).(a_currentTime) st.

(** The [ended] listener. *)
Definition handleEnded (st : PanelState) : PanelState :=
  setCurrentTime 0 (setAudio (mkAudio st.(audio).(a_currentTime) true) false st).

(** ** The transcription request (lines 138-192) *)

(** Lines 139-145 and the request of line 148. *)
Definition handleGetTranscript (st : PanelState) : PanelState :=
  if negb (truthy_opt st.(audioUrl)) then st else
  mkPanel st.(content) st.(audioUrl) true None [] None st.(isPlaying) st.(currentTime) false
          st.(audio) (st.(requests) ++ [st.(audioUrl)]).

(** [word.speaker ? parseInt(word.speaker) : undefined]. *)
Definition speaker_of (s : option Z) : option Z :=
  match s with Some z => if (z =? 0)%Z then None else Some z | None => None end.

(** The [map] callback of lines 166-172; [parseFloat] of a number is the
    number. *)
Definition to_word (w : RawWord) : Word :=
  mkWord (match w.(rw_punctuated_word) with Some p => if truthy p then p else w.(rw_word) | None => w.(rw_word) end)
         w.(rw_start) w.(rw_end) w.(rw_confidence) None (speaker_of w.(rw_speaker)).

Definition err_transcribe : jstr := lit "Failed to transcribe audio".
Definition err_invalid : jstr := lit "Invalid transcription response".

(** Lines 154-163: the transcript and words, or the error message. *)
Definition transcribe_result (rp : TranscribeReply) : jstr * list RawWord + jstr :=
  match rp with
  | TrFailed msg => inr msg
  | TrResponse false b =>
      inr (match b.(tb_error) with Some e => if truthy e then e else err_transcribe | None => err_transcribe end)
  | TrResponse true b =>
      match b.(tb_text), b.(tb_words) with
      | Some t, Some ws => if truthy t then inl (t, ws) else inr err_invalid
      | _, _ => inr err_invalid
      end
  end.

(** The continuation after the [await]s, for the request that was sent
    for [url]: lines 154-191, with the [finally]. *)
Definition handleTranscribeReply (url : option jstr) (rp : TranscribeReply) (st : PanelState)
    : PanelState * list WindowMessage :=
  let rest := list_remove_one url st.(requests) in
  match transcribe_result rp with
  | inl (t, ws) =>
      (mkPanel st.(content) st.(audioUrl) false (Some t) (map to_word ws) st.(transcriptError)
               st.(isPlaying) st.(currentTime) true st.(audio) rest, [TranscriptReady (Some t)])
  | inr e =>
      (mkPanel st.(content) st.(audioUrl) false st.(transcript) st.(words) (Some e)
               st.(isPlaying) st.(currentTime) false st.(audio) rest, [])
  end.

(** ** Window messages (lines 195-204) *)

(** [PLAY_AUDIO] with a truthy timestamp seeks and plays. *)
Definition handleMessage (m : WindowMessage) (st : PanelState) : PanelState :=
  match m with
  | PlayAudio ts => if truthy_num ts then handleAudioRequest ts st else st
  | _ => st
  end.

#[export] Instance panel_listener : Listener PanelState := handleMessage.

(** ** Rendering (lines 230-429) *)

(** The cards are shown (line 405), with these words, time and state. *)
Definition shows_cards (st : PanelState) : bool :=
  negb st.(isTranscribing) && truthy_opt st.(transcript) && (0 <? length st.(words)).

(** ** Events *)

Inductive PanelEvent :=
| SelectEpisode (c u : option jstr)          (* new props from page.tsx *)
| GenerateTranscript                         (* line 312 *)
| TranscribeArrive (url : option jstr) (rp : TranscribeReply)
| Window (m : WindowMessage)
| CardsSeek (time : Q)                       (* onTimeUpdate, line 410 *)
| NativePlay | NativePause | NativeSeek (t : Q) | Elapse (dt : Q) | Ended.

(** One event.  The generate button exists only with an audio URL and
    content and is disabled while transcribing; a reply arrives only for
    a request in flight; the native controls act on the element, which
    then fires its listeners. *)
Definition panel_step (e : PanelEvent) (st : PanelState) : PanelState * list WindowMessage :=
  match e with
  | SelectEpisode c u => if bool_decide (u = st.(audioUrl))
                         then (mkPanel c u st.(isTranscribing) st.(transcript) st.(words) st.(transcriptError)
                                       st.(isPlaying) st.(currentTime) st.(isTranscribed) st.(audio) st.(requests), [])
                         else (selectEpisode c u st, [])
  | GenerateTranscript =>
      if has_audio st && negb st.(isTranscribing) then (handleGetTranscript st, []) else (st, [])
  | TranscribeArrive url rp =>
      if bool_decide (url ∈ st.(requests)) then handleTranscribeReply url rp st else (st, [])
  | Window m => (handleMessage m st, [])
  | CardsSeek t => (handleTimeUpdate t st, [])
  | NativePlay => (if has_audio st then play st else st, [])
  | NativePause =>
      (if has_audio st then setAudio (mkAudio st.(audio).(a_currentTime) true) false st else st, [])
  | NativeSeek t =>
      (if has_audio st then onTimeUpdateEvent (setAudio (mkAudio t st.(audio).(a_paused)) st.(isPlaying) st)
       else st, [])
  | Elapse dt =>
      (if has_audio st && negb st.(audio).(a_paused) && Qle_bool 0 dt
       then onTimeUpdateEvent (setAudio (mkAudio (st.(audio).(a_currentTime) + dt) false) st.(isPlaying) st)
       else st, [])
  | Ended => (if has_audio st && negb st.(audio).(a_paused) then handleEnded st else st, [])
  end.

Definition panel_state (e : PanelEvent) (st : PanelState) : PanelState := (panel_step e st).1.

Inductive panel_reachable : PanelState -> Prop :=
| panel_reach_init c u : panel_reachable (panel_init c u)
| panel_reach_step e st : panel_reachable st -> panel_reachable (panel_state e st).

Fixpoint run_panel (es : list PanelEvent) (st : PanelState) : PanelState :=
  match es with [] => st | e :: es' => run_panel es' (panel_state e st) end.

(** The invariant of the transcription state. *)
Definition panel_inv (st : PanelState) : Prop :=
  (st.(isTranscribing) = true -> st.(audioUrl) ∈ st.(requests) /\ st.(transcript) = None /\ st.(words) = []) /\
  (st.(isTranscribed) = true -> truthy_opt st.(transcript) = true).

(** The player flag follows the element. *)
Definition player_inv (st : PanelState) : Prop := st.(isPlaying) = negb st.(audio).(a_paused).

(** ** A session: a transcription that answers after the user moved on *)

Definition episodeA : option jstr := Some (lit "https://example.com/a.mp3").
Definition episodeB : option jstr := Some (lit "https://example.com/b.mp3").
Definition notes : option jstr := Some (lit "<p>Show notes</p>").

Definition wordsA : list RawWord :=
  [mkRawWord (lit "hello") (Some (lit "Hello")) 0 (1#2) None (Some 0%Z);
   mkRawWord (lit "world") (Some (lit "world.")) (1#2) 1 None (Some 1%Z)].

Definition replyA : TranscribeReply :=
  TrResponse true (mkTranscribeBody None (Some (lit "Hello world.")) (Some wordsA)).

(** Episode A is opened and transcription requested, then episode B is
    opened before the answer comes. *)
Definition switched : PanelState :=
  run_panel [GenerateTranscript; SelectEpisode notes episodeB] (panel_init notes episodeA).

(** * Lemmas *)

Lemma panel_inv_selectEpisode c u st : panel_inv (selectEpisode c u st).
Proof. split; [done|]. unfold selectEpisode. done. Qed.

Lemma panel_inv_init c u : panel_inv (panel_init c u).
Proof. apply panel_inv_selectEpisode. Qed.

Lemma transcribe_result_ok rp t ws : transcribe_result rp = inl (t, ws) -> truthy t = true.
Proof.
  destruct rp as [[] [e [t'|] [ws'|]]|]; simpl; try discriminate.
  destruct (truthy t') eqn:E; [intros [= <- <-]; done|discriminate].
Qed.

Lemma panel_inv_reply url rp st : panel_inv st -> panel_inv (handleTranscribeReply url rp st).1.
Proof.
  intros [H1 H2]. unfold handleTranscribeReply.
  destruct (transcribe_result rp) as [[t ws]|e] eqn:E; split; simpl; try done.
  intros _. by apply transcribe_result_ok in E.
Qed.

(** The handlers of the player leave the transcription state alone. *)
Lemma panel_inv_player st a p : panel_inv st -> panel_inv (setAudio a p st).
Proof. by destruct st. Qed.

Lemma panel_inv_time st t : panel_inv st -> panel_inv (setCurrentTime t st).
Proof. by destruct st. Qed.

#[export] Hint Resolve panel_inv_selectEpisode panel_inv_reply panel_inv_player panel_inv_time : rss.

Lemma panel_inv_step e st : panel_inv st -> panel_inv (panel_state e st).
Proof.
  intros Hi. unfold panel_state, panel_step.
  destruct e; repeat case_match; simplify_eq/=; try done;
    unfold handleMessage, handleAudioRequest, handleTimeUpdate, play, onTimeUpdateEvent, handleEnded,
      handleGetTranscript in *;
    repeat case_match; simplify_eq/=; eauto 6 with rss.
  - match goal with H : bool_decide _ = true |- _ => apply bool_decide_eq_true in H end.
    subst. by destruct st.
  - split; [|done]. intros _. split; [|done]. apply elem_of_app. right. by apply list_elem_of_singleton.
Qed.

Lemma player_inv_step e st : player_inv st -> player_inv (panel_state e st).
Proof.
  unfold player_inv. intros Hi. unfold panel_state, panel_step.
  destruct e; repeat case_match; simplify_eq/=; try done;
    unfold selectEpisode, handleTranscribeReply, handleMessage, handleAudioRequest, handleTimeUpdate, play,
      onTimeUpdateEvent, handleEnded, handleGetTranscript in *;
    repeat (case_match; simplify_eq/=); nbool; try done; destruct (audio st) as [a []]; simpl in *; congruence.
Qed.

Lemma player_reachable st : panel_reachable st -> player_inv st.
Proof.
  induction 1 as [c u|]; [|by apply player_inv_step].
  unfold player_inv, panel_init, selectEpisode. simpl. by case_match.
Qed.

(** What [PLAY_AUDIO] does: a seek and play for a truthy timestamp,
    nothing for zero. *)
Lemma handleMessage_play ts st :
  has_audio st = true -> ~ (ts == 0)%Q ->
  handleMessage (PlayAudio ts) st = setAudio (mkAudio ts false) true st.
Proof.
  intros Ha Hz. simpl. destruct (truthy_num ts) eqn:E; [|by apply truthy_num_false in E].
  unfold handleAudioRequest. by rewrite Ha.
Qed.

Lemma handleMessage_play_zero ts st : (ts == 0)%Q -> handleMessage (PlayAudio ts) st = st.
Proof. intros Hz. simpl. destruct (truthy_num ts) eqn:E; [|done]. apply truthy_num_false in Hz. congruence. Qed.

Lemma run_panel_reachable es st : panel_reachable st -> panel_reachable (run_panel es st).
Proof. revert st. induction es as [|e es IH]; intros st H; [done|]. apply IH. by constructor. Qed.

(** * Properties *)

(** C17: in every reachable state, while a transcription is running the
    request for the current episode is in flight and no transcript or
    word is shown, and a transcribed panel has a non-empty transcript. *)
Theorem panel_reachable_inv st : panel_reachable st -> panel_inv st.
Proof. induction 1; [apply panel_inv_init | by apply panel_inv_step]. Qed.

(** A transcription answer is accepted exactly when the response is
    ok with a non-empty text and a word list; otherwise the error shown is
    the body's non-empty [error] for a failed response, "Failed to
    transcribe audio" if it has none, "Invalid transcription response" for
    an ok response without text or words, or the rejection's message. *)
Theorem transcribe_result_cases rp :
  (exists t ws e, rp = TrResponse true (mkTranscribeBody e (Some t) (Some ws)) /\ truthy t = true /\
                  transcribe_result rp = inl (t, ws)) \/
  (exists b, rp = TrResponse false b /\
     transcribe_result rp = inr (match b.(tb_error) with Some e => if truthy e then e else err_transcribe
                                                       | None => err_transcribe end)) \/
  (exists b, rp = TrResponse true b /\ (b.(tb_text) = None \/ b.(tb_words) = None \/ truthy_opt b.(tb_text) = false) /\
     transcribe_result rp = inr err_invalid) \/
  (exists msg, rp = TrFailed msg /\ transcribe_result rp = inr msg).
Proof.
  destruct rp as [[|] [e t ws]|msg].
  - destruct t as [t|]; [|right; right; left; eexists; split; [done|]; split; [auto|done]].
    destruct ws as [ws|]; [|right; right; left; eexists; split; [done|]; split; [auto|done]].
    destruct (truthy t) eqn:Ht; [left; exists t, ws, e; repeat split; simpl; by rewrite ?Ht|].
    right; right; left. eexists. split; [done|]. simpl. rewrite Ht. auto.
  - right; left. by eexists.
  - right; right; right. by eexists.
Qed.

(** C18: an answer to a transcription requested for another episode is
    still applied: after the user switched episodes, the old episode's
    words are shown under the new one and its transcript is announced to
    the chat. *)
Theorem stale_transcript_applied url rp st t ws :
  url ∈ requests st -> url <> audioUrl st -> transcribe_result rp = inl (t, ws) ->
  words (panel_state (TranscribeArrive url rp) st) = map to_word ws /\
  transcript (panel_state (TranscribeArrive url rp) st) = Some t /\
  audioUrl (panel_state (TranscribeArrive url rp) st) = audioUrl st /\
  (panel_step (TranscribeArrive url rp) st).2 = [TranscriptReady (Some t)].
Proof.
  intros Hin _ Hr. unfold panel_state, panel_step. rewrite bool_decide_eq_true_2 by done.
  unfold handleTranscribeReply. by rewrite Hr.
Qed.

(** A [PLAY_AUDIO] message with a non-zero timestamp moves the
    player to it and plays. *)
Theorem play_audio_seeks ts st :
  has_audio st = true -> ~ (ts == 0)%Q ->
  audio (handleMessage (PlayAudio ts) st) = mkAudio ts false /\ isPlaying (handleMessage (PlayAudio ts) st) = true.
Proof.
  intros Ha Hz. by rewrite handleMessage_play.
Qed.

(** In a reachable state, a seek from the transcript cards moves
    the player there and makes it play, whether it was playing or not. *)
Theorem cards_seek_plays t st :
  panel_reachable st -> has_audio st = true ->
  audio (panel_state (CardsSeek t) st) = mkAudio t false /\ isPlaying (panel_state (CardsSeek t) st) = true.
Proof.
  intros Hr Ha. apply player_reachable in Hr. unfold player_inv in Hr.
  unfold panel_state, panel_step, handleTimeUpdate. rewrite Ha. cbn.
  destruct (isPlaying st) eqn:E; cbn; [|done]. split; [|done].
  destruct (a_paused (audio st)); [discriminate|done].
Qed.

(** Opening another episode clears the transcript, its words and
    error, ends the transcription state and puts the time back to zero;
    the player is stopped at the start of the new audio. *)
Theorem select_episode_resets c u st :
  u <> audioUrl st ->
  transcript (panel_state (SelectEpisode c u) st) = None /\ words (panel_state (SelectEpisode c u) st) = [] /\
  transcriptError (panel_state (SelectEpisode c u) st) = None /\
  isTranscribing (panel_state (SelectEpisode c u) st) = false /\
  isTranscribed (panel_state (SelectEpisode c u) st) = false /\
  currentTime (panel_state (SelectEpisode c u) st) = 0%Q /\
  (has_audio (panel_state (SelectEpisode c u) st) = true ->
   audio (panel_state (SelectEpisode c u) st) = mkAudio 0 true /\ isPlaying (panel_state (SelectEpisode c u) st) = false).
Proof.
  intros Hu. unfold panel_state, panel_step. rewrite bool_decide_eq_false_2 by done.
  unfold selectEpisode, has_audio. simpl. repeat split; try done;
    match goal with H : (_ && _)%bool = true |- _ => by rewrite H end.
Qed.

(** ** Witnesses *)

Lemma panel_reachable_inv_witness : panel_reachable switched /\ panel_inv switched.
Proof.
  assert (H : panel_reachable switched) by apply run_panel_reachable, panel_reach_init.
  split; [exact H | apply (panel_reachable_inv switched H)].
Defined.

Lemma stale_transcript_applied_witness :
  words (panel_state (TranscribeArrive episodeA replyA) switched) = map to_word wordsA /\
  transcript (panel_state (TranscribeArrive episodeA replyA) switched) = Some (lit "Hello world.") /\
  audioUrl (panel_state (TranscribeArrive episodeA replyA) switched) = audioUrl switched /\
  (panel_step (TranscribeArrive episodeA replyA) switched).2 = [TranscriptReady (Some (lit "Hello world."))].
Proof.
  apply stale_transcript_applied; [apply (bool_decide_unpack _); vm_compute; reflexivity..|].
  vm_compute. reflexivity.
Defined.

Lemma play_audio_seeks_witness :
  audio (handleMessage (PlayAudio 135) (panel_init notes episodeA)) = mkAudio 135 false /\
  isPlaying (handleMessage (PlayAudio 135) (panel_init notes episodeA)) = true.
Proof. apply play_audio_seeks; [vm_compute; reflexivity | intros H; discriminate H]. Defined.

Lemma cards_seek_plays_witness :
  audio (panel_state (CardsSeek (7#2)) switched) = mkAudio (7#2) false /\
  isPlaying (panel_state (CardsSeek (7#2)) switched) = true.
Proof.
  apply cards_seek_plays; [apply run_panel_reachable, panel_reach_init | vm_compute; reflexivity].
Defined.

Lemma select_episode_resets_witness :
  transcript (panel_state (SelectEpisode notes episodeB) (panel_init notes episodeA)) = None /\
  words (panel_state (SelectEpisode notes episodeB) (panel_init notes episodeA)) = [] /\
  transcriptError (panel_state (SelectEpisode notes episodeB) (panel_init notes episodeA)) = None /\
  isTranscribing (panel_state (SelectEpisode notes episodeB) (panel_init notes episodeA)) = false /\
  isTranscribed (panel_state (SelectEpisode notes episodeB) (panel_init notes episodeA)) = false /\
  currentTime (panel_state (SelectEpisode notes episodeB) (panel_init notes episodeA)) = 0%Q /\
  (has_audio (panel_state (SelectEpisode notes episodeB) (panel_init notes episodeA)) = true ->
   audio (panel_state (SelectEpisode notes episodeB) (panel_init notes episodeA)) = mkAudio 0 true /\
   isPlaying (panel_state (SelectEpisode notes episodeB) (panel_init notes episodeA)) = false).
Proof. apply select_episode_resets. apply (bool_decide_unpack _). vm_compute. reflexivity. Defined.

End Panel.
