(* ===== verification/App.v ===== *)
(** * The chat bot and the player together

    layout.tsx renders AIChatBot.tsx next to the page, and page.tsx
    renders ContentPanel.tsx; the two share nothing but the window.  A message posted with
    [window.postMessage] is queued and later dispatched, in order, to
    every [message] listener of the window.  [AppState] is the two
    components' states and the queue; [app_step] runs one component event
    (queuing what it posts) or dispatches the oldest message to both
    listeners through the [Bridge.Listener] interface. *)

From S2P Require Import Prelude JsRuntime ChatRoute Bridge ChatBot Panel.

Module App.
Import Bridge.

#[local] Existing Instances ChatBot.chat_listener Panel.panel_listener.

(** ** Dispatch to every listener *)

Section Broadcast.
Context {A B : Type} `{Listener A} `{Listener B}.

Definition broadcast (m : WindowMessage) (ab : A * B) : A * B :=
  (on_message m ab.1, on_message m ab.2).

End Broadcast.

(** ** The page *)

Record AppState := mkApp {
  chat : ChatBot.ChatState;
  panel : Panel.PanelState;
  queue : list WindowMessage
}.

Inductive AppEvent :=
| ChatEv (e : ChatBot.ChatEvent)
| PanelEv (e : Panel.PanelEvent)
| Deliver.

Definition app_step (e : AppEvent) (s : AppState) : AppState :=
  match e with
  | ChatEv e => let '(c, _, posted) := ChatBot.chat_step e s.(chat) in mkApp c s.(panel) (s.(queue) ++ posted)
  | PanelEv e => let '(p, posted) := Panel.panel_step e s.(panel) in mkApp s.(chat) p (s.(queue) ++ posted)
  | Deliver =>
      match s.(queue) with
      | [] => s
      | m :: q => let '(c, p) := broadcast m (s.(chat), s.(panel)) in mkApp c p q
      end
  end.

Fixpoint run_app (es : list AppEvent) (s : AppState) : AppState :=
  match es with [] => s | e :: es' => run_app es' (app_step e s) end.

(** ** A session *)

(** Episode A is open with its notes; nothing has happened yet. *)
Definition app_init : AppState := mkApp ChatBot.chat_init (Panel.panel_init Panel.notes Panel.episodeA) [].

(** The transcript is made and announced, the chat opened, a summary
    asked for and answered with three bullet points, the first at 00:00. *)
Definition summarized : AppState :=
  run_app [PanelEv Panel.GenerateTranscript; PanelEv (Panel.TranscribeArrive Panel.episodeA Panel.replyA);
           Deliver; ChatEv ChatBot.ToggleOpen; ChatEv (ChatBot.TypeInput (lit "Summarize please"));
           ChatEv ChatBot.Submit; ChatEv (ChatBot.Arrive ChatBot.sample_reply)] app_init.

(** * Lemmas *)

Lemma deliver_one m c p : app_step Deliver (mkApp c p [m]) = mkApp (on_message m c) (on_message m p) [].
Proof. done. Qed.

(** A click on a bullet point of the open chat posts one [PLAY_AUDIO]
    with its timestamp and changes nothing in the panel. *)
Lemma click_posts c p i j b :
  ChatBot.isOpen c = true -> ChatBot.bullet_at c i j = Some b ->
  app_step (ChatEv (ChatBot.PlayBullet i j)) (mkApp c p []) =
    mkApp (ChatBot.setSelected (Some j) c) p [ChatBot.handleBulletPointClick (ChatRoute.timestamp b)].
Proof. intros Ho Hb. simpl. by rewrite Ho, Hb. Qed.

Lemma inject_nat_zero n : (inject_Z (Z.of_nat n) == 0)%Q <-> n = 0.
Proof. unfold Qeq. simpl. lia. Qed.

(** * Properties *)

(** C19: clicking the play button of a bullet point with a non-zero
    timestamp in the open chat, once the message is dispatched, moves the
    player to that second and plays it. *)
Theorem bullet_click_plays c p i j b :
  ChatBot.isOpen c = true -> ChatBot.bullet_at c i j = Some b -> Panel.has_audio p = true ->
  ChatRoute.timestamp b <> 0 ->
  Panel.audio (panel (run_app [ChatEv (ChatBot.PlayBullet i j); Deliver] (mkApp c p []))) =
    Panel.mkAudio (inject_Z (Z.of_nat (ChatRoute.timestamp b))) false /\
  Panel.isPlaying (panel (run_app [ChatEv (ChatBot.PlayBullet i j); Deliver] (mkApp c p []))) = true.
Proof.
  intros Ho Hb Ha Hz. cbn [run_app]. rewrite (click_posts c p i j b), deliver_one by done. cbn [panel].
  change (on_message ?m p) with (Panel.handleMessage m p). unfold ChatBot.handleBulletPointClick.
  rewrite Panel.handleMessage_play; [done|done|]. by rewrite inject_nat_zero.
Qed.

(** C20: a bullet point at [00:00] cannot be played: the chat marks it
    selected and posts [PLAY_AUDIO] with timestamp 0, which the panel's
    truthiness test discards, so the player does not move. *)
Theorem bullet_zero_ignored c p i j b :
  ChatBot.isOpen c = true -> ChatBot.bullet_at c i j = Some b -> ChatRoute.timestamp b = 0 ->
  panel (run_app [ChatEv (ChatBot.PlayBullet i j); Deliver] (mkApp c p [])) = p /\
  ChatBot.selectedBulletPoint (chat (run_app [ChatEv (ChatBot.PlayBullet i j); Deliver] (mkApp c p []))) = Some j.
Proof.
  intros Ho Hb Hz. cbn [run_app]. rewrite (click_posts c p i j b), deliver_one by done. cbn [panel chat].
  change (on_message ?m p) with (Panel.handleMessage m p). unfold ChatBot.handleBulletPointClick.
  rewrite Panel.handleMessage_play_zero by (rewrite Hz; reflexivity). split; [done|].
  change (on_message ?m ?c') with (ChatBot.handleMessage m c'). done.
Qed.

(** C21: when a transcription succeeds, the panel announces it and,
    once dispatched, the chat holds the transcript: its send button is
    then enabled exactly when it is not loading and the input is not
    blank. *)
Theorem transcript_ready_unlocks c p url rp t ws :
  url ∈ Panel.requests p -> Panel.transcribe_result rp = inl (t, ws) ->
  ChatBot.transcript (chat (run_app [PanelEv (Panel.TranscribeArrive url rp); Deliver] (mkApp c p []))) = Some t /\
  ChatBot.send_enabled (chat (run_app [PanelEv (Panel.TranscribeArrive url rp); Deliver] (mkApp c p []))) =
    negb (ChatBot.isLoading c) && truthy (trim (ChatBot.input c)).
Proof.
  intros Hin Hr. pose proof (Panel.transcribe_result_ok _ _ _ Hr) as Ht.
  cbn [run_app app_step]. unfold Panel.panel_step. rewrite bool_decide_eq_true_2 by done.
  unfold Panel.handleTranscribeReply. rewrite Hr. cbn. split; [done|].
  unfold ChatBot.send_enabled. simpl. by rewrite Ht, andb_true_r.
Qed.

(** ** Witnesses *)

Lemma bullet_click_plays_witness :
  Panel.audio (panel (run_app [ChatEv (ChatBot.PlayBullet 1 1); Deliver] (mkApp (chat summarized) (panel summarized) []))) =
    Panel.mkAudio (inject_Z (Z.of_nat 135)) false /\
  Panel.isPlaying (panel (run_app [ChatEv (ChatBot.PlayBullet 1 1); Deliver]
                                  (mkApp (chat summarized) (panel summarized) []))) = true.
Proof.
  apply (bullet_click_plays _ _ 1 1 (ChatRoute.mkBullet (lit "AI in healthcare") 135)); vm_compute; try reflexivity.
  discriminate.
Defined.

Lemma bullet_zero_ignored_witness :
  panel (run_app [ChatEv (ChatBot.PlayBullet 1 0); Deliver] (mkApp (chat summarized) (panel summarized) [])) =
    panel summarized /\
  ChatBot.selectedBulletPoint (chat (run_app [ChatEv (ChatBot.PlayBullet 1 0); Deliver]
                                             (mkApp (chat summarized) (panel summarized) []))) = Some 0.
Proof.
  apply (bullet_zero_ignored _ _ 1 0 (ChatRoute.mkBullet (lit "Opening remarks") 0)); vm_compute; reflexivity.
Defined.

Lemma transcript_ready_unlocks_witness :
  ChatBot.transcript (chat (run_app [PanelEv (Panel.TranscribeArrive Panel.episodeA Panel.replyA); Deliver]
                                    (mkApp ChatBot.chat_init Panel.switched []))) = Some (lit "Hello world.") /\
  ChatBot.send_enabled (chat (run_app [PanelEv (Panel.TranscribeArrive Panel.episodeA Panel.replyA); Deliver]
                                      (mkApp ChatBot.chat_init Panel.switched []))) =
    negb (ChatBot.isLoading ChatBot.chat_init) && truthy (trim (ChatBot.input ChatBot.chat_init)).
Proof.
  apply (transcript_ready_unlocks _ _ _ _ _ Panel.wordsA); [|vm_compute; reflexivity].
  apply (bool_decide_unpack _). vm_compute. reflexivity.
Defined.

End App.
