(* ===== verification/Transcribe.v ===== *)
(** * The transcription route: api/transcribe/route.ts

    [POST] checks the Deepgram key and the [audioUrl] of the body, loads
    the audio with [fetchAudioWithRedirects], sends it to Deepgram and
    answers with the transcript and its words, or with an error whose
    status and text depend on words found in the error's message.
    [fetchAudioWithRedirects] is a [while] loop: each round fetches the
    current URL and, when the answer is an HTML page whose first 100
    bytes contain a link to an [.mp3], starts again with that link.

    [fetch] and Deepgram are [Section] variables.  The loop is the
    [Fixpoint] [fetch_loop], which keeps the [while] condition and the
    [redirectCount] of the code and carries fuel of its own: out of fuel
    it returns [None], so that it ends is a theorem and not a
    consequence of the fuel.  [fetchAudioWithRedirects] runs it with
    [maxRedirects + 1]; [fetch_loop_fuel] shows that any fuel above
    [maxRedirects - redirectCount] gives the same answer and
    [fetch_loop_spec] that the loop returns within that many rounds.
    Each call returns the list of URLs it fetched with its result.
    [response.text()] decodes the page as UTF-8; the model takes the
    page as the characters it holds. *)

From S2P Require Import Prelude JsRuntime Chunker Panel.

Module Transcribe.
Import Panel.

(** ** The audio download (lines 112-171) *)

(** What [fetch] does: a response with [ok], [statusText] and the bytes
    of [arrayBuffer()], or a rejection with its message. *)
Inductive FetchOutcome :=
| FResponse (ok : bool) (statusText : jstr) (buffer : jstr)
| FError (message : jstr).

(** The class of line 142: any character but a double or a single quote. *)
Definition not_quote (c : ascii) : bool :=
  negb (nat_of_ascii c =? 34) && negb (nat_of_ascii c =? 39).

(** The pattern of line 142: [http], an optional [s], [://], the longest
    run of non-quote characters, then [.mp3]. *)
Definition mp3_link : matcher :=
  m_seq (m_word (lit "http"))
        (m_seq (m_opt (m_char "s"%char))
               (m_seq (m_word (lit "://"))
                      (m_seq (m_star_greedy not_quote) (m_word (lit ".mp3"))))).

(** [Buffer.from(buffer.slice(0, 100)).toString().trim().toLowerCase()]. *)
Definition firstBytes (buffer : jstr) : jstr := to_lower (trim (take 100 buffer)).

(** Line 139. *)
Definition looks_html (fb : jstr) : bool := includes (lit "<!doctype") fb || includes (lit "<html") fb.

(** [matches[0]], or [null]. *)
Definition html_link (fb : jstr) : option jstr := (fun bar => bar.1.2) <$> search mp3_link fb.

Definition err_html : jstr := lit "Received HTML instead of audio file".
Definition err_webpage : jstr := lit "URL points to a webpage instead of an audio file".
Definition err_loop_redirects : jstr := lit "Too many redirects while trying to fetch audio".
Definition err_redirects : jstr := lit "Too many redirects".

Section Fetch.

Variable fetch : jstr -> FetchOutcome.

(** How the [try] block of one round ends. *)
Inductive RoundEnd := Return (buffer : jstr) | Continue (url : jstr) | Throw (message : jstr).

(** Lines 118-154. *)
Definition try_round (maxRedirects : nat) (currentUrl : jstr) (redirectCount : nat) : RoundEnd :=
  match fetch currentUrl with
  | FError m => Throw m
  | FResponse ok statusText buffer =>
      if negb ok then Throw (lit "Failed to fetch audio: " ++ statusText) else
      let fb := firstBytes buffer in
      if looks_html fb then
        match html_link fb with
        | Some u => if redirectCount <? maxRedirects - 1 then Continue u else Throw err_html
        | None => Throw err_html
        end
      else Return buffer
  end.

(** The [catch] of lines 156-167. *)
Definition catch_round (maxRedirects redirectCount : nat) (m : jstr) : jstr :=
  if includes (lit "HTML") m then err_webpage
  else if maxRedirects <=? redirectCount then err_loop_redirects
  else m.

(** The [while] loop of lines 116-170 from the round with counter
    [redirectCount]: the result and the URLs fetched, or [None] when the
    fuel runs out before the loop ends.  The fuel bounds the rounds
    only; the loop stops by its own guard and counter. *)
Fixpoint fetch_loop (maxRedirects fuel : nat) (currentUrl : jstr) (redirectCount : nat)
    : option ((jstr + jstr) * list jstr) :=
  match fuel with
  | 0 => None
  | S f =>
      if redirectCount <? maxRedirects then
        match try_round maxRedirects currentUrl redirectCount with
        | Return b => Some (inl b, [currentUrl])
        | Continue u => (fun r => (r.1, currentUrl :: r.2)) <$> fetch_loop maxRedirects f u (S redirectCount)
        | Throw m => Some (inr (catch_round maxRedirects redirectCount m), [currentUrl])
        end
      else Some (inr err_redirects, [])
  end.

(** [fetchAudioWithRedirects(url, maxRedirects)]: [inl] the audio, [inr]
    the message of the [Error] it throws.  [maxRedirects + 1] rounds of
    fuel are enough ([fetchAudio_rounds]), so the default is never
    taken. *)
Definition fetchAudioWithRedirects (url : jstr) (maxRedirects : nat) : (jstr + jstr) * list jstr :=
  default (inr err_redirects, []) (fetch_loop maxRedirects (S maxRedirects) url 0).

End Fetch.

(** ** The handler (lines 4-110) *)

(** A word as Deepgram gives it. *)
Record DGWord := mkDGWord {
  dg_word : jstr;
  dg_punctuated_word : option jstr;
  dg_start : Q;
  dg_end : Q;
  dg_confidence : option Q;
  dg_speaker : option Z
}.

(** [transcribeFile] resolves with the first alternative of the first
    channel, if there is one, or rejects with a message. *)
Inductive DGOutcome := DGResult (alternative : option (jstr * list DGWord)) | DGError (message : jstr).

(** The request body: [req.json()] fails, or gives [audioUrl]. *)
Inductive ReqBody := BadJson (message : jstr) | Body (audioUrl : option jstr).

Record TrResponse := mkTr { tr_status : nat; tr_body : TranscribeBody }.

Definition err_config : jstr := lit "Transcription service configuration error. Please check API key.".
Definition err_url : jstr := lit "Audio URL is required".
Definition err_empty : jstr := lit "Empty audio file received".
Definition err_noresult : jstr := lit "No transcription results available".
Definition err_key : jstr := lit "Invalid Deepgram API key. Please check your configuration.".
Definition err_page : jstr := lit "Invalid audio URL: URL points to a webpage instead of an audio file".
Definition err_reach : jstr := lit "Could not reach the audio file: too many redirects".

Definition error_response (status : nat) (e : jstr) : TrResponse :=
  mkTr status (mkTranscribeBody (Some e) None None).

(** The [catch] of lines 73-109 for an [Error] with message [m]. *)
Definition classify (m : jstr) : TrResponse :=
  if includes (lit "Invalid credentials") m || includes (lit "401") m then error_response 401 err_key
  else if includes (lit "HTML") m || includes (lit "webpage") m then error_response 400 err_page
  else if includes (lit "Too many redirects") m then error_response 400 err_reach
  else error_response 500 (lit "Transcription failed: " ++ m).

(** Lines 64-70: the words sent to the panel. *)
Definition route_word (w : DGWord) : RawWord :=
  mkRawWord (match w.(dg_punctuated_word) with Some p => if truthy p then p else w.(dg_word) | None => w.(dg_word) end)
            None w.(dg_start) w.(dg_end) w.(dg_confidence) w.(dg_speaker).

Section Post.

Variable fetch : jstr -> FetchOutcome.
Variable transcribeFile : jstr -> DGOutcome.

(** [POST]. *)
Definition POST (deepgramApiKey : option jstr) (req : ReqBody) : TrResponse :=
  if negb (truthy_opt deepgramApiKey) then error_response 500 err_config else
  match req with
  | BadJson m => classify m
  | Body None => error_response 400 err_url
  | Body (Some audioUrl) =>
      if negb (truthy audioUrl) then error_response 400 err_url else
      match (fetchAudioWithRedirects fetch audioUrl 5).1 with
      | inr m => classify m
      | inl audioBuffer =>
          if negb (truthy audioBuffer) then classify err_empty else
          match transcribeFile audioBuffer with
          | DGError m => classify m
          | DGResult None => classify err_noresult
          | DGResult (Some (t, ws)) =>
              mkTr 200 (mkTranscribeBody None (Some t) (Some (map route_word ws)))
          end
      end
  end.

End Post.

(** ** A podcast page that links to its audio *)

Definition page_url : jstr := lit "https://podcast.example/episode-1".
Definition audio_url : jstr := lit "https://cdn.example.com/Episode1.mp3".

(** The page links to the audio file, whose name has capitals; the
    server's paths are case-sensitive. *)
Definition demo_fetch (u : jstr) : FetchOutcome :=
  if bool_decide (u = page_url) then
    FResponse true (lit "OK") (lit "<!DOCTYPE html><html><body><a href='https://cdn.example.com/Episode1.mp3'>")
  else if bool_decide (u = audio_url) then FResponse true (lit "OK") (lit "ID3 audio frames")
  else FResponse false (lit "Not Found") [].

(** The errors the loop can end with: the web page error, a failed
    status, or the message of a rejected [fetch]. *)
Definition loop_error (fetch : jstr -> FetchOutcome) (e : jstr) : Prop :=
  e = err_webpage \/ (exists st, e = lit "Failed to fetch audio: " ++ st) \/ (exists u, fetch u = FError e).

(** * Lemmas *)

Lemma mp3_link_sound : msound mp3_link.
Proof. unfold mp3_link. eauto 10 with rss. Qed.

(** A link found in the first bytes is in lower case. *)
Lemma html_link_lower buffer u : html_link (firstBytes buffer) = Some u -> to_lower u = u.
Proof.
  unfold html_link. destruct (search mp3_link _) as [[[b a] r]|] eqn:E; [|done].
  intros [= <-]. apply search_sound in E; [|apply mp3_link_sound].
  apply (to_lower_infix b a r). rewrite <- E. unfold firstBytes. apply to_lower_idem.
Qed.

Section FetchLemmas.
Variable fetch : jstr -> FetchOutcome.

Lemma try_round_continue mx url rc u :
  try_round fetch mx url rc = Continue u -> to_lower u = u /\ rc < mx - 1.
Proof.
  unfold try_round. destruct (fetch url) as [ok st buffer|m]; [|done].
  destruct (negb ok); [done|]. destruct (looks_html _); [|done].
  destruct (html_link _) as [u'|] eqn:E; [|done].
  destruct (rc <? mx - 1) eqn:Hrc; [|done]. intros [= <-]. nbool. split; [|done].
  by apply html_link_lower in E.
Qed.

Lemma try_round_throw mx url rc m :
  try_round fetch mx url rc = Throw m ->
  m = err_html \/ (exists st, m = lit "Failed to fetch audio: " ++ st) \/ fetch url = FError m.
Proof.
  unfold try_round. destruct (fetch url) as [ok st buffer|m']; [|intros [= ->]; auto].
  destruct (negb ok); [intros [= <-]; eauto|]. destruct (looks_html _); [|done].
  destruct (html_link _); [destruct (_ <? _)|]; intros [= <-]; auto.
Qed.

(** What a round that throws makes of the error, before the loop's last
    round. *)
Lemma catch_round_early mx rc m :
  rc < mx -> catch_round mx rc m = if includes (lit "HTML") m then err_webpage else m.
Proof. intros H. unfold catch_round. destruct (includes _ _); [done|]. by replace (mx <=? rc) with false by (symmetry; apply Nat.leb_gt; lia). Qed.

(** The loop's result does not depend on the fuel once it exceeds
    the rounds the counter allows. *)
Lemma fetch_loop_fuel mx : forall f g url rc,
  mx - rc < f -> mx - rc < g -> fetch_loop fetch mx f url rc = fetch_loop fetch mx g url rc.
Proof.
  induction f as [|f IH]; intros [|g] url rc Hf Hg; [lia..|]. simpl.
  destruct (rc <? mx) eqn:Hrc; [|done]. nbool.
  destruct (try_round fetch mx url rc) as [b|u|m] eqn:Er; [done| |done].
  apply try_round_continue in Er as [_ Hlt]. rewrite (IH g); [done|lia|lia].
Qed.

Lemma fetch_loop_spec mx : forall f url rc,
  mx - rc < f -> rc < mx ->
  exists r us, fetch_loop fetch mx f url rc = Some (r, us) /\
    1 <= length us <= mx - rc /\ head us = Some url /\ Forall (fun u => to_lower u = u) (tail us) /\
    (forall e, r = inr e -> loop_error fetch e).
Proof.
  induction f as [|f IH]; intros url rc Hf Hrc; [lia|]. simpl.
  replace (rc <? mx) with true by (symmetry; by apply Nat.ltb_lt).
  destruct (try_round fetch mx url rc) as [b|u|m] eqn:Er.
  - eexists _, _. split; [done|]. split; [simpl; lia|]. split; [done|]. split; [constructor|]. by intros ? [=].
  - apply try_round_continue in Er as [Hl Hlt].
    destruct (IH u (S rc) ltac:(lia) ltac:(lia)) as (r & us & -> & [H1 H2] & H3 & H4 & H5). simpl.
    destruct us as [|u' us]; simpl in H1, H2; [lia|]. simpl in H3. injection H3 as ->.
    eexists _, _. split; [done|]. split; [simpl; lia|]. split; [done|]. split; [by constructor|exact H5].
  - eexists _, _. split; [done|]. split; [simpl; lia|]. split; [done|]. split; [constructor|].
    intros e [= <-]. rewrite catch_round_early by lia.
    apply try_round_throw in Er as [->|[[st ->]|Hf']].
    + by left.
    + destruct (includes _ _); [by left|]. right. left. eauto.
    + destruct (includes _ _); [by left|]. right. right. eauto.
Qed.

End FetchLemmas.

(** * Properties *)

(** C22: [fetchAudioWithRedirects] terminates: with any fuel beyond
    [maxRedirects] rounds the loop ends by its own guard and counter,
    with the same result, after at most [maxRedirects] fetches, the
    first of the URL it was given. *)
Theorem fetchAudio_rounds fetch url mx fuel :
  0 < mx -> mx < fuel ->
  exists r us, fetch_loop fetch mx fuel url 0 = Some (r, us) /\
    fetchAudioWithRedirects fetch url mx = (r, us) /\ 1 <= length us <= mx /\ head us = Some url.
Proof.
  intros H Hf. destruct (fetch_loop_spec fetch mx fuel url 0 ltac:(lia) H) as (r & us & E & Hl & Hh & _).
  exists r, us. split; [done|]. split; [|split; [lia|done]].
  unfold fetchAudioWithRedirects. by rewrite (fetch_loop_fuel fetch mx (S mx) fuel url 0), E by lia.
Qed.

(** The loop never fails with its own "Too many redirects" errors:
    every error it throws is the web page error, a failed status, or the
    message of a rejected [fetch]. *)
Theorem fetchAudio_errors fetch url mx e :
  0 < mx -> (fetchAudioWithRedirects fetch url mx).1 = inr e -> loop_error fetch e.
Proof.
  intros H He. destruct (fetch_loop_spec fetch mx (S mx) url 0 ltac:(lia) H) as (r & us & E & _ & _ & _ & Hs).
  unfold fetchAudioWithRedirects in He. rewrite E in He. by apply Hs.
Qed.

(** C23: every link the loop follows is in lower case: it is read from
    the lower-cased first bytes of the page, so a link to a file whose
    name has capitals is fetched under another name. *)
Theorem followed_links_lowercase fetch url mx :
  Forall (fun u => to_lower u = u) (tail (fetchAudioWithRedirects fetch url mx).2).
Proof.
  destruct mx as [|mx]; [constructor|].
  destruct (fetch_loop_spec fetch (S mx) (S (S mx)) url 0 ltac:(lia) ltac:(lia)) as (r & us & E & _ & _ & Hl & _).
  unfold fetchAudioWithRedirects. by rewrite E.
Qed.

(** ** Witnesses and examples *)

(** The page is fetched, then the lower-cased link, which does not exist. *)
Example demo_trace :
  fetchAudioWithRedirects demo_fetch page_url 5 =
    (inr (lit "Failed to fetch audio: Not Found"), [page_url; lit "https://cdn.example.com/episode1.mp3"]).
Proof. vm_compute. reflexivity. Qed.

Example demo_POST :
  POST demo_fetch (fun _ => DGResult None) (Some (lit "key")) (Body (Some page_url)) =
    error_response 500 (lit "Transcription failed: Failed to fetch audio: Not Found").
Proof. vm_compute. reflexivity. Qed.

Lemma fetchAudio_rounds_witness :
  exists r us, fetch_loop demo_fetch 5 100 page_url 0 = Some (r, us) /\
    fetchAudioWithRedirects demo_fetch page_url 5 = (r, us) /\ 1 <= length us <= 5 /\ head us = Some page_url.
Proof. apply fetchAudio_rounds; lia. Defined.

Lemma fetchAudio_errors_witness : loop_error demo_fetch (lit "Failed to fetch audio: Not Found").
Proof. apply (fetchAudio_errors demo_fetch page_url 5); [lia | vm_compute; reflexivity]. Defined.

End Transcribe.
