(* ===== verification/RssRoute.v ===== *)
(** * The feed route: api/rss/route.ts

    [POST] reads [feedUrl] from the body, downloads it with axios, parses
    it with rss-parser and answers with the feed's title, description and
    its first 25 items, each reduced to the [FeedItem] shape that
    page.tsx, Sidebar.tsx and FeedList.tsx declare.  The download and the
    parser are [Section] variables; their failures are [None].  The
    [FeedItem] record and the answer's shape are shared with FeedList.v
    and Feeds.v. *)

From S2P Require Import Prelude JsRuntime.

Module RssRoute.

(** ** Data *)

Record Enclosure := mkEnclosure { enc_url : jstr; enc_type : option jstr }.

(** An item as rss-parser gives it, with the custom fields of lines
    5-12 ([content:encoded] read as [content]). *)
Record ParsedItem := mkParsedItem {
  p_guid : option jstr;
  p_link : option jstr;
  p_title : option jstr;
  p_description : option jstr;
  p_contentSnippet : option jstr;
  p_content : option jstr;
  p_pubDate : option jstr;
  p_isoDate : option jstr;
  p_enclosure : option Enclosure
}.

Record ParsedFeed := mkParsedFeed {
  pf_title : option jstr;
  pf_description : option jstr;
  pf_items : list ParsedItem
}.

(** [interface FeedItem] (page.tsx 10-22, FeedList.tsx 5-17). *)
Record FeedItem := mkFeedItem {
  id : option jstr;
  title : option jstr;
  description : jstr;
  content : jstr;
  date : option jstr;
  link : option jstr;
  feedName : option jstr;
  enclosure : option Enclosure
}.

(** The JSON bodies the route answers with. *)
Inductive RssBody :=
| RssError (error : jstr)
| RssFeed (title description : option jstr) (items : list FeedItem).

Record RssResponse := mkRss { rss_status : nat; rss_body : RssBody }.

(** [response.ok] of the client. *)
Definition rss_ok (r : RssResponse) : bool := (200 <=? r.(rss_status)) && (r.(rss_status) <? 300).

Definition MAX_ITEMS : nat := 25.

(** The [map] callback of lines 26-34. *)
Definition to_item (it : ParsedItem) : FeedItem :=
  mkFeedItem (or_str it.(p_guid) it.(p_link)) it.(p_title)
             (default [] (or_str it.(p_description) it.(p_contentSnippet)))
             (default [] (or_str it.(p_content) it.(p_description)))
             (or_str it.(p_pubDate) it.(p_isoDate)) it.(p_link) None it.(p_enclosure).

Definition err_invalid_url : jstr := lit "Invalid feed URL".
Definition err_fetch : jstr := lit "Failed to fetch RSS feed".

Section Post.

(** [axios.get(feedUrl)] then [response.data], and [parser.parseString]. *)
Variable get : jstr -> option jstr.
Variable parseString : jstr -> option ParsedFeed.

(** [POST]; [req = None] is a body that [request.json()] rejects. *)
Definition POST (req : option (option jstr)) : RssResponse :=
  match req with
  | None => mkRss 500 (RssError err_fetch)
  | Some feedUrl =>
      match feedUrl with
      | Some u =>
          if negb (truthy u) then mkRss 400 (RssError err_invalid_url) else
          match get u ≫= parseString with
          | Some feed => mkRss 200 (RssFeed feed.(pf_title) feed.(pf_description)
                                            (map to_item (take MAX_ITEMS feed.(pf_items))))
          | None => mkRss 500 (RssError err_fetch)
          end
      | None => mkRss 400 (RssError err_invalid_url)
      end
  end.

End Post.

(** ** A feed listed oldest first *)

Definition parsed_at (d : nat) : ParsedItem :=
  mkParsedItem (Some (number_toString d)) None (Some (number_toString d)) None None None (Some (number_toString d)) None None.

(** Thirty items dated 1 to 30, in that order. *)
Definition oldest_first : ParsedFeed := mkParsedFeed (Some (lit "Old first")) None (map parsed_at (seq 1 30)).

Definition oldest_get (u : jstr) : option jstr := Some u.
Definition oldest_parse (x : jstr) : option ParsedFeed := Some oldest_first.

(** ** Properties *)

(** C36: every answer of the route is a feed with at most 25 items and
    status 200, or an error message with status 400 or 500. *)
Theorem POST_response_shape get parseString req :
  (rss_status (POST get parseString req) = 200 /\
   exists t d its, rss_body (POST get parseString req) = RssFeed t d its /\ length its <= MAX_ITEMS) \/
  ((rss_status (POST get parseString req) = 400 \/ rss_status (POST get parseString req) = 500) /\
   exists e, rss_body (POST get parseString req) = RssError e).
Proof.
  unfold POST. destruct req as [[u|]|]; [|right; eauto..].
  destruct (truthy u); simpl; [|right; eauto].
  destruct (get u ≫= parseString) as [feed|]; [left|right; eauto].
  split; [done|]. do 3 eexists. split; [done|]. rewrite length_map, length_take. lia.
Qed.

(** The answer holds the items dated 1 to 25, not 6 to 30. *)
Example oldest_first_kept :
  option_map (fun r => match rss_body r with RssFeed _ _ its => map date its | RssError _ => [] end)
    (Some (POST oldest_get oldest_parse (Some (Some (lit "https://old.example/rss"))))) =
  Some (map (fun d => Some (number_toString d)) (seq 1 25)).
Proof. vm_compute. reflexivity. Qed.

End RssRoute.
