(* ===== verification/FeedList.v ===== *)
(** * The episode list: components/FeedList.tsx

    The list shows the items of the selected feed, or for "all" the 25
    most recent items of every feed, and reloads them whenever its props
    [selectedFeed] and [allFeeds] change.  [FeedListState] holds the
    props, the state hooks (lines 33-35) and the loads in flight, each
    with the selection and feed list it was started for.  A load ends with
    the route's answer for each of its feeds ([Promise.all] keeps their
    order).  [new Date(s).getTime()] is the [Section] variable [date_ms],
    [None] for an invalid date ([NaN]).  React compares the effect's
    dependencies with [Object.is]; [fl_step] compares them structurally.
    The selection the page passes is ['all'] or an element of its feed
    list, and every [setFeeds] changes the list's contents, so the two
    agree except on two distinct but equal feeds (a URL added twice):
    switching between them reloads the same URL in the browser and
    nothing here.

    [render] is what the component returns: a prompt, a spinner, the
    error, or one card per item.  [toLocaleDateString] and [new URL]
    are [Section] variables, the latter [None] when the constructor
    throws.  The description goes through [replace_all] with [tag_re],
    the model of [/<[^>]*>/g]; [search_tag] and [strip_tags_go] show that
    it removes each [<] with the text up to the next [>], in one pass. *)

From S2P Require Import Prelude JsRuntime JsArray RssRoute.
From stdpp Require Import sorting.

Module FeedList.
Import RssRoute.

(** ** Data *)

(** [interface Feed] (page.tsx 24-28). *)
Record Feed := mkFeed { feed_id : jstr; name : jstr; url : jstr }.

#[export] Instance Feed_eq_dec : EqDecision Feed.
Proof. solve_decision. Defined.

(** [selectedFeed]: ['all'] or one feed ([undefined] is [None]). *)
Inductive Selection := All | One (f : Feed).

#[export] Instance Selection_eq_dec : EqDecision Selection.
Proof. solve_decision. Defined.

(** A load started by the effect, for this selection and feed list. *)
Record Load := mkLoad { ld_sel : Selection; ld_feeds : list Feed }.

Record FeedListState := mkFL {
  selectedFeed : option Selection;
  allFeeds : list Feed;
  items : list FeedItem;
  loading : bool;
  error : jstr;
  inflight : list Load
}.

Definition fl_init (sel : option Selection) (feeds : list Feed) : FeedListState :=
  mkFL sel feeds [] false [] [].

(** [{ ...item, feedName: feed.name }]. *)
Definition with_feedName (n : jstr) (it : FeedItem) : FeedItem :=
  mkFeedItem it.(id) it.(title) it.(description) it.(content) it.(date) it.(link) (Some n) it.(enclosure).

(** [fetchFeed] (lines 43-64) given the answer to its request ([None]
    when [fetch] rejects): the feed's items tagged with its name, or no
    item on any failure. *)
Definition fetchFeed (resp : option RssResponse) (feed : Feed) : list FeedItem :=
  match resp with
  | Some r =>
      if rss_ok r then
        match r.(rss_body) with
        | RssFeed _ _ its => map (with_feedName feed.(name)) its
        | RssError _ => []
        end
      else []
  | None => []
  end.

Section Dates.

Variable date_ms : jstr -> option Z.

(** [new Date(item.date).getTime()]. *)
Definition item_time (it : FeedItem) : option Z := it.(date) ≫= date_ms.

(** The comparator of line 77; a [NaN] difference counts as [0]. *)
Definition by_date (a b : FeedItem) : Z :=
  match item_time b, item_time a with
  | Some tb, Some ta => (tb - ta)%Z
  | _, _ => 0%Z
  end.

(** The key it sorts by when every date is valid. *)
Definition time_key (it : FeedItem) : Z := default 0%Z (item_time it).

(** Lines 73-79: every feed's items, newest first, the first 25. *)
Definition merge_all (rs : list (option RssResponse)) (feeds : list Feed) : list FeedItem :=
  take MAX_ITEMS (js_sort by_date (concat (zip_with fetchFeed rs feeds))).

(** What a finished load sets as [items] (lines 71-83). *)
Definition load_result (ld : Load) (rs : list (option RssResponse)) : list FeedItem :=
  match ld.(ld_sel) with
  | All => merge_all rs ld.(ld_feeds)
  | One f => fetchFeed (match rs with r :: _ => r | [] => None end) f
  end.

(** The effect of lines 37-93 for new props. *)
Definition props_effect (sel : option Selection) (feeds : list Feed) (st : FeedListState) : FeedListState :=
  match sel with
  | None => mkFL sel feeds [] st.(loading) st.(error) st.(inflight)
  | Some s => mkFL sel feeds st.(items) true [] (st.(inflight) ++ [mkLoad s feeds])
  end.

(** The end of load [i] of the loads in flight, with the [finally]. *)
Definition load_done (i : nat) (rs : list (option RssResponse)) (st : FeedListState) : FeedListState :=
  match st.(inflight) !! i with
  | Some ld =>
      if bool_decide (length rs = match ld.(ld_sel) with All => length ld.(ld_feeds) | One _ => 1 end) then
        mkFL st.(selectedFeed) st.(allFeeds) (load_result ld rs) false st.(error) (delete i st.(inflight))
      else st
  | None => st
  end.

Inductive FeedListEvent :=
| Props (sel : option Selection) (feeds : list Feed)
| LoadDone (i : nat) (rs : list (option RssResponse)).

(** The effect runs again when a dependency changes. *)
Definition fl_step (e : FeedListEvent) (st : FeedListState) : FeedListState :=
  match e with
  | Props sel feeds =>
      if bool_decide (sel = st.(selectedFeed) /\ feeds = st.(allFeeds)) then st
      else props_effect sel feeds st
  | LoadDone i rs => load_done i rs st
  end.

(** The effect also runs when the list is mounted. *)
Definition fl_mount (sel : option Selection) (feeds : list Feed) : FeedListState :=
  props_effect sel feeds (fl_init sel feeds).

Fixpoint run_fl (es : list FeedListEvent) (st : FeedListState) : FeedListState :=
  match es with [] => st | e :: es' => run_fl es' (fl_step e st) end.

End Dates.

(** ** Rendering (lines 95-206) *)

(** [/<[^>]*>/]. *)
Definition tag_re : matcher :=
  m_seq (m_char "<"%char) (m_seq (m_star_greedy (fun c => negb (Ascii.eqb c ">"%char))) (m_char ">"%char)).

(** [item.description.replace(/<[^>]*>/g, '')] (line 190). *)
Definition strip_tags (s : jstr) : jstr := replace_all tag_re [] s.

(** One episode card (lines 156-200). *)
Record ItemCard := mkCard {
  card_key : option jstr;          (** [key={item.id}] *)
  card_selected : bool;            (** [selectedItemId === item.id] *)
  card_title : option jstr;
  card_date : jstr;
  card_feedName : option jstr;     (** shown in the "all" view when truthy *)
  card_text : jstr;                (** the description without tags *)
  card_host : option jstr          (** shown when [item.link] is truthy *)
}.

Inductive FeedListView :=
| PickFeed                                          (** lines 95-106 *)
| LoadingView                                       (** lines 108-119 *)
| ErrorView (error : jstr)                          (** lines 121-138 *)
| Episodes (heading summary : jstr) (cards : list ItemCard).

Section Render.

(** [new Date(item.date).toLocaleDateString('en-US', ...)] and
    [new URL(item.link).hostname], [None] when the constructor throws. *)
Variable locale_date : option jstr -> jstr.
Variable url_hostname : jstr -> option jstr.

(** One card; [None] when rendering it throws. *)
Definition render_card (sel : Selection) (selectedItemId : option jstr) (it : FeedItem) : option ItemCard :=
  let host := match it.(link) with
              | Some l => if truthy l then Some <$> url_hostname l else Some None
              | None => Some None
              end in
  (fun h => mkCard it.(id) (bool_decide (selectedItemId = it.(id))) it.(title) (locale_date it.(date))
                   (match sel with All => if truthy_opt it.(feedName) then it.(feedName) else None | One _ => None end)
                   (strip_tags it.(description)) h) <$> host.

Definition heading (sel : Selection) : jstr :=
  match sel with All => lit "All Feeds" | One f => f.(name) end.

Definition summary (sel : Selection) (st : FeedListState) : jstr :=
  match sel with
  | All => lit "Latest " ++ number_toString (length st.(items)) ++ lit " items from " ++
           number_toString (length st.(allFeeds)) ++ lit " feeds"
  | One _ => number_toString (length st.(items)) ++ lit " items"
  end.

(** The component's output; [None] when rendering throws. *)
Definition render (selectedItemId : option jstr) (st : FeedListState) : option FeedListView :=
  match st.(selectedFeed) with
  | None => Some PickFeed
  | Some sel =>
      if st.(loading) then Some LoadingView
      else if truthy st.(error) then Some (ErrorView st.(error))
      else Episodes (heading sel) (summary sel st) <$> mapM (render_card sel selectedItemId) st.(items)
  end.

(** Every truthy link of the items is one the [URL] constructor takes. *)
Definition links_parse (its : list FeedItem) : bool :=
  forallb (fun it => match it.(link) with Some l => negb (truthy l) || matched (url_hostname l) | None => true end) its.

End Render.

(** The text after the first [>], and the text before it. *)
Fixpoint split_gt (s : jstr) : option (jstr * jstr) :=
  match s with
  | [] => None
  | c :: s' => if Ascii.eqb c ">"%char then Some ([], s') else (fun uv => (c :: uv.1, uv.2)) <$> split_gt s'
  end.

(** Where [tag_re] matches first: the first [<] followed by a [>]. *)
Fixpoint find_tag (s : jstr) : option (jstr * jstr * jstr) :=
  match s with
  | [] => None
  | c :: s' =>
      if Ascii.eqb c "<"%char then (fun uv => ([], c :: uv.1 ++ [">"%char], uv.2)) <$> split_gt s'
      else (fun bar => (c :: bar.1.1, bar.1.2, bar.2)) <$> find_tag s'
  end.

(** A one-pass reading of the global replace: [buf] holds the text since
    an open [<]; a [>] drops it, the end of the text keeps it. *)
Fixpoint strip_go (buf : option jstr) (s : jstr) : jstr :=
  match s, buf with
  | [], None => []
  | [], Some b => b
  | c :: s', None => if Ascii.eqb c "<"%char then strip_go (Some [c]) s' else c :: strip_go None s'
  | c :: s', Some b => if Ascii.eqb c ">"%char then strip_go None s' else strip_go (Some (b ++ [c])) s'
  end.

(** ** Two feeds *)

(** [new URL(link).hostname] for absolute https links only. *)
Definition demo_hostname (l : jstr) : option jstr :=
  if starts_with (lit "https://") l then Some (drop 8 l) else None.

(** Dates are written as numbers of seconds. *)
Definition demo_date (s : jstr) : option Z := Z.of_nat <$> js_Number s.

Definition feedA : Feed := mkFeed (lit "a") (lit "Feed A") (lit "https://a.example/rss").
Definition feedB : Feed := mkFeed (lit "b") (lit "Feed B") (lit "https://b.example/rss").

Definition item_at (i d : string) : FeedItem :=
  mkFeedItem (Some (lit i)) (Some (lit i)) [] [] (Some (lit d)) None None None.

Definition answerA : RssResponse :=
  mkRss 200 (RssFeed None None [item_at "a1" "30"; item_at "a2" "10"]).
Definition answerB : RssResponse :=
  mkRss 200 (RssFeed None None [item_at "b1" "20"; item_at "b2" "40"]).

(** Feed A is shown, then the user picks feed B before A's items come. *)
Definition switched : FeedListState :=
  fl_step demo_date (Props (Some (One feedB)) [feedA; feedB]) (fl_mount (Some (One feedA)) [feedA; feedB]).

(** * Lemmas *)

Section DateLemmas.
Variable date_ms : jstr -> option Z.

(** On items with valid dates the comparator is a difference of keys. *)
Lemma by_date_valid l :
  Forall (fun it => is_Some (item_time date_ms it)) l ->
  forall x y, x ∈ l -> y ∈ l -> by_date date_ms x y = desc_by (time_key date_ms) x y.
Proof.
  intros Hv x y Hx Hy. rewrite Forall_forall in Hv.
  destruct (Hv x Hx) as [tx Ex], (Hv y Hy) as [ty Ey].
  unfold by_date, desc_by, time_key. by rewrite Ex, Ey.
Qed.

Lemma js_sort_by_date l :
  Forall (fun it => is_Some (item_time date_ms it)) l ->
  js_sort (by_date date_ms) l = js_sort (desc_by (time_key date_ms)) l.
Proof. intros Hv. apply js_sort_ext. by apply by_date_valid. Qed.

End DateLemmas.

(** ** The tag pattern *)

Lemma split_gt_none s : split_gt s = None <-> ">"%char ∉ s.
Proof.
  induction s as [|c s IH]; simpl; [split; [intros _; apply not_elem_of_nil|done]|].
  rewrite elem_of_cons. destruct (Ascii.eqb_spec c ">"%char) as [->|Hc].
  - split; [done|]. intros H. destruct H. by left.
  - rewrite fmap_None, IH. split; [intros H [E|H']; [congruence|by apply H]|intros H H'; apply H; by right].
Qed.

Lemma split_gt_length s u v : split_gt s = Some (u, v) -> length v < length s.
Proof.
  revert u. induction s as [|c s IH]; intros u; simpl; [done|].
  destruct (Ascii.eqb c ">"%char); [intros [= _ <-]; lia|].
  destruct (split_gt s) as [[u' v']|] eqn:E; simpl; [|done]. intros [= _ <-]. specialize (IH u' eq_refl). simpl in IH. lia.
Qed.

Lemma flat_map_cons_fst {B} (M : jstr -> list (jstr * B)) c (L : list (jstr * jstr)) :
  flat_map (fun ar => map (fun br => (ar.1 ++ br.1, br.2)) (M ar.2)) (map (fun ar => (c :: ar.1, ar.2)) L) =
  map (fun x => (c :: x.1, x.2)) (flat_map (fun ar => map (fun br => (ar.1 ++ br.1, br.2)) (M ar.2)) L).
Proof. induction L as [|x L IH]; simpl; [done|]. by rewrite IH, map_app, !map_map. Qed.

(** [[^>]*>] matches up to the first [>]. *)
Lemma star_gt_head t :
  head (m_seq (m_star_greedy (fun c => negb (Ascii.eqb c ">"%char))) (m_char ">"%char) t) =
  (fun uv => (uv.1 ++ [">"%char], uv.2)) <$> split_gt t.
Proof.
  unfold m_seq. induction t as [|c t IH]; [reflexivity|].
  simpl split_gt. destruct (Ascii.eqb_spec c ">"%char) as [->|Hc]; [reflexivity|].
  rewrite m_star_greedy_cons by (apply negb_true_iff, Ascii.eqb_neq; done).
  assert (Hm : m_char ">"%char (c :: t) = []).
  { unfold m_char, m_class. rewrite (proj2 (Ascii.eqb_neq ">"%char c)); [done|]. intros E. by apply Hc. }
  rewrite flat_map_app, flat_map_cons_fst. cbn [flat_map snd]. rewrite Hm. cbn [map app]. rewrite !app_nil_r.
  revert IH. destruct (flat_map _ _) as [|[a r] l]; destruct (split_gt t) as [[u v]|]; simpl; intros IH;
    try discriminate; [done|by injection IH as -> ->].
Qed.

Lemma first_match_tag c t :
  first_match tag_re (c :: t) =
    if Ascii.eqb c "<"%char then (fun uv => (c :: uv.1 ++ [">"%char], uv.2)) <$> split_gt t else None.
Proof.
  unfold first_match, tag_re. unfold m_seq at 1.
  assert (Hc0 : m_char "<"%char (c :: t) = if Ascii.eqb "<"%char c then [([c], t)] else []) by reflexivity.
  rewrite Hc0. destruct (Ascii.eqb_spec c "<"%char) as [->|Hc].
  - rewrite Ascii.eqb_refl. cbn [flat_map fst snd]. rewrite app_nil_r. pose proof (star_gt_head t) as Hs. revert Hs.
    destruct (m_seq _ _ t) as [|[a r] l]; destruct (split_gt t) as [[u v]|]; simpl; intros Hs;
      try discriminate; [done|]. by injection Hs as -> ->.
  - rewrite (proj2 (Ascii.eqb_neq "<"%char c)) by (intros E; by apply Hc). done.
Qed.

Lemma find_tag_no_gt s : split_gt s = None -> find_tag s = None.
Proof.
  induction s as [|c s IH]; simpl; [done|].
  destruct (Ascii.eqb c ">"%char) eqn:Eg; [done|]. intros H. apply fmap_None in H.
  destruct (Ascii.eqb c "<"%char); [by rewrite H|]. by rewrite IH.
Qed.

(** The pattern's search is [find_tag]. *)
Lemma search_tag s : search tag_re s = find_tag s.
Proof.
  induction s as [|c s IH]; [reflexivity|]. simpl find_tag.
  destruct (Ascii.eqb c "<"%char) eqn:Ec.
  - destruct (split_gt s) as [[u v]|] eqn:E.
    + apply search_hit. by rewrite first_match_tag, Ec, E.
    + rewrite search_cons_miss by (by rewrite first_match_tag, Ec, E). by rewrite IH, find_tag_no_gt.
  - rewrite search_cons_miss by (by rewrite first_match_tag, Ec). by rewrite IH.
Qed.

Lemma strip_go_open_none b s : split_gt s = None -> strip_go (Some b) s = b ++ s.
Proof.
  revert b. induction s as [|c s IH]; intros b; simpl; [by rewrite app_nil_r|].
  destruct (Ascii.eqb c ">"%char); [done|]. intros H. apply fmap_None in H.
  rewrite IH by done. by rewrite <- app_assoc.
Qed.

Lemma strip_go_open_some b s u v : split_gt s = Some (u, v) -> strip_go (Some b) s = strip_go None v.
Proof.
  revert b u. induction s as [|c s IH]; intros b u; simpl; [done|].
  destruct (Ascii.eqb c ">"%char); [by intros [= _ <-]|].
  destruct (split_gt s) as [[u' v']|] eqn:E; simpl; [|done]. intros [= _ <-]. by eapply IH.
Qed.

Lemma find_tag_strip s b a r :
  find_tag s = Some (b, a, r) -> a <> [] /\ length r < length s /\ strip_go None s = b ++ strip_go None r.
Proof.
  revert b. induction s as [|c s IH]; intros b; simpl; [done|].
  destruct (Ascii.eqb c "<"%char) eqn:Ec.
  - destruct (split_gt s) as [[u v]|] eqn:E; simpl; [|done]. intros [= <- <- <-].
    split_and!; [done|apply split_gt_length in E; lia|]. by erewrite strip_go_open_some.
  - destruct (find_tag s) as [[[b' a'] r']|] eqn:E; simpl; [|done]. intros [= <- <- <-].
    destruct (IH b' eq_refl) as (? & ? & ->). split_and!; [done|lia|done].
Qed.

Lemma find_tag_none_strip s : find_tag s = None -> strip_go None s = s.
Proof.
  induction s as [|c s IH]; simpl; [done|].
  destruct (Ascii.eqb c "<"%char) eqn:Ec.
  - intros H. apply fmap_None in H. by rewrite strip_go_open_none.
  - intros H. apply fmap_None in H. by rewrite IH.
Qed.

(** The global replace is the one-pass reading. *)
Lemma strip_tags_go s : strip_tags s = strip_go None s.
Proof.
  unfold strip_tags, replace_all. generalize (S (length s)) (Nat.lt_succ_diag_r (length s)).
  intros f. revert s. induction f as [|f IH]; intros s Hf; [lia|]. simpl. rewrite search_tag.
  destruct (find_tag s) as [[[b a] r]|] eqn:E; [|by rewrite find_tag_none_strip].
  destruct (find_tag_strip s b a r E) as (Ha & Hl & ->). destruct a; [done|]. simpl. f_equal. apply IH. lia.
Qed.

Lemma strip_go_clean n s : length s <= n -> find_tag (strip_go None s) = None.
Proof.
  revert s. induction n as [|n IH]; intros [|c s] Hn; simpl in *; try done; [lia|].
  destruct (Ascii.eqb c "<"%char) eqn:Ec.
  - destruct (split_gt s) as [[u v]|] eqn:E.
    + erewrite strip_go_open_some by done. apply IH. apply split_gt_length in E. lia.
    + rewrite strip_go_open_none by done. cbn [app find_tag]. by rewrite Ec, E.
  - cbn [find_tag]. rewrite Ec, IH by lia. done.
Qed.

Lemma render_card_None locale_date url_hostname sel sid it :
  render_card locale_date url_hostname sel sid it = None <->
  exists l, link it = Some l /\ truthy l = true /\ url_hostname l = None.
Proof.
  unfold render_card. rewrite fmap_None. destruct (link it) as [l|].
  - destruct (truthy l) eqn:Et.
    + rewrite fmap_None. split; [intros H; by exists l|intros (l' & [= <-] & _ & H); done].
    + split; [done|intros (l' & [= <-] & H & _); congruence].
  - split; [done|intros (l' & H & _); done].
Qed.

Lemma render_card_Some locale_date url_hostname sel sid it c :
  render_card locale_date url_hostname sel sid it = Some c ->
  card_key c = id it /\ card_selected c = bool_decide (sid = id it) /\ card_text c = strip_tags (description it).
Proof. unfold render_card. intros H. apply fmap_Some in H as (h & _ & ->). done. Qed.

(** The text left by the global replace has no tag in it, and a
    second replace leaves it as it is. *)
Lemma strip_tags_clean s : search tag_re (strip_tags s) = None.
Proof. rewrite search_tag, strip_tags_go. by apply (strip_go_clean (length s)). Qed.

Lemma strip_tags_idem s : strip_tags (strip_tags s) = strip_tags s.
Proof. rewrite (strip_tags_go (strip_tags s)). apply find_tag_none_strip. rewrite <- search_tag. apply strip_tags_clean. Qed.

Lemma links_parse_false url_hostname its :
  links_parse url_hostname its = false <->
  exists it l, it ∈ its /\ link it = Some l /\ truthy l = true /\ url_hostname l = None.
Proof.
  unfold links_parse. induction its as [|it its IH]; simpl.
  { split; [done|]. intros (? & ? & H & _). by apply not_elem_of_nil in H. }
  rewrite andb_false_iff, IH. split.
  - intros [H|(it' & l & Hin & ?)]; [|exists it', l; split; [by right|done]].
    destruct (link it) as [l|] eqn:El; [|done]. exists it, l. split; [left|].
    split_and!; [done| |]; destruct (truthy l), (url_hostname l); done.
  - intros (it' & l & Hin & El & Et & Eu). apply elem_of_cons in Hin as [->|Hin].
    + left. by rewrite El, Et, Eu.
    + right. eauto 10.
Qed.

(** * Properties *)

(** C24: when a load for "all" ends, the list shows the first 25 items
    of a permutation of every feed's items; when all their dates are
    valid that permutation is sorted newest first. *)
Theorem all_view_sorted date_ms st i ld rs :
  inflight st !! i = Some ld -> ld_sel ld = All -> length rs = length (ld_feeds ld) ->
  exists S, items (fl_step date_ms (LoadDone i rs) st) = take MAX_ITEMS S /\
    S ≡ₚ concat (zip_with fetchFeed rs (ld_feeds ld)) /\
    (Forall (fun it => is_Some (item_time date_ms it)) S -> Sorted (desc_rel (time_key date_ms)) S) /\
    loading (fl_step date_ms (LoadDone i rs) st) = false.
Proof.
  intros Hi Hs Hl. exists (js_sort (by_date date_ms) (concat (zip_with fetchFeed rs (ld_feeds ld)))).
  simpl. unfold load_done. rewrite Hi, Hs, bool_decide_eq_true_2 by done. simpl.
  unfold load_result. rewrite Hs. split_and!; [done|apply js_sort_perm| |done].
  intros Hv. rewrite js_sort_by_date.
  - apply js_sort_sorted.
  - by rewrite js_sort_perm in Hv.
Qed.

(** C33: a load started for an earlier selection still replaces the
    items when it ends, and turns [loading] off, although the load for
    the current selection may still be in flight. *)
Theorem stale_load_applied date_ms st i ld rs :
  inflight st !! i = Some ld -> selectedFeed st <> Some (ld_sel ld) ->
  length rs = match ld_sel ld with All => length (ld_feeds ld) | One _ => 1 end ->
  items (fl_step date_ms (LoadDone i rs) st) = load_result date_ms ld rs /\
  loading (fl_step date_ms (LoadDone i rs) st) = false /\
  selectedFeed (fl_step date_ms (LoadDone i rs) st) = selectedFeed st /\
  inflight (fl_step date_ms (LoadDone i rs) st) = delete i (inflight st).
Proof.
  intros Hi _ Hl. simpl. unfold load_done. rewrite Hi, bool_decide_eq_true_2 by done. done.
Qed.

(** C31: rendering the episode list throws ([new URL] on a link it
    rejects) exactly when a feed is selected, nothing is loading, there
    is no error, and some item has a truthy link that is not an absolute
    URL; one such item hides the whole list. *)
Theorem render_throws locale_date url_hostname sid st :
  render locale_date url_hostname sid st = None <->
  is_Some (selectedFeed st) /\ loading st = false /\ truthy (error st) = false /\
  links_parse url_hostname (items st) = false.
Proof.
  unfold render. rewrite links_parse_false.
  destruct (selectedFeed st) as [sel|]; [|split; [done|intros ([? ?] & _)]; done].
  destruct (loading st); [split; [done|intros (_ & ? & _)]; done|].
  destruct (truthy (error st)); [split; [done|intros (_ & _ & ? & _)]; done|].
  rewrite fmap_None, mapM_None, Exists_exists. split.
  - intros (it & Hit & Hn). apply render_card_None in Hn as (l & ? & ? & ?). split_and!; [eauto|done|done|eauto 10].
  - intros (_ & _ & _ & it & l & Hit & ? & ? & ?). exists it. split; [done|]. apply render_card_None. eauto.
Qed.

(** C32: otherwise the list shows one card per item, in order, keyed by
    the item's id, highlighted when its id is [selectedItemId] (both
    undefined included), with the description stripped of its tags:
    no [<...>] is left. *)
Theorem render_cards locale_date url_hostname sid st sel :
  selectedFeed st = Some sel -> loading st = false -> truthy (error st) = false ->
  links_parse url_hostname (items st) = true ->
  exists cards, render locale_date url_hostname sid st = Some (Episodes (heading sel) (summary sel st) cards) /\
    Forall2 (fun it c => card_key c = id it /\ card_selected c = bool_decide (sid = id it) /\
                         card_text c = strip_tags (description it) /\ search tag_re (card_text c) = None)
            (items st) cards.
Proof.
  intros Hs Hl He Hp. unfold render. rewrite Hs, Hl, He.
  destruct (mapM (render_card locale_date url_hostname sel sid) (items st)) as [cards|] eqn:Em.
  - exists cards. split; [done|]. apply mapM_Some_1 in Em. eapply Forall2_impl; [exact Em|].
    intros it c Hc. destruct (render_card_Some _ _ _ _ _ _ Hc) as (? & ? & Ht). split_and!; [done..|].
    rewrite Ht. apply strip_tags_clean.
  - exfalso. apply mapM_None, Exists_exists in Em as (it & Hit & Hn). apply render_card_None in Hn.
    apply (not_true_iff_false (links_parse url_hostname (items st))); [|done]. apply links_parse_false.
    destruct Hn as (l & ? & ? & ?). eauto 10.
Qed.

(** ** Witnesses *)

(** An item linked relatively ([/ep/1]) makes the list throw. *)
Example relative_link_throws :
  render (fun _ => []) demo_hostname None
    (mkFL (Some All) [feedA] [mkFeedItem (Some (lit "e1")) None [] [] None (Some (lit "/ep/1")) None None] false [] [])
  = None.
Proof. vm_compute. reflexivity. Qed.

Definition loadedA : FeedListState := fl_step demo_date (LoadDone 0 [Some answerA]) (fl_mount (Some All) [feedA]).

Lemma render_cards_witness :
  links_parse demo_hostname (items loadedA) = true /\
  exists cards, render (fun _ => []) demo_hostname None loadedA =
    Some (Episodes (heading All) (summary All loadedA) cards) /\ length cards = length (items loadedA).
Proof.
  split; [reflexivity|].
  destruct (render_cards (fun _ => []) demo_hostname None loadedA All) as (cards & Hr & Hf); try reflexivity.
  exists cards. split; [exact Hr|]. symmetry. exact (Forall2_length _ _ _ Hf).
Defined.

Example merge_demo :
  merge_all demo_date [Some answerA; Some answerB] [feedA; feedB] =
    map (with_feedName (lit "Feed B")) [item_at "b2" "40"] ++
    map (with_feedName (lit "Feed A")) [item_at "a1" "30"] ++
    map (with_feedName (lit "Feed B")) [item_at "b1" "20"] ++
    map (with_feedName (lit "Feed A")) [item_at "a2" "10"].
Proof. vm_compute. reflexivity. Qed.

Lemma all_view_sorted_witness :
  exists S, items (fl_step demo_date (LoadDone 0 [Some answerA; Some answerB]) (fl_mount (Some All) [feedA; feedB]))
              = take MAX_ITEMS S /\
    S ≡ₚ concat (zip_with fetchFeed [Some answerA; Some answerB] [feedA; feedB]) /\
    (Forall (fun it => is_Some (item_time demo_date it)) S -> Sorted (desc_rel (time_key demo_date)) S) /\
    loading (fl_step demo_date (LoadDone 0 [Some answerA; Some answerB]) (fl_mount (Some All) [feedA; feedB])) = false.
Proof. apply (all_view_sorted demo_date _ 0 (mkLoad All [feedA; feedB])); reflexivity. Defined.

Lemma stale_load_applied_witness :
  items (fl_step demo_date (LoadDone 0 [Some answerA]) switched) = load_result demo_date (mkLoad (One feedA) [feedA; feedB]) [Some answerA] /\
  loading (fl_step demo_date (LoadDone 0 [Some answerA]) switched) = false /\
  selectedFeed (fl_step demo_date (LoadDone 0 [Some answerA]) switched) = selectedFeed switched /\
  inflight (fl_step demo_date (LoadDone 0 [Some answerA]) switched) = delete 0 (inflight switched).
Proof. apply stale_load_applied; [reflexivity | discriminate | reflexivity]. Defined.

End FeedList.
