(* ===== verification/Feeds.v ===== *)
(** * Feed subscriptions: page.tsx, components/Sidebar.tsx, lib/defaultFeeds.ts

    The page [Home] owns the subscribed feeds, the selection and the
    selected episode, and keeps the feed list in [localStorage].  On mount
    [loadFeeds] reads the stored list; on a first visit it validates the
    five default feeds against the RSS route ([Promise.all], in order) and
    stores the ones that answer.  A second effect writes the list back
    whenever [feeds] or [isLoading] change and the page is not loading.
    The [Sidebar] adds a feed by asking the route for its URL, and deletes
    one after a confirmation; it calls the page's handlers.

    [HomeState] holds the page's hooks, the storage slot, the validation
    in flight and the Sidebar's hooks with its requests in flight.  Each
    event is one handler or one answer; [home_step] runs it and then the
    save effect when a dependency of that effect changed.  [JSON.parse]
    and [JSON.stringify] are [Section] variables.  The add form's events
    are accepted whether or not the form is open ([isAdding]); the
    scenarios below open it first. *)

From S2P Require Import Prelude JsRuntime RssRoute FeedList.

Module Feeds.
Import RssRoute FeedList.

(** ** Data *)

(** [defaultFeeds] (defaultFeeds.ts 1-27). *)
Definition defaultFeeds : list Feed := [
  mkFeed (lit "sans-daily-podcast") (lit "SANS Internet Storm Center Daily Podcast")
         (lit "https://isc.sans.edu/dailypodcast.xml");
  mkFeed (lit "buzzsprout-feed") (lit "Buzzsprout Feed") (lit "https://feeds.buzzsprout.com/2407084.rss");
  mkFeed (lit "megaphone-glt") (lit "Megaphone GLT") (lit "https://feeds.megaphone.fm/GLT1412515089");
  mkFeed (lit "diary-of-a-ceo") (lit "The Diary Of A CEO") (lit "https://feeds.megaphone.fm/thediaryofaceo");
  mkFeed (lit "how-i-built-this") (lit "How I Built This") (lit "https://rss.art19.com/how-i-built-this")
].

(** The Sidebar's hooks (Sidebar.tsx 44-49).  [sb_items], [sb_loading]
    and [sb_selectedFeed] have no setter call in the file. *)
Record SidebarState := mkSidebar {
  isAdding : bool;
  newFeedUrl : jstr;
  sb_error : jstr;
  sb_items : list FeedItem;
  sb_loading : bool;
  sb_selectedFeed : option Selection;
  adds : list jstr   (** the URL each [addFeed] in flight was called with *)
}.

Definition sidebar_init : SidebarState := mkSidebar false [] [] [] false None [].

Record HomeState := mkHome {
  selectedFeed : option Selection;
  selectedItem : option FeedItem;
  feeds : list Feed;
  isLoading : bool;
  storage : option jstr;   (** [localStorage.getItem(STORAGE_KEY)] *)
  validating : bool;       (** the [Promise.all] of lines 51-75 is pending *)
  sidebar : SidebarState
}.

Definition err_add : jstr := lit "Failed to add feed. Please check the URL and try again.".

(** [data.title || fallback] for the route's answer. *)
Definition title_or (b : RssBody) (fallback : jstr) : jstr :=
  match b with
  | RssFeed (Some t) _ _ => if truthy t then t else fallback
  | _ => fallback
  end.

(** The callback of lines 52-74 given the answer ([None] when [fetch] or
    [response.json()] rejects). *)
Definition validate_feed (resp : option RssResponse) (feed : Feed) : option Feed :=
  match resp with
  | Some r => if rss_ok r then Some (mkFeed feed.(feed_id) (title_or r.(rss_body) feed.(name)) feed.(url))
              else None
  | None => None
  end.

(** [validFeeds.filter(feed => feed !== null)]. *)
Definition drop_nulls (l : list (option Feed)) : list Feed := omap (fun o => o) l.

(** [selectedFeed === 'all' ? 'all' : selectedFeed?.id], the Sidebar's
    [selectedFeedId] prop. *)
Definition selectedFeedId (sel : option Selection) : option jstr :=
  match sel with
  | Some All => Some (lit "all")
  | Some (One f) => Some f.(feed_id)
  | None => None
  end.

(** ** Handlers *)

Section Home.

Variable stringify : list Feed -> jstr.
Variable parse : jstr -> option (list Feed).

Definition set_sidebar (sb : SidebarState) (st : HomeState) : HomeState :=
  mkHome st.(selectedFeed) st.(selectedItem) st.(feeds) st.(isLoading) st.(storage) st.(validating) sb.

(** [handleFeedSelect] (lines 105-108). *)
Definition handleFeedSelect (sel : Selection) (st : HomeState) : HomeState :=
  mkHome (Some sel) None st.(feeds) st.(isLoading) st.(storage) st.(validating) st.(sidebar).

(** [handleFeedAdd] (lines 110-114). *)
Definition handleFeedAdd (f : Feed) (st : HomeState) : HomeState :=
  mkHome (Some (One f)) None (st.(feeds) ++ [f]) st.(isLoading) st.(storage) st.(validating) st.(sidebar).

(** [handleFeedDelete] (lines 116-121). *)
Definition handleFeedDelete (fid : jstr) (st : HomeState) : HomeState :=
  mkHome (match st.(selectedFeed) with
          | Some (One f) => if bool_decide (f.(feed_id) = fid) then Some All else st.(selectedFeed)
          | _ => st.(selectedFeed)
          end)
         st.(selectedItem) (filter (fun f => f.(feed_id) <> fid) st.(feeds))
         st.(isLoading) st.(storage) st.(validating) st.(sidebar).

(** [setFeeds(storedFeeds)] and the ['all'] view when there is a feed
    (lines 82-87), then the [finally] (line 91). *)
Definition loaded (fs : list Feed) (st : HomeState) : HomeState :=
  mkHome (if bool_decide (0 < length fs) then Some All else st.(selectedFeed))
         st.(selectedItem) fs false st.(storage) false st.(sidebar).

(** [loadFeeds] up to its first [await] (lines 40-50): a stored list is
    parsed and shown; [JSON.parse] failing ends in the [catch] and the
    [finally]; no stored list starts the validation of the defaults. *)
Definition loadFeeds (st : HomeState) : HomeState :=
  match st.(storage) with
  | Some s =>
      if truthy s then
        match parse s with
        | Some fs => loaded fs st
        | None => mkHome st.(selectedFeed) st.(selectedItem) st.(feeds) false st.(storage) false st.(sidebar)
        end
      else mkHome st.(selectedFeed) st.(selectedItem) st.(feeds) true st.(storage) true st.(sidebar)
  | None => mkHome st.(selectedFeed) st.(selectedItem) st.(feeds) true st.(storage) true st.(sidebar)
  end.

(** The rest of [loadFeeds] when the answers [rs] of the default feeds'
    requests are in (lines 77-91). *)
Definition validated (rs : list (option RssResponse)) (st : HomeState) : HomeState :=
  let fs := drop_nulls (zip_with validate_feed rs defaultFeeds) in
  let st' := loaded fs st in
  mkHome st'.(selectedFeed) st'.(selectedItem) st'.(feeds) st'.(isLoading) (Some (stringify fs))
         st'.(validating) st'.(sidebar).

(** The page as it is first rendered, with the stored value [s0], and
    after its mount effect. *)
Definition home_init (s0 : option jstr) : HomeState :=
  mkHome None None [] true s0 false sidebar_init.

Definition home_mount (s0 : option jstr) : HomeState := loadFeeds (home_init s0).

(** The Sidebar's [addFeed] when called (lines 51-53). *)
Definition addFeed (st : HomeState) : HomeState :=
  let sb := st.(sidebar) in
  if negb (truthy (trim sb.(newFeedUrl))) then st
  else set_sidebar (mkSidebar sb.(isAdding) sb.(newFeedUrl) [] sb.(sb_items) sb.(sb_loading)
                              sb.(sb_selectedFeed) (sb.(adds) ++ [sb.(newFeedUrl)])) st.

(** The rest of the [addFeed] call [i] when the answer is in (lines
    55-78); the new feed is made from the URL the call started with. *)
Definition addFeed_done (i : nat) (resp : option RssResponse) (st : HomeState) : HomeState :=
  let sb := st.(sidebar) in
  match sb.(adds) !! i with
  | None => st
  | Some u =>
      let rest := delete i sb.(adds) in
      match resp with
      | Some r =>
          if rss_ok r then
            let st' := handleFeedAdd (mkFeed u (title_or r.(rss_body) (lit "Unnamed Feed")) u) st in
            set_sidebar (mkSidebar false [] sb.(sb_error) sb.(sb_items) sb.(sb_loading) sb.(sb_selectedFeed) rest) st'
          else set_sidebar (mkSidebar sb.(isAdding) sb.(newFeedUrl) err_add sb.(sb_items) sb.(sb_loading)
                                      sb.(sb_selectedFeed) rest) st
      | None => set_sidebar (mkSidebar sb.(isAdding) sb.(newFeedUrl) err_add sb.(sb_items) sb.(sb_loading)
                                       sb.(sb_selectedFeed) rest) st
      end
  end.

(** [handleDeleteFeed] (lines 81-89); [ok] is the answer to
    [window.confirm]. *)
Definition handleDeleteFeed (ok : bool) (fid : jstr) (st : HomeState) : HomeState :=
  if ok then
    let st' := handleFeedDelete fid st in
    if bool_decide (selectedFeedId st.(selectedFeed) = Some fid) then handleFeedSelect All st' else st'
  else st.

Inductive HomeEvent :=
| SelectFeed (sel : Selection)                 (** the "All Feeds" entry or a feed *)
| SelectItem (it : FeedItem)                   (** [onItemSelect] of the episode list *)
| OpenAdd                                      (** [setIsAdding(true)] *)
| TypeUrl (s : jstr)                           (** the input's [onChange] *)
| AddFeed                                      (** the Add button or Enter *)
| AddDone (i : nat) (resp : option RssResponse)
| CancelAdd                                    (** lines 132-136 *)
| DeleteFeed (ok : bool) (fid : jstr)
| DefaultsChecked (rs : list (option RssResponse)).

Definition home_handle (e : HomeEvent) (st : HomeState) : HomeState :=
  let sb := st.(sidebar) in
  match e with
  | SelectFeed sel => handleFeedSelect sel st
  | SelectItem it => mkHome st.(selectedFeed) (Some it) st.(feeds) st.(isLoading) st.(storage) st.(validating) sb
  | OpenAdd => set_sidebar (mkSidebar true sb.(newFeedUrl) sb.(sb_error) sb.(sb_items) sb.(sb_loading)
                                      sb.(sb_selectedFeed) sb.(adds)) st
  | TypeUrl s => set_sidebar (mkSidebar sb.(isAdding) s sb.(sb_error) sb.(sb_items) sb.(sb_loading)
                                        sb.(sb_selectedFeed) sb.(adds)) st
  | AddFeed => addFeed st
  | AddDone i resp => addFeed_done i resp st
  | CancelAdd => set_sidebar (mkSidebar false [] [] sb.(sb_items) sb.(sb_loading) sb.(sb_selectedFeed) sb.(adds)) st
  | DeleteFeed ok fid => handleDeleteFeed ok fid st
  | DefaultsChecked rs =>
      if st.(validating) && bool_decide (length rs = length defaultFeeds) then validated rs st else st
  end.

(** Whether the handler called [setFeeds] (a new array, so a changed
    dependency of the save effect). *)
Definition sets_feeds (e : HomeEvent) (st : HomeState) : bool :=
  match e with
  | AddDone i (Some r) => bool_decide (is_Some (st.(sidebar).(adds) !! i)) && rss_ok r
  | DeleteFeed ok _ => ok
  | DefaultsChecked rs => st.(validating) && bool_decide (length rs = length defaultFeeds)
  | _ => false
  end.

(** The save effect (lines 99-103). *)
Definition save_effect (st : HomeState) : HomeState :=
  if st.(isLoading) then st
  else mkHome st.(selectedFeed) st.(selectedItem) st.(feeds) st.(isLoading) (Some (stringify st.(feeds)))
              st.(validating) st.(sidebar).

(** One event, then the save effect when [feeds] or [isLoading] changed. *)
Definition home_step (e : HomeEvent) (st : HomeState) : HomeState :=
  let st' := home_handle e st in
  if sets_feeds e st || negb (Bool.eqb st.(isLoading) st'.(isLoading)) then save_effect st' else st'.

(** The mount: the first render's effects in order. *)
Definition home_start (s0 : option jstr) : HomeState :=
  let st := home_mount s0 in
  if st.(isLoading) then st else save_effect st.

Fixpoint run_home (es : list HomeEvent) (st : HomeState) : HomeState :=
  match es with [] => st | e :: es' => run_home es' (home_step e st) end.

Inductive home_reachable : HomeState -> Prop :=
| home_reach_start s0 : home_reachable (home_start s0)
| home_reach_step e st : home_reachable st -> home_reachable (home_step e st).

End Home.

(** The status in the page header (lines 131-143). *)
Definition header_status (st : HomeState) : jstr :=
  if st.(isLoading) then lit "Loading feeds..."
  else number_toString (length st.(feeds)) ++ lit " " ++
       (if bool_decide (length st.(feeds) = 1) then lit "feed" else lit "feeds") ++ lit " active".

(** ** A first visit *)

(** A stand-in for [JSON.stringify] that keeps the ids, and a storage
    whose content never parses. *)
Definition demo_stringify (fs : list Feed) : jstr := concat (map feed_id fs).
Definition demo_parse (s : jstr) : option (list Feed) := None.

Definition ok_answer (t : string) : RssResponse := mkRss 200 (RssFeed (Some (lit t)) None []).

Definition demo_url : jstr := lit "https://x.example/rss".

(** Only the first and the last default answer. *)
Definition demo_checks : list (option RssResponse) :=
  [Some (ok_answer "SANS ISC"); None; Some (mkRss 500 (RssError err_fetch)); None; Some (ok_answer "")].

Definition first_visit : HomeState := home_start demo_stringify demo_parse None.

Definition typed_url : HomeState := run_home demo_stringify [OpenAdd; TypeUrl demo_url] first_visit.

(** ** Lemmas *)

(** The Sidebar's own item list, loading flag and selection are never
    set: the episode list they would render is dead code. *)
Lemma sidebar_dead_state stringify parse st :
  home_reachable stringify parse st ->
  sb_items (sidebar st) = [] /\ sb_loading (sidebar st) = false /\ sb_selectedFeed (sidebar st) = None.
Proof.
  induction 1 as [s0|e st Hr IH].
  - unfold home_start, home_mount, loadFeeds. simpl. by repeat case_match.
  - assert (Hs : sidebar (home_step stringify e st) = sidebar (home_handle stringify e st)).
    { unfold home_step, save_effect. by repeat case_match. }
    rewrite Hs. destruct e; simpl; try done; unfold addFeed, addFeed_done, handleDeleteFeed in *;
      repeat case_match; simpl; done.
Qed.

Section HomeLemmas.
Variable stringify : list Feed -> jstr.
Variable parse : jstr -> option (list Feed).

(** A handler that does not call [setFeeds] leaves the list, the storage
    and [isLoading] as they were. *)
Lemma handle_keeps e st :
  sets_feeds e st = false ->
  feeds (home_handle stringify e st) = feeds st /\ storage (home_handle stringify e st) = storage st /\
  isLoading (home_handle stringify e st) = isLoading st.
Proof.
  destruct e as [sel|it| |s| |i [r|]| |[] fid|rs]; simpl; intros H; try done.
  - unfold addFeed. case_match; done.
  - unfold addFeed_done. destruct (rss_ok r) eqn:Er; [|by case_match].
    rewrite andb_true_r in H. apply bool_decide_eq_false in H. case_match; [|done]. destruct H; eauto.
  - unfold addFeed_done. by destruct (adds (sidebar st) !! i).
  - by rewrite H.
Qed.

Lemma save_effect_stored st :
  isLoading (save_effect stringify st) = false -> storage (save_effect stringify st) = Some (stringify (feeds (save_effect stringify st))).
Proof. unfold save_effect. intros H. destruct (isLoading st) eqn:E; simpl in *; congruence. Qed.

(** A validated default feed keeps the URL of its default. *)
Lemma validated_url rs f :
  f ∈ drop_nulls (zip_with validate_feed rs defaultFeeds) -> exists g, g ∈ defaultFeeds /\ url f = url g.
Proof.
  unfold drop_nulls. generalize defaultFeeds. induction rs as [|r rs IH]; intros [|g gs]; simpl; try by inversion 1.
  destruct (validate_feed r g) eqn:E; simpl; rewrite ?elem_of_cons.
  - intros [->|Hf].
    + exists g. split; [left|]. unfold validate_feed in E. destruct r as [r|]; [|done]. by destruct (rss_ok r); simplify_eq.
    + destruct (IH gs Hf) as (g' & ? & ?). exists g'. split; [by right|done].
  - intros Hf. destruct (IH gs Hf) as (g' & ? & ?). exists g'. split; [by right|done].
Qed.

(** The save effect only writes the storage. *)
Lemma step_fields e st :
  feeds (home_step stringify e st) = feeds (home_handle stringify e st) /\
  sidebar (home_step stringify e st) = sidebar (home_handle stringify e st) /\
  isLoading (home_step stringify e st) = isLoading (home_handle stringify e st) /\
  validating (home_step stringify e st) = validating (home_handle stringify e st).
Proof. unfold home_step, save_effect. by repeat case_match. Qed.

Lemma step_quiet e st : sets_feeds e st = false -> isLoading st = isLoading (home_handle stringify e st) ->
  home_step stringify e st = home_handle stringify e st.
Proof. intros Hs Hl. unfold home_step. by rewrite Hs, Hl, Bool.eqb_reflx. Qed.

Lemma step_addFeed st :
  truthy (trim (newFeedUrl (sidebar st))) = true ->
  home_step stringify AddFeed st =
    set_sidebar (mkSidebar (isAdding (sidebar st)) (newFeedUrl (sidebar st)) [] (sb_items (sidebar st))
                           (sb_loading (sidebar st)) (sb_selectedFeed (sidebar st))
                           (adds (sidebar st) ++ [newFeedUrl (sidebar st)])) st.
Proof. intros Ht. rewrite step_quiet; [|done|by unfold home_handle, addFeed; rewrite Ht]. simpl. unfold addFeed. by rewrite Ht. Qed.

(** The answer to the [addFeed] call [i], when it is a success, appends
    a feed made of the call's URL. *)
Lemma addFeed_done_ok i r u st :
  adds (sidebar st) !! i = Some u -> rss_ok r = true ->
  feeds (home_step stringify (AddDone i (Some r)) st) = feeds st ++ [mkFeed u (title_or (rss_body r) (lit "Unnamed Feed")) u] /\
  adds (sidebar (home_step stringify (AddDone i (Some r)) st)) = delete i (adds (sidebar st)) /\
  isLoading (home_step stringify (AddDone i (Some r)) st) = isLoading st /\
  validating (home_step stringify (AddDone i (Some r)) st) = validating st.
Proof.
  intros Hi Hr. destruct (step_fields (AddDone i (Some r)) st) as (-> & -> & -> & ->).
  simpl. unfold addFeed_done. by rewrite Hi, Hr.
Qed.

Lemma checked_feeds st rs :
  validating st = true -> length rs = length defaultFeeds ->
  feeds (home_step stringify (DefaultsChecked rs) st) = drop_nulls (zip_with validate_feed rs defaultFeeds).
Proof.
  intros Hv Hl. destruct (step_fields (DefaultsChecked rs) st) as (-> & _). simpl.
  by rewrite Hv, bool_decide_eq_true_2.
Qed.

Lemma checked_selected st rs :
  validating st = true -> length rs = length defaultFeeds ->
  selectedFeed (home_step stringify (DefaultsChecked rs) st) =
    if bool_decide (0 < length (drop_nulls (zip_with validate_feed rs defaultFeeds))) then Some All else selectedFeed st.
Proof.
  intros Hv Hl. unfold home_step. simpl. rewrite Hv, bool_decide_eq_true_2 by done. simpl.
  unfold save_effect. done.
Qed.

(** After the defaults are checked, no feed has a URL that no default has. *)
Lemma checked_urls st rs u :
  validating st = true -> length rs = length defaultFeeds -> Forall (fun g => url g <> u) defaultFeeds ->
  Forall (fun f => url f <> u) (feeds (home_step stringify (DefaultsChecked rs) st)).
Proof.
  intros Hv Hl Hd. rewrite checked_feeds by done. apply Forall_forall. intros f Hf.
  destruct (validated_url rs f Hf) as (g & Hg & ->). by apply (Forall_forall _ _) with (x := g) in Hd.
Qed.

End HomeLemmas.

(** ** Properties *)

(** C25: whenever the page is not loading, the stored value is the
    serialised feed list: every change of the list is saved. *)
Theorem storage_tracks_feeds stringify parse st :
  home_reachable stringify parse st -> isLoading st = false -> storage st = Some (stringify (feeds st)).
Proof.
  induction 1 as [s0|e st Hr IH]; intros Hl.
  - unfold home_start in *. destruct (isLoading (home_mount parse s0)) eqn:E; cbn iota in *;
      [congruence|by apply save_effect_stored].
  - unfold home_step in *. set (st' := home_handle stringify e st) in *.
    destruct (sets_feeds e st) eqn:Hs; cbn beta iota delta [orb] in *; [by apply save_effect_stored|].
    destruct (Bool.eqb _ _) eqn:Eb; cbn beta iota delta [negb] in *; [|by apply save_effect_stored].
    apply Bool.eqb_prop in Eb. subst st'. destruct (handle_keeps stringify e st Hs) as (-> & -> & _).
    apply IH. by rewrite Eb.
Qed.

(** Deleting a confirmed feed removes every feed with that id,
    keeps the others in order, goes to "all" exactly when the Sidebar
    showed the deleted id as selected, and saves the new list. *)
Theorem delete_feed_effect stringify fid st :
  let st' := home_step stringify (DeleteFeed true fid) st in
  feeds st' = filter (fun f => feed_id f <> fid) (feeds st) /\
  selectedFeed st' = (if bool_decide (selectedFeedId (selectedFeed st) = Some fid) then Some All else selectedFeed st) /\
  selectedItem st' = (if bool_decide (selectedFeedId (selectedFeed st) = Some fid) then None else selectedItem st) /\
  storage st' = (if isLoading st then storage st else Some (stringify (feeds st'))).
Proof.
  unfold home_step. simpl. unfold handleDeleteFeed.
  case_bool_decide as Hsel; unfold save_effect; simpl; destruct (isLoading st); simpl; split_and!; try done;
    destruct (selectedFeed st) as [[|f]|]; simpl in *; try done;
    case_bool_decide; simplify_eq; done.
Qed.

(** When the default feeds' answers come in on a first visit, the
    list is the defaults that answered, in their order, renamed by their
    titles; it is stored, loading ends, and the "all" view is selected
    when there is a feed. *)
Theorem defaults_checked stringify st rs :
  validating st = true -> length rs = length defaultFeeds ->
  let st' := home_step stringify (DefaultsChecked rs) st in
  let fs := drop_nulls (zip_with validate_feed rs defaultFeeds) in
  feeds st' = fs /\ storage st' = Some (stringify fs) /\ isLoading st' = false /\
  selectedFeed st' = (if bool_decide (0 < length fs) then Some All else selectedFeed st).
Proof.
  intros Hv Hl. unfold home_step. simpl. rewrite Hv, bool_decide_eq_true_2 by done. simpl.
  unfold save_effect. done.
Qed.

(** C34: submitting the same URL twice before the first answer comes in
    adds two feeds with that URL as id: [addFeed] has no check for a
    feed already in the list or a request already in flight. *)
Theorem double_add_duplicates stringify st r1 r2 :
  truthy (trim (newFeedUrl (sidebar st))) = true -> adds (sidebar st) = [] ->
  rss_ok r1 = true -> rss_ok r2 = true ->
  let u := newFeedUrl (sidebar st) in
  feeds (run_home stringify [AddFeed; AddFeed; AddDone 0 (Some r1); AddDone 0 (Some r2)] st) =
    feeds st ++ [mkFeed u (title_or (rss_body r1) (lit "Unnamed Feed")) u;
                 mkFeed u (title_or (rss_body r2) (lit "Unnamed Feed")) u].
Proof.
  intros Ht Ha H1 H2. cbn [run_home]. rewrite (step_addFeed stringify st) by done.
  rewrite step_addFeed by exact Ht.
  set (st2 := set_sidebar _ (set_sidebar _ st)).
  destruct (addFeed_done_ok stringify 0 r1 (newFeedUrl (sidebar st)) st2) as (E1 & A1 & _);
    [unfold st2; cbn [set_sidebar sidebar adds]; by rewrite Ha|done|].
  destruct (addFeed_done_ok stringify 0 r2 (newFeedUrl (sidebar st))
              (home_step stringify (AddDone 0 (Some r1)) st2)) as (E2 & _);
    [rewrite A1; unfold st2; cbn [set_sidebar sidebar adds]; by rewrite Ha|done|].
  rewrite E2, E1. cbn. by rewrite <- app_assoc.
Qed.

(** C30: a feed the user adds while the default feeds are still being
    checked on a first visit is shown, not stored, and then dropped when
    the check ends: [loadFeeds] replaces the list instead of merging. *)
Theorem add_during_validation_lost stringify parse u r rs :
  truthy (trim u) = true -> rss_ok r = true -> length rs = length defaultFeeds ->
  Forall (fun g => url g <> u) defaultFeeds ->
  let st1 := run_home stringify [OpenAdd; TypeUrl u; AddFeed; AddDone 0 (Some r)] (home_start stringify parse None) in
  feeds st1 = [mkFeed u (title_or (rss_body r) (lit "Unnamed Feed")) u] /\ storage st1 = None /\
  Forall (fun f => url f <> u) (feeds (home_step stringify (DefaultsChecked rs) st1)).
Proof.
  intros Ht Hr Hl Hd st1.
  assert (E : st1 = mkHome (Some (One (mkFeed u (title_or (rss_body r) (lit "Unnamed Feed")) u))) None
                           [mkFeed u (title_or (rss_body r) (lit "Unnamed Feed")) u] true None true
                           (mkSidebar false [] [] [] false None [])).
  { unfold st1. cbn [run_home]. rewrite step_addFeed by exact Ht.
    unfold home_step. cbn -[truthy trim lit title_or]. by rewrite Hr. }
  rewrite E. split_and!; [done|done|]. by apply checked_urls.
Qed.

(** ** Witnesses *)

Example header_after_check :
  header_status (home_step demo_stringify (DefaultsChecked demo_checks) first_visit) = lit "2 feeds active".
Proof. vm_compute. reflexivity. Qed.

Example first_visit_checked :
  feeds (home_step demo_stringify (DefaultsChecked demo_checks) first_visit) =
    [mkFeed (lit "sans-daily-podcast") (lit "SANS ISC") (lit "https://isc.sans.edu/dailypodcast.xml");
     mkFeed (lit "how-i-built-this") (lit "How I Built This") (lit "https://rss.art19.com/how-i-built-this")].
Proof. vm_compute. reflexivity. Qed.

Lemma storage_tracks_feeds_witness :
  storage (home_step demo_stringify (DefaultsChecked demo_checks) first_visit) =
    Some (demo_stringify (feeds (home_step demo_stringify (DefaultsChecked demo_checks) first_visit))).
Proof.
  apply (storage_tracks_feeds demo_stringify demo_parse); [|reflexivity].
  apply home_reach_step, home_reach_start.
Defined.

Lemma defaults_checked_witness :
  let st' := home_step demo_stringify (DefaultsChecked demo_checks) first_visit in
  let fs := drop_nulls (zip_with validate_feed demo_checks defaultFeeds) in
  feeds st' = fs /\ storage st' = Some (demo_stringify fs) /\ isLoading st' = false /\
  selectedFeed st' = (if bool_decide (0 < length fs) then Some All else selectedFeed first_visit).
Proof. apply defaults_checked; reflexivity. Defined.

Lemma double_add_duplicates_witness :
  feeds (run_home demo_stringify [AddFeed; AddFeed; AddDone 0 (Some (ok_answer "X")); AddDone 0 (Some (ok_answer "X"))] typed_url) =
    feeds typed_url ++ [mkFeed demo_url (title_or (rss_body (ok_answer "X")) (lit "Unnamed Feed")) demo_url;
                        mkFeed demo_url (title_or (rss_body (ok_answer "X")) (lit "Unnamed Feed")) demo_url].
Proof. apply double_add_duplicates; vm_compute; reflexivity. Defined.

Lemma add_during_validation_lost_witness :
  let st1 := run_home demo_stringify [OpenAdd; TypeUrl demo_url; AddFeed; AddDone 0 (Some (ok_answer "X"))]
                      (home_start demo_stringify demo_parse None) in
  feeds st1 = [mkFeed demo_url (title_or (rss_body (ok_answer "X")) (lit "Unnamed Feed")) demo_url] /\ storage st1 = None /\
  Forall (fun f => url f <> demo_url) (feeds (home_step demo_stringify (DefaultsChecked demo_checks) st1)).
Proof.
  apply add_during_validation_lost; try (vm_compute; reflexivity).
  apply (bool_decide_unpack (Forall _ _)). vm_compute. reflexivity.
Defined.

End Feeds.
