(* ===== verification/SidebarView.v ===== *)
(** * What the Sidebar shows: components/Sidebar.tsx, lines 91-261

    [render_sidebar] is the Sidebar's output for its props and its own
    state, and [sidebar_view] renders it with the props page.tsx passes
    ([sidebar_props]): the feed
    count, the add button or the add form with its error, the "All
    Feeds" entry and one entry per feed, each highlighted when its id is
    the [selectedFeedId] the page passes, and the Sidebar's own episode
    list.  That list is drawn from the Sidebar's [items], [loading] and
    [selectedFeed] hooks, which nothing sets: in every reachable state it
    is not shown ([sidebar_list_dead]). *)

From S2P Require Import Prelude JsRuntime RssRoute FeedList Feeds.

Module SidebarView.
Import RssRoute FeedList Feeds.

(** ** Data *)

Record FormView := mkFormView { fv_value : jstr; fv_error : option jstr }.

(** One feed entry (lines 170-204). *)
Record EntryView := mkEntryView { ev_key : jstr; ev_name : jstr; ev_highlighted : bool }.

(** One episode of the Sidebar's own list (lines 226-247). *)
Record SideItemView := mkSideItemView {
  si_key : option jstr; si_title : option jstr; si_feedName : option jstr; si_date : jstr; si_selected : bool
}.

Inductive SideListBody := SideSpinner | SideItems (its : list SideItemView) | SideEmpty.

(** The list of lines 209-257: its heading and body. *)
Record SideList := mkSideList { sl_heading : jstr; sl_body : SideListBody }.

Record SidebarView := mkSidebarView {
  count_line : jstr;                 (** line 96 *)
  add_button : bool;                 (** lines 97-108 *)
  form : option FormView;            (** lines 110-144 *)
  all_highlighted : bool;            (** lines 150-169 *)
  entries : list EntryView;
  side_list : option SideList
}.

Section Render.

(** [new Date(item.date).toLocaleDateString(...)]. *)
Variable locale_date : option jstr -> jstr.

Definition side_item (sel : Selection) (selectedItemId : option jstr) (it : FeedItem) : SideItemView :=
  mkSideItemView (id it) (title it)
    (match sel with All => if truthy_opt (feedName it) then feedName it else None | One _ => None end)
    (locale_date (date it)) (bool_decide (selectedItemId = id it)).

Definition side_list_of (selectedItemId : option jstr) (sb : SidebarState) : option SideList :=
  match sb_selectedFeed sb with
  | None => None
  | Some sel =>
      Some (mkSideList
              (match sel with
               | All => lit "Latest " ++ number_toString (length (sb_items sb)) ++ lit " items from all feeds"
               | One f => number_toString (length (sb_items sb)) ++ lit " items from " ++ name f
               end)
              (if sb_loading sb then SideSpinner
               else if bool_decide (0 < length (sb_items sb)) then SideItems (map (side_item sel selectedItemId) (sb_items sb))
               else SideEmpty))
  end.

(** The data props of [SidebarProps] (lines 25-33); the callbacks are
    the events of [HomeEvent]. *)
Record SidebarProps := mkSidebarProps {
  sp_selectedFeedId : option jstr; sp_feeds : list Feed; sp_selectedItemId : option jstr
}.

(** The Sidebar's output for its props and its own state (lines 35-43
    and 91-261). *)
Definition render_sidebar (props : SidebarProps) (sb : SidebarState) : SidebarView :=
  let sid := sp_selectedFeedId props in
  mkSidebarView (number_toString (length (sp_feeds props)) ++ lit " feeds")
    (negb (isAdding sb))
    (if isAdding sb then Some (mkFormView (newFeedUrl sb) (if truthy (sb_error sb) then Some (sb_error sb) else None))
     else None)
    (bool_decide (sid = Some (lit "all")))
    (map (fun f => mkEntryView (feed_id f) (name f) (bool_decide (sid = Some (feed_id f)))) (sp_feeds props))
    (side_list_of (sp_selectedItemId props) sb).

End Render.

(** The props page.tsx passes (lines 157-165). *)
Definition sidebar_props (h : HomeState) : SidebarProps :=
  mkSidebarProps (selectedFeedId (selectedFeed h)) (feeds h)
                 (match selectedItem h with Some it => id it | None => None end).

Definition sidebar_view (locale_date : option jstr -> jstr) (h : HomeState) : SidebarView :=
  render_sidebar locale_date (sidebar_props h) (sidebar h).

(** * Properties *)

(** C35: in every reachable state of the page the Sidebar never shows
    its own episode list (lines 209-257): the hooks it is drawn from keep
    their initial values. *)
Theorem sidebar_list_dead locale_date stringify parse h :
  home_reachable stringify parse h -> side_list (sidebar_view locale_date h) = None.
Proof.
  intros Hr. destruct (sidebar_dead_state stringify parse h Hr) as (_ & _ & Hs).
  unfold sidebar_view, render_sidebar, side_list_of. simpl. by rewrite Hs.
Qed.

(** ** Witnesses *)

Lemma sidebar_list_dead_witness :
  side_list (sidebar_view (fun _ => []) (home_step demo_stringify (DefaultsChecked demo_checks) first_visit)) = None.
Proof.
  apply (sidebar_list_dead _ demo_stringify demo_parse). apply home_reach_step, home_reach_start.
Defined.

(** A URL added twice gives two entries with the same key, both
    highlighted. *)
Example duplicate_entries_highlighted :
  map (fun e => (ev_key e, ev_highlighted e))
      (entries (sidebar_view (fun _ => [])
        (run_home demo_stringify [AddFeed; AddFeed; AddDone 0 (Some (ok_answer "X")); AddDone 0 (Some (ok_answer "X"))]
                  typed_url))) =
  [(demo_url, true); (demo_url, true)].
Proof. vm_compute. reflexivity. Qed.

End SidebarView.
