(* ===== verification/PanelView.v ===== *)
(** * What the episode panel shows: ContentPanel.tsx, lines 217-429

    [render_panel] is the panel's output for its props and state: a
    prompt without content, otherwise the header (title, date, link), the
    audio section with its transcription button, the transcript (a
    skeleton, the cards of TranscriptCards.tsx, or nothing) and the
    sanitised notes.  [new Date(date).toISOString()] is the [Section]
    variable [date_iso], [None] when it throws ([RangeError] on an
    invalid date); [toLocaleDateString] and [DOMPurify.sanitize] with
    the allow-lists of the code are variables too.

    [formatContent] (lines 242-260), the entity decoding that the code
    defines but never calls, is modelled with [replace_all]: the
    sanitiser's output goes through seven global replaces in order. *)

From S2P Require Import Prelude JsRuntime Chunker Panel.

Module PanelView.
Import Chunker Panel.

(** ** Data *)

Inductive ButtonLabel := Transcribing | Transcribed | GenerateTranscript.

(** The audio section (lines 298-386). *)
Record AudioSection := mkAudioSection {
  button : ButtonLabel;
  button_disabled : bool;
  playing_badge : bool;
  progress_pct : Q;              (** the width of the progress bar, in % *)
  error_line : option jstr;
  source : jstr
}.

Inductive TranscriptView := Skeleton | CardsView (ws : list Word) (t : Q) (playing : bool) | NoTranscript.

Record ContentView := mkContentView {
  header_title : option jstr;
  header_date : option (jstr * jstr);   (** [dateTime] and the shown text *)
  header_link : option jstr;
  audio_section : option AudioSection;
  transcript_view : TranscriptView;
  notes_html : jstr
}.

Inductive PanelView := SelectItemPrompt | ContentShown (v : ContentView).

(** [x && <el/>] renders when [x] is truthy. *)
Definition when_truthy (o : option jstr) : option jstr := if truthy_opt o then o else None.

Section Render.

Variable date_iso : jstr -> option jstr.
Variable date_long : jstr -> jstr.
Variable sanitize : jstr -> jstr.

(** The label and state of the transcription button (lines 311-353). *)
Definition transcribe_button (st : PanelState) : ButtonLabel :=
  if st.(isTranscribing) then Transcribing else if st.(isTranscribed) then Transcribed else GenerateTranscript.

(** [(currentTime / (audioRef.current?.duration || 1)) * 100]; the
    duration is [None] while it is [undefined], [NaN] or [0]. *)
Definition progress (duration : option Q) (t : Q) : Q :=
  (t / match duration with Some d => d | None => 1 end * 100)%Q.

Definition audio_view (duration : option Q) (st : PanelState) : option AudioSection :=
  match when_truthy st.(audioUrl) with
  | Some u => Some (mkAudioSection (transcribe_button st) st.(isTranscribing) st.(isPlaying)
                                   (progress duration st.(currentTime)) (when_truthy st.(transcriptError)) u)
  | None => None
  end.

(** Lines 389-411. *)
Definition transcript_view_of (st : PanelState) : TranscriptView :=
  if st.(isTranscribing) then Skeleton
  else if truthy_opt st.(transcript) && (0 <? length st.(words)) then CardsView st.(words) st.(currentTime) st.(isPlaying)
  else NoTranscript.

(** The header's date (lines 268-277); [None] when rendering it throws. *)
Definition date_view (date : option jstr) : option (option (jstr * jstr)) :=
  match when_truthy date with
  | Some d => (fun iso => Some (iso, date_long d)) <$> date_iso d
  | None => Some None
  end.

(** The component's output for [content], [title], [date], [link] and
    the element's duration; [None] when rendering throws. *)
Definition render_panel (title date link : option jstr) (duration : option Q) (st : PanelState) : option PanelView :=
  if negb (truthy_opt st.(content)) then Some SelectItemPrompt
  else (fun hd => ContentShown (mkContentView (when_truthy title) hd (when_truthy link) (audio_view duration st)
                                              (transcript_view_of st) (sanitize (default [] st.(content)))))
       <$> date_view date.

End Render.

(** ** formatContent *)

(** [/<br\s*\/?>/gi]. *)
Definition br_re : matcher :=
  m_seq (m_word (lit "<"))
    (m_seq (m_class (fun c => Ascii.eqb c "b"%char || Ascii.eqb c "B"%char))
      (m_seq (m_class (fun c => Ascii.eqb c "r"%char || Ascii.eqb c "R"%char))
        (m_seq (m_star_greedy is_ws) (m_seq (m_opt (m_char "/"%char)) (m_char ">"%char))))).

(** [/\n{3,}/g]. *)
Definition nl3_re : matcher := m_seq (m_word [nl; nl; nl]) (m_star_greedy (Ascii.eqb nl)).

(** The replaces of lines 250-257, in order. *)
Definition decode_steps : list (matcher * jstr) :=
  [(m_word (lit "&amp;"), lit "&"); (m_word (lit "&lt;"), lit "<"); (m_word (lit "&gt;"), lit ">");
   (m_word (lit "&quot;"), [dquote]); (m_word (lit "&#39;"), lit "'"); (br_re, [nl; nl]); (nl3_re, [nl; nl])].

Definition formatContent (sanitize : jstr -> jstr) (htmlContent : jstr) : jstr :=
  trim (fold_left (fun s mr => replace_all mr.1 mr.2 s) decode_steps (sanitize htmlContent)).

(** ** Lemmas *)

Section Lemmas.
Variable date_iso : jstr -> option jstr.
Variable date_long : jstr -> jstr.
Variable sanitize : jstr -> jstr.

(** The panel throws exactly when it has content and a truthy date that
    [Date] cannot read: [toISOString] raises [RangeError]. *)
Lemma render_panel_throws title date link duration st :
  render_panel date_iso date_long sanitize title date link duration st = None <->
  truthy_opt (content st) = true /\ exists d, date = Some d /\ truthy d = true /\ date_iso d = None.
Proof.
  unfold render_panel, date_view, when_truthy.
  destruct (truthy_opt (content st)); simpl; [|split; [done|intros [? _]; done]].
  rewrite fmap_None. destruct date as [d|]; simpl.
  - destruct (truthy d) eqn:Et; simpl.
    + rewrite fmap_None. split; [intros H; split; [done|by exists d]|intros (_ & d' & [= <-] & _ & H); done].
    + split; [done|intros (_ & d' & [= <-] & H & _); congruence].
  - split; [done|intros (_ & d' & H & _); done].
Qed.

(** The transcript cards are shown exactly when [shows_cards] holds. *)
Lemma transcript_view_cards st :
  (exists ws t p, transcript_view_of st = CardsView ws t p) <-> shows_cards st = true.
Proof.
  unfold transcript_view_of, shows_cards.
  destruct (isTranscribing st); simpl; [split; [intros (? & ? & ? & ?); done|done]|].
  destruct (truthy_opt (transcript st) && (0 <? length (words st))); [|split; [intros (? & ? & ? & ?)|]; done].
  split; [done|eauto].
Qed.

(** With a known duration the bar stays within 0-100 % while the time
    is within the audio. *)
Lemma progress_bounds d t : (0 < d)%Q -> (0 <= t <= d)%Q -> (0 <= progress (Some d) t <= 100)%Q.
Proof.
  intros Hd [H0 H1]. unfold progress. split.
  - apply Qmult_le_0_compat; [|lra]. apply Qle_shift_div_l; lra.
  - apply Qle_trans with (1 * 100)%Q; [|lra]. apply Qmult_le_compat_r; [|lra].
    apply Qle_shift_div_r; lra.
Qed.

End Lemmas.

(** ** Examples *)

(** [&amp;] is decoded first, so an escaped entity is decoded twice: the
    text [&amp;lt;b&amp;gt;] comes out as the tag [<b>]. *)
Example formatContent_double_decode :
  formatContent (fun s => s) (lit "&amp;lt;b&amp;gt;") = lit "<b>".
Proof. vm_compute. reflexivity. Qed.

Example formatContent_br :
  formatContent (fun s => s) (lit "a<BR />b<br>c") = lit "a" ++ [nl; nl] ++ lit "b" ++ [nl; nl] ++ lit "c".
Proof. vm_compute. reflexivity. Qed.

End PanelView.
