(* ===== verification/Page.v ===== *)
(** * The page with its episode list and its episode panel

    page.tsx renders [FeedList] with [selectedFeed={selectedFeed}] and
    [allFeeds={feeds}] (lines 175-180), and [ContentPanel] with the
    selected episode's [content] and [enclosure.url] (lines 190-196).
    [PageState] holds the page of Feeds.v, the list of FeedList.v, the
    panel of Panel.v and the TranscriptCards of Cards.v the panel mounts
    (ContentPanel lines 405-411); after each page event the children are
    rendered with their new props, and run their effects when the props
    they depend on changed.  The cards are mounted when the panel shows
    them, re-rendered with the panel's [words], [currentTime] and
    [isPlaying] ([sync_cards]: the auto-advance effect, then the
    chunking effect) and unmounted when it stops; user input on the
    cards steps them, and the seeks they report go to the panel's
    [handleTimeUpdate].  The list's loads and the panel's own events
    (player, transcription, window messages) are events of their own.
    On the first render the children are mounted with no selection,
    before the page's mount effect runs (a child's effects run first).
    [page_view] is the page's render (lines 122-203): the header's
    status, the Sidebar of SidebarView.v, the list of FeedList.v, the
    panel of PanelView.v and the cards of Cards.v, [None] when a child
    throws, since the page has no error boundary. *)

From S2P Require Import Prelude JsRuntime Chunker Cards RssRoute FeedList Feeds SidebarView Panel PanelView.

Module Page.
Import RssRoute FeedList Feeds PanelView.

(** The page, its episode list, its panel, and the panel's
    TranscriptCards with its props while it is mounted. *)
Record PageState := mkPage {
  home : HomeState; episodes : FeedListState; player : Panel.PanelState;
  cards : option (Cards.Props * Cards.CardsState)
}.

Inductive PageEvent :=
| HomeEv (e : HomeEvent)
| ListLoaded (i : nat) (rs : list (option RssResponse))
| PanelEv (e : Panel.PanelEvent)
| CardsEv (e : Cards.CardsEvent).        (** a click, drag or input on the cards *)

(** [content={selectedItem?.content}] and
    [audioUrl={selectedItem?.enclosure?.url}]. *)
Definition panel_props (h : HomeState) : option jstr * option jstr :=
  match selectedItem h with
  | Some it => (Some (content it), (fun e => enc_url e) <$> enclosure it)
  | None => (None, None)
  end.

(** The panel rendered with the page's props. *)
Definition panel_render (h : HomeState) (p : Panel.PanelState) : Panel.PanelState :=
  Panel.panel_state (Panel.SelectEpisode (panel_props h).1 (panel_props h).2) p.

(** The props ContentPanel passes to TranscriptCards (lines 405-411);
    [onTimeUpdate={handleTimeUpdate}] is always given. *)
Definition cards_props (p : Panel.PanelState) : Cards.Props :=
  Cards.mkProps (Panel.words p) (Panel.currentTime p) (Panel.isPlaying p) true.

(** The cards are mounted when the panel has content (line 230) and
    shows them (line 405). *)
Definition cards_shown (p : Panel.PanelState) : bool := truthy_opt (Panel.content p) && Panel.shows_cards p.

(** The cards after the panel renders: mounted with their props, or
    rendered again with new ones, or unmounted.  A re-render runs the
    auto-advance effect with the new time on the chunks it has, then
    the chunking effect on the new [words] (which gives the same chunks
    when the words did not change). *)
Definition sync_cards (p : Panel.PanelState) (c : option (Cards.Props * Cards.CardsState))
    : option (Cards.Props * Cards.CardsState) :=
  if cards_shown p then
    let pr := cards_props p in
    match c with
    | None => Some (pr, Cards.cards_mount pr)
    | Some (pr0, st) =>
        let r1 := Cards.cards_step pr0 (Cards.PropsChanged (Cards.p_currentTime pr) (Cards.p_isPlaying pr)) st in
        let r2 := Cards.cards_step r1.1 (Cards.WordsChanged (Cards.p_words pr)) r1.2.1 in
        Some (r2.1, r2.2.1)
    end
  else None.

(** The events a user causes on the cards; the other two are
    re-renders. *)
Definition user_event (e : Cards.CardsEvent) : bool :=
  match e with Cards.PropsChanged _ _ | Cards.WordsChanged _ => false | _ => true end.

(** The panel after the cards' [onTimeUpdate] calls, in order. *)
Definition apply_seeks (ts : list Q) (p : Panel.PanelState) : Panel.PanelState :=
  fold_left (fun p t => Panel.panel_state (Panel.CardsSeek t) p) ts p.

Section Page.
Variable date_ms : jstr -> option Z.
Variable stringify : list Feed -> jstr.
Variable parse : jstr -> option (list Feed).

(** The props the page passes to the list. *)
Definition list_props (h : HomeState) : FeedListEvent := Props (Feeds.selectedFeed h) (feeds h).

Definition page_start (s0 : option jstr) : PageState :=
  let h := home_start stringify parse s0 in
  let p := panel_render h (Panel.panel_init None None) in
  mkPage h (fl_step date_ms (list_props h) (fl_mount None [])) p (sync_cards p None).

Definition page_step (ev : PageEvent) (s : PageState) : PageState :=
  match ev with
  | HomeEv e =>
      let h := home_step stringify e (home s) in
      let p := panel_render h (player s) in
      mkPage h (fl_step date_ms (list_props h) (episodes s)) p (sync_cards p (cards s))
  | ListLoaded i rs => mkPage (home s) (fl_step date_ms (LoadDone i rs) (episodes s)) (player s) (cards s)
  | PanelEv (Panel.SelectEpisode _ _) | PanelEv (Panel.CardsSeek _) => s
  | PanelEv e =>
      let p := Panel.panel_state e (player s) in
      mkPage (home s) (episodes s) p (sync_cards p (cards s))
  | CardsEv e =>
      match cards s with
      | Some (pr, st) =>
          if user_event e then
            let r := Cards.cards_step pr e st in
            let p := apply_seeks r.2.2 (player s) in
            mkPage (home s) (episodes s) p (sync_cards p (Some (r.1, r.2.1)))
          else s
      | None => s
      end
  end.

Inductive page_reachable (s0 : option jstr) : PageState -> Prop :=
| page_reach_start : page_reachable s0 (page_start s0)
| page_reach_step ev s : page_reachable s0 s -> page_reachable s0 (page_step ev s).

End Page.

(** ** What the page renders (lines 122-203) *)

(** The header's status line, the three sections and what each child
    renders; a child that throws takes the whole page down, so the
    page's render is [None] when one of them is. *)
Record PageView := mkPageView {
  header_line : jstr;                          (** lines 126-141 *)
  sidebar_shown : SidebarView.SidebarView;     (** lines 157-165 *)
  episode_list : FeedListView;                 (** lines 175-180 *)
  content_panel : PanelView;                   (** lines 190-196 *)
  transcript_cards : option Cards.View         (** ContentPanel.tsx, lines 405-411 *)
}.

(** [selectedItemId={selectedItem?.id}]. *)
Definition selected_item_id (h : HomeState) : option jstr :=
  match selectedItem h with Some it => id it | None => None end.

(** [title], [date] and [link] of ContentPanel: [selectedItem?.title],
    [selectedItem?.date] and [selectedItem?.link]. *)
Definition panel_header (h : HomeState) : option jstr * option jstr * option jstr :=
  match selectedItem h with
  | Some it => (title it, date it, link it)
  | None => (None, None, None)
  end.

Section View.
Variable locale_date : option jstr -> jstr.
Variable url_hostname : jstr -> option jstr.
Variable date_iso : jstr -> option jstr.
Variable date_long : jstr -> jstr.
Variable sanitize : jstr -> jstr.
Variable duration : option Q.

(** What the mounted cards render; [None] when that throws. *)
Definition cards_view (c : option (Cards.Props * Cards.CardsState)) : option (option Cards.View) :=
  match c with
  | Some (pr, st) => Some <$> Cards.render (Cards.p_currentTime pr) st
  | None => Some None
  end.

Definition page_view (s : PageState) : option PageView :=
  let h := home s in
  match FeedList.render locale_date url_hostname (selected_item_id h) (episodes s),
        render_panel date_iso date_long sanitize (panel_header h).1.1 (panel_header h).1.2 (panel_header h).2
                     duration (player s),
        cards_view (cards s) with
  | Some fl, Some pv, Some cv => Some (mkPageView (header_status h) (SidebarView.sidebar_view locale_date h) fl pv cv)
  | _, _, _ => None
  end.

End View.

(** ** A session *)

Definition demo_episode : FeedItem :=
  mkFeedItem (Some (lit "ep1")) (Some (lit "Episode 1")) (lit "d") (lit "<p>notes</p>") (Some (lit "1"))
             None (Some (lit "SANS ISC")) (Some (mkEnclosure (lit "https://x.example/ep1.mp3") None)).

(** A first visit whose check kept two defaults; the "all" view. *)
Definition checked_page : PageState :=
  page_step demo_date demo_stringify (HomeEv (DefaultsChecked demo_checks))
            (page_start demo_date demo_stringify demo_parse None).

(** ** Lemmas *)




(** After the page renders the panel, the panel holds the page's props. *)
Lemma panel_render_props h p :
  Panel.content (panel_render h p) = (panel_props h).1 /\ Panel.audioUrl (panel_render h p) = (panel_props h).2.
Proof. unfold panel_render, Panel.panel_state, Panel.panel_step. by case_bool_decide. Qed.


Lemma home_step_selectItem stringify it h :
  home_step stringify (SelectItem it) h =
    mkHome (Feeds.selectedFeed h) (Some it) (feeds h) (isLoading h) (storage h) (validating h) (sidebar h).
Proof. unfold home_step. simpl. by rewrite Bool.eqb_reflx. Qed.

Lemma home_step_selectFeed stringify sel h :
  Feeds.selectedItem (home_step stringify (SelectFeed sel) h) = None.
Proof. unfold home_step. simpl. by rewrite Bool.eqb_reflx. Qed.


Lemma user_event_props pr e st : user_event e = true -> (Cards.cards_step pr e st).1 = pr.
Proof. destruct e; simpl; by repeat case_match. Qed.

(** The mounted cards, if any, with the props the panel passes and a
    state their own events and re-renders reach. *)
Definition cards_ok (p : Panel.PanelState) (c : option (Cards.Props * Cards.CardsState)) : Prop :=
  match c with
  | Some (pr, st) => cards_shown p = true /\ pr = cards_props p /\ Cards.reachable pr st
  | None => cards_shown p = false
  end.

Lemma reach_next pr e st :
  Cards.reachable pr st -> Cards.reachable (Cards.cards_step pr e st).1 (Cards.cards_step pr e st).2.1.
Proof. intros Hr. destruct (Cards.cards_step pr e st) as [pr' [st' out]] eqn:E. by eapply Cards.reach_step. Qed.

Lemma sync_cards_ok p c :
  (forall pr st, c = Some (pr, st) -> Cards.reachable pr st /\ Cards.p_onTimeUpdate pr = true) ->
  cards_ok p (sync_cards p c).
Proof.
  intros Hc. unfold sync_cards. destruct (cards_shown p) eqn:E; [|done].
  destruct c as [[pr0 st]|]; [|split_and!; [done|done|apply Cards.reach_mount]].
  destruct (Hc pr0 st eq_refl) as [Hr Ho]. cbv zeta. split_and!; [done| |by apply reach_next, reach_next].
  unfold cards_props. simpl. by rewrite Ho.
Qed.


(** Every cards state of the page is one the cards reach on their own,
    with the props the panel passes; the cards are mounted exactly when
    the panel shows them. *)
Lemma page_cards_inv date_ms stringify parse s0 s :
  page_reachable date_ms stringify parse s0 s -> cards_ok (player s) (cards s).
Proof.
  assert (Hok : forall p c pr st, cards_ok p c -> c = Some (pr, st) ->
                  Cards.reachable pr st /\ Cards.p_onTimeUpdate pr = true).
  { intros p c pr st Hc ->. destruct Hc as (_ & -> & Hr). by split. }
  induction 1 as [|[e|i rs|e|e] s Hr IH]; unfold page_start, page_step; cbn [cards player];
    try (apply sync_cards_ok; by intros ?? [=]).
  - apply sync_cards_ok. intros pr st Hc. eapply Hok; [exact IH|exact Hc].
  - exact IH.
  - destruct e; try exact IH; cbn [cards player]; apply sync_cards_ok; intros pr st Hc; eapply Hok; eauto.
  - destruct (cards s) as [[pr st]|] eqn:Ec; [destruct (user_event e) eqn:Eu|]; try (cbv beta iota; rewrite ?Ec; exact IH).
    cbn [cards player]. apply sync_cards_ok. intros pr' st' [= <- <-].
    destruct (Hok _ _ _ _ IH eq_refl) as [Hr' Ho]. split; [by apply reach_next|]. by rewrite user_event_props.
Qed.

Lemma cards_view_None c :
  cards_view c = None <-> exists pr st, c = Some (pr, st) /\ Cards.render (Cards.p_currentTime pr) st = None.
Proof.
  destruct c as [[pr st]|]; simpl; [|split; [done|intros (? & ? & ? & _); done]].
  rewrite fmap_None. split; [eauto|]. by intros (? & ? & [= <- <-] & ?).
Qed.

(** A child that throws takes the page down. *)
Lemma page_view_None locale_date url_hostname date_iso date_long sanitize duration s :
  page_view locale_date url_hostname date_iso date_long sanitize duration s = None <->
  FeedList.render locale_date url_hostname (selected_item_id (home s)) (episodes s) = None \/
  render_panel date_iso date_long sanitize (panel_header (home s)).1.1 (panel_header (home s)).1.2
               (panel_header (home s)).2 duration (player s) = None \/
  cards_view (cards s) = None.
Proof.
  unfold page_view. destruct (FeedList.render _ _ _ _), (render_panel _ _ _ _ _ _ _ _), (cards_view _);
    (split; [intros H; discriminate H || tauto|intros [H|[H|H]]; discriminate H || done]).
Qed.

(** ** Properties *)

(** C26: on a first visit, once the default feeds are checked and some
    answered, the page selects "all" and the list loads every checked
    feed; when the loads are in, the list shows the newest 25 of their
    items. *)
Theorem first_visit_shows_defaults date_ms stringify parse rs rs' :
  length rs = length defaultFeeds ->
  let fs := drop_nulls (zip_with validate_feed rs defaultFeeds) in
  0 < length fs -> length rs' = length fs ->
  let s1 := page_step date_ms stringify (HomeEv (DefaultsChecked rs)) (page_start date_ms stringify parse None) in
  let s2 := page_step date_ms stringify (ListLoaded 0 rs') s1 in
  Feeds.selectedFeed (home s2) = Some All /\ feeds (home s2) = fs /\
  FeedList.items (episodes s2) = merge_all date_ms rs' fs /\ FeedList.loading (episodes s2) = false.
Proof.
  intros Hl fs Hne Hl' s1 s2.
  set (h0 := home_start stringify parse None).
  assert (Hv : validating h0 = true) by reflexivity.
  pose proof (checked_feeds stringify h0 rs Hv Hl) as Hf.
  pose proof (checked_selected stringify h0 rs Hv Hl) as Hs. fold fs in Hf, Hs.
  rewrite bool_decide_eq_true_2 in Hs by done.
  unfold s2, s1, page_step, page_start, list_props. cbn [home episodes]. fold h0.
  rewrite Hf, Hs. simpl. unfold load_done. simpl. rewrite bool_decide_eq_true_2 by done. done.
Qed.

(** C27: choosing an episode in the list whose audio differs from the
    one in the panel shows its notes and audio in the panel, with the
    transcription state of the previous episode cleared and playback at
    the start. *)
Theorem select_item_shows_episode date_ms stringify s it :
  let u := (fun e => enc_url e) <$> enclosure it in
  u <> Panel.audioUrl (player s) ->
  let p := player (page_step date_ms stringify (HomeEv (SelectItem it)) s) in
  Panel.content p = Some (content it) /\ Panel.audioUrl p = u /\
  Panel.isTranscribing p = false /\ Panel.transcript p = None /\ Panel.words p = [] /\
  Panel.transcriptError p = None /\ Panel.isTranscribed p = false /\ Panel.currentTime p = 0%Q.
Proof.
  intros u Hu p. unfold p, page_step. cbn [player]. rewrite home_step_selectItem.
  unfold panel_render, panel_props, Panel.panel_state, Panel.panel_step. cbn [Feeds.selectedItem fst snd].
  rewrite bool_decide_eq_false_2 by exact Hu. done.
Qed.

(** Choosing a feed (or "All Feeds") closes the open episode: the
    panel is given no content and shows its prompt, whatever was
    playing or transcribed. *)
Theorem select_feed_closes_episode date_ms stringify date_iso date_long sanitize s sel title date link duration :
  let p := player (page_step date_ms stringify (HomeEv (SelectFeed sel)) s) in
  Panel.content p = None /\ Panel.audioUrl p = None /\
  render_panel date_iso date_long sanitize title date link duration p = Some SelectItemPrompt.
Proof.
  intros p.
  assert (Hp : Panel.content p = None /\ Panel.audioUrl p = None).
  { unfold p, page_step. cbn [player]. destruct (panel_render_props (home_step stringify (SelectFeed sel) (home s)) (player s)) as [-> ->].
    unfold panel_props. by rewrite home_step_selectFeed. }
  destruct Hp as [Hc Hu]. split_and!; [done|done|]. unfold render_panel. by rewrite Hc.
Qed.


(** C29: the composed page crashes on a second transcript.  While the
    cards of one transcript are shown on a later card and the audio is
    paused, the answer to another pending request with fewer chunks
    replaces the words of the mounted cards; the chunking effect keeps
    [currentChunkIndex], so the next render of the page throws.  Two
    requests are pending when the user asks for a transcript, switches
    episode and asks again. *)
Theorem second_transcript_crashes_page date_ms stringify locale_date url_hostname date_iso date_long sanitize
    duration s url rp t raws pr st :
  cards s = Some (pr, st) -> Panel.isPlaying (player s) = false -> truthy_opt (Panel.content (player s)) = true ->
  url ∈ Panel.requests (player s) -> Panel.transcribe_result rp = inl (t, raws) -> raws <> [] ->
  length (Chunker.split_chunks (map Panel.to_word raws)) <= Cards.currentChunkIndex st ->
  page_view locale_date url_hostname date_iso date_long sanitize duration
    (page_step date_ms stringify (PanelEv (Panel.TranscribeArrive url rp)) s) = None.
Proof.
  intros Hc Hp Hcont Hin Hres Hne Hlen. apply page_view_None. right. right. apply cards_view_None.
  unfold page_step. cbn [cards player].
  set (p := Panel.panel_state (Panel.TranscribeArrive url rp) (player s)).
  assert (Hpf : Panel.isPlaying p = false /\ Panel.words p = map Panel.to_word raws /\ cards_shown p = true).
  { unfold p, Panel.panel_state, Panel.panel_step. rewrite bool_decide_eq_true_2 by done.
    unfold Panel.handleTranscribeReply. rewrite Hres. cbn [fst Panel.isPlaying Panel.words]. split_and!; [done|done|].
    unfold cards_shown, Panel.shows_cards. cbn [Panel.content Panel.isTranscribing Panel.transcript Panel.words].
    rewrite Hcont. apply Panel.transcribe_result_ok in Hres. simpl. rewrite Hres. by destruct raws. }
  destruct Hpf as (Hpl & Hw & Hsh). unfold sync_cards. rewrite Hsh, Hc. cbv zeta.
  eexists _, _. split; [reflexivity|]. apply Cards.render_None_iff.
  unfold cards_props. cbn [Cards.p_isPlaying Cards.p_currentTime Cards.p_words]. rewrite Hpl, Hw.
  destruct (Cards.props_change_paused pr st (Panel.currentTime p)) as [-> Hp1].
  rewrite Cards.words_change_paused by exact Hp1.
  assert (Hws : map Panel.to_word raws <> []) by (by destruct raws).
  rewrite Cards.chunk_effect_chunks, Cards.chunk_effect_index by done.
  split; [by apply Cards.split_chunks_nonempty|done].
Qed.

(** ** Witness *)

Lemma first_visit_shows_defaults_witness :
  let fs := drop_nulls (zip_with validate_feed demo_checks defaultFeeds) in
  let s1 := page_step demo_date demo_stringify (HomeEv (DefaultsChecked demo_checks))
                      (page_start demo_date demo_stringify demo_parse None) in
  let s2 := page_step demo_date demo_stringify (ListLoaded 0 [Some answerA; Some answerB]) s1 in
  Feeds.selectedFeed (home s2) = Some All /\ feeds (home s2) = fs /\
  FeedList.items (episodes s2) = merge_all demo_date [Some answerA; Some answerB] fs /\
  FeedList.loading (episodes s2) = false.
Proof. apply first_visit_shows_defaults; vm_compute; [reflexivity|lia|reflexivity]. Defined.

Lemma select_item_shows_episode_witness :
  let p := player (page_step demo_date demo_stringify (HomeEv (SelectItem demo_episode)) checked_page) in
  Panel.content p = Some (content demo_episode) /\ Panel.audioUrl p = (fun e => enc_url e) <$> enclosure demo_episode /\
  Panel.isTranscribing p = false /\ Panel.transcript p = None /\ Panel.words p = [] /\
  Panel.transcriptError p = None /\ Panel.isTranscribed p = false /\ Panel.currentTime p = 0%Q.
Proof. apply select_item_shows_episode. vm_compute. discriminate. Defined.

Definition opened_page : PageState :=
  page_step demo_date demo_stringify (HomeEv (SelectItem demo_episode)) checked_page.


(** Two transcripts crossed: episode 1 is opened and its transcript
    requested, episode 2 is opened and its transcript requested, the
    first answer comes (101 one-second words, two cards), the audio
    plays into the second card and is paused there, and the second
    answer comes with three words. *)
Definition demo_episode2 : FeedItem :=
  mkFeedItem (Some (lit "ep2")) (Some (lit "Episode 2")) (lit "d") (lit "<p>more notes</p>") (Some (lit "2"))
             None (Some (lit "SANS ISC")) (Some (mkEnclosure (lit "https://x.example/ep2.mp3") None)).

Definition demo_raw (n : nat) : list Panel.RawWord :=
  map (fun i => Panel.mkRawWord (lit (if i =? 99 then "w." else "w")) None
                  (inject_Z (Z.of_nat i)) (inject_Z (Z.of_nat (S i))) None None) (seq 0 n).

Definition demo_reply (n : nat) : Panel.TranscribeReply :=
  Panel.TrResponse true (Panel.mkTranscribeBody None (Some (lit "w")) (Some (demo_raw n))).

Definition crossed_page : PageState :=
  fold_left (fun s e => page_step demo_date demo_stringify e s)
    [HomeEv (SelectItem demo_episode); PanelEv Panel.GenerateTranscript;
     HomeEv (SelectItem demo_episode2); PanelEv Panel.GenerateTranscript;
     PanelEv (Panel.TranscribeArrive (Some (lit "https://x.example/ep1.mp3")) (demo_reply 101));
     PanelEv Panel.NativePlay; PanelEv (Panel.Elapse (201#2)); PanelEv Panel.NativePause]
    checked_page.

Lemma second_transcript_crashes_page_witness :
  is_Some (page_view (fun _ => []) (fun l => Some l) (fun d => Some d) (fun _ => []) (fun x => x) None crossed_page) /\
  page_view (fun _ => []) (fun l => Some l) (fun d => Some d) (fun _ => []) (fun x => x) None
    (page_step demo_date demo_stringify
       (PanelEv (Panel.TranscribeArrive (Some (lit "https://x.example/ep2.mp3")) (demo_reply 3))) crossed_page) = None.
Proof.
  split; [vm_compute; eexists; reflexivity|].
  destruct (cards crossed_page) as [[pr st]|] eqn:E; [|vm_compute in E; discriminate].
  apply (second_transcript_crashes_page demo_date demo_stringify _ _ _ _ _ _ crossed_page _ _ (lit "w")
           (demo_raw 3) pr st E).
  - vm_compute. reflexivity.
  - vm_compute. reflexivity.
  - vm_compute. left.
  - vm_compute. reflexivity.
  - vm_compute. discriminate.
  - vm_compute in E. injection E as <- <-. vm_compute. lia.
Defined.

(** Opening an episode whose date [Date] cannot read takes the page
    down; with a readable date the same page renders. *)
Example bad_date_crashes_page :
  page_view (fun _ => []) (fun l => Some l) (fun _ => None) (fun _ => []) (fun x => x) None opened_page = None /\
  is_Some (page_view (fun _ => []) (fun l => Some l) (fun d => Some d) (fun _ => []) (fun x => x) None opened_page).
Proof. vm_compute. split; [reflexivity|eexists; reflexivity]. Qed.

(** Deleting the feed an open episode came from, in the "all" view,
    leaves the episode open in the panel: the page does not know which
    feed the selected episode belongs to. *)
Example deleted_feed_episode_stays :
  let s := page_step demo_date demo_stringify (HomeEv (DeleteFeed true (lit "sans-daily-podcast")))
             (page_step demo_date demo_stringify (HomeEv (SelectItem demo_episode)) checked_page) in
  map feed_id (feeds (home s)) = [lit "how-i-built-this"] /\ Panel.content (player s) = Some (content demo_episode).
Proof. vm_compute. split; reflexivity. Qed.

End Page.
