(* ===== verification/ChunkLoader.v ===== *)
(** * Chunk loading: lib/chunkLoader.ts and next.config.js

    [retryChunkLoad] imports a chunk and, while the import fails and
    fewer than [maxRetries] retries were made, waits [2^retries] seconds
    after counting the retry and imports again; the last failure is
    thrown.  The [k]-th call of [import] is the [Section] variable
    [dynamic_import path k], a chunk or an error.  The model returns the
    trace of imports and waits with the result; its fuel, one more than
    [maxRetries], is enough (see [loadChunk_spec]).

    next.config.js's [webpack] hook changes the configuration: watch
    options, the split chunks of a development build, and on the client a
    single runtime chunk, a 60 s chunk timeout and an entry that puts
    chunkLoader.ts first in ['main.js']. *)

From S2P Require Import Prelude JsRuntime.

Module ChunkLoader.

(** ** retryChunkLoad *)

Inductive Act := Import (path : jstr) | Sleep (ms : Z).

Inductive Res {Chunk Err : Type} := Resolved (c : Chunk) | Rejected (e : Err) | Stuck.
Arguments Res : clear implicits.

Definition DEFAULT_MAX_RETRIES : nat := 3.

(** [Math.pow(2, retries) * 1000], after [retries++]. *)
Definition backoff (retries : nat) : Z := (2 ^ Z.of_nat retries * 1000)%Z.

Section Retry.
Context {Chunk Err : Type}.
Variable dynamic_import : jstr -> nat -> Chunk + Err.

(** [loadChunk] (lines 4-17), with [retries] the value of the shared
    counter when the call starts. *)
Fixpoint loadChunk (fuel : nat) (path : jstr) (maxRetries retries : nat) : list Act * Res Chunk Err :=
  match fuel with
  | O => ([], Stuck)
  | S fuel' =>
      match dynamic_import path retries with
      | inl c => ([Import path], Resolved c)
      | inr e =>
          if retries <? maxRetries then
            let retries' := S retries in
            let '(tr, r) := loadChunk fuel' path maxRetries retries' in
            (Import path :: Sleep (backoff retries') :: tr, r)
          else ([Import path], Rejected e)
      end
  end.

(** [retryChunkLoad(chunkId, maxRetries)] (lines 1-20). *)
Definition retryChunkLoad (chunkId : jstr) (maxRetries : nat) : list Act * Res Chunk Err :=
  loadChunk (S maxRetries) (lit "../../" ++ chunkId) maxRetries 0.

End Retry.

Definition is_failure {Chunk Err : Type} (x : Chunk + Err) : Prop :=
  match x with inl _ => False | inr _ => True end.

(** The trace of the calls [r] to [k], each but the last followed by its
    wait. *)
Definition schedule (path : jstr) (r k : nat) : list Act :=
  flat_map (fun j => [Import path; Sleep (backoff (S j))]) (seq r (k - r)) ++ [Import path].

Fixpoint total_sleep (tr : list Act) : Z :=
  match tr with
  | [] => 0%Z
  | Sleep ms :: tr' => (ms + total_sleep tr')%Z
  | Import _ :: tr' => total_sleep tr'
  end.

Fixpoint imports (tr : list Act) : nat :=
  match tr with
  | [] => 0
  | Import _ :: tr' => S (imports tr')
  | Sleep _ :: tr' => imports tr'
  end.

(** ** The webpack hook of next.config.js *)

Record CacheGroup := mkCacheGroup {
  cg_name : jstr; cg_chunks : jstr; cg_test : option jstr; cg_minChunks : option nat;
  cg_priority : Z; cg_reuseExistingChunk : bool; cg_enforce : bool
}.

(** [config.optimization.splitChunks] of a development build (lines
    12-36); [default] and [vendors] are turned off. *)
Record SplitChunks := mkSplitChunks {
  sc_chunks : jstr; sc_minSize : Z; sc_maxSize : Z; sc_cacheGroups : list CacheGroup
}.

Definition dev_splitChunks : SplitChunks :=
  mkSplitChunks (lit "all") 20000%Z 70000%Z
    [mkCacheGroup (lit "vendor") (lit "all") (Some (lit "node_modules")) None 20%Z false false;
     mkCacheGroup (lit "common") (lit "all") None (Some 2) 10%Z true true].

(** The entry points: each name with its module list, in order. *)
Definition Entries := list (jstr * list jstr).

Record WebpackConfig := mkConfig {
  watchOptions : option (Z * Z);   (** aggregateTimeout, poll *)
  splitChunks : option SplitChunks;
  runtimeChunk : option jstr;
  chunkLoadTimeout : option Z;
  entry : unit -> Entries              (** [config.entry], awaited *)
}.

Definition loader_module : jstr := lit "./src/app/lib/chunkLoader.ts".
Definition main_js : jstr := lit "main.js".

(** [if (entries['main.js']) entries['main.js'].unshift(...)]. *)
Fixpoint unshift_main (es : Entries) : Entries :=
  match es with
  | [] => []
  | (n, ms) :: es' => if bool_decide (n = main_js) then (n, loader_module :: ms) :: es' else (n, ms) :: unshift_main es'
  end.

(** [webpack(config, { isServer, dev })] (lines 3-56). *)
Definition webpack (config : WebpackConfig) (isServer dev : bool) : WebpackConfig :=
  let c1 := mkConfig (Some (300%Z, 1000%Z)) (if dev then Some dev_splitChunks else config.(splitChunks))
                     config.(runtimeChunk) config.(chunkLoadTimeout) config.(entry) in
  if isServer then c1
  else mkConfig c1.(watchOptions) c1.(splitChunks) (Some (lit "single")) (Some 60000%Z)
                (fun u => unshift_main (c1.(entry) u)).

(** [entries[n]]. *)
Fixpoint entry_of (n : jstr) (es : Entries) : option (list jstr) :=
  match es with
  | [] => None
  | (m, ms) :: es' => if bool_decide (m = n) then Some ms else entry_of n es'
  end.

(** ** Sample imports *)

(** An import that fails its first [n] calls. *)
Definition flaky (n : nat) (path : jstr) (k : nat) : jstr + jstr :=
  if k <? n then inr (lit "ChunkLoadError") else inl path.

(** ** Lemmas *)

Lemma unshift_main_entry n es :
  entry_of n (unshift_main es) = if bool_decide (n = main_js) then cons loader_module <$> entry_of n es else entry_of n es.
Proof.
  induction es as [|[m ms] es IH]; simpl; [by case_bool_decide|].
  case_bool_decide as Hm; simpl; case_bool_decide; case_bool_decide; subst; simpl; try done;
    try case_bool_decide; by simplify_eq.
Qed.

Lemma schedule_last path r : schedule path r r = [Import path].
Proof. unfold schedule. by rewrite Nat.sub_diag. Qed.

Lemma schedule_cons path r k :
  r < k -> schedule path r k = Import path :: Sleep (backoff (S r)) :: schedule path (S r) k.
Proof. intros H. unfold schedule. replace (k - r) with (S (k - S r)) by lia. done. Qed.

Lemma imports_schedule path n r : imports (schedule path r (r + n)) = S n.
Proof.
  revert r. induction n as [|n IH]; intros r; [by rewrite Nat.add_0_r, schedule_last|].
  rewrite schedule_cons by lia. simpl. replace (r + S n) with (S r + n) by lia. by rewrite IH.
Qed.

Lemma sleep_schedule path n r :
  total_sleep (schedule path r (r + n)) = (1000 * (2 ^ Z.of_nat (r + n + 1) - 2 ^ Z.of_nat (r + 1)))%Z.
Proof.
  revert r. induction n as [|n IH]; intros r.
  - rewrite Nat.add_0_r, schedule_last. simpl. lia.
  - rewrite schedule_cons by lia. simpl total_sleep. replace (r + S n) with (S r + n) by lia.
    rewrite IH. unfold backoff. replace (S r + n + 1) with (r + S n + 1) by lia.
    replace (Z.of_nat (S r + 1)) with (Z.succ (Z.of_nat (S r))) by lia.
    replace (Z.of_nat (r + 1)) with (Z.of_nat (S r)) by lia.
    rewrite Z.pow_succ_r by lia. lia.
Qed.

Section RetryLemmas.
Context {Chunk Err : Type}.
Variable dynamic_import : jstr -> nat -> Chunk + Err.

(** With enough fuel, [loadChunk] makes the calls [r] to [k], where [k]
    is the first call that succeeds or the last one allowed, and ends
    with that call's outcome. *)
Lemma loadChunk_spec fuel path maxRetries r :
  r <= maxRetries -> maxRetries - r < fuel ->
  exists k, r <= k <= maxRetries /\
    (forall j, r <= j < k -> is_failure (dynamic_import path j)) /\
    (k < maxRetries -> ~ is_failure (dynamic_import path k)) /\
    loadChunk dynamic_import fuel path maxRetries r =
      (schedule path r k, match dynamic_import path k with inl c => Resolved c | inr e => Rejected e end).
Proof.
  revert r. induction fuel as [|fuel IH]; intros r Hr Hf; [lia|]. simpl.
  destruct (dynamic_import path r) as [c|e] eqn:Ei.
  - exists r. split_and!; [lia|lia|intros j ?; lia|rewrite Ei; simpl; tauto|]. by rewrite schedule_last, Ei.
  - destruct (r <? maxRetries) eqn:Elt; [apply Nat.ltb_lt in Elt|apply Nat.ltb_ge in Elt].
    + destruct (IH (S r)) as (k & Hk & Hfail & Hlast & ->); [lia|lia|].
      exists k. split_and!; [lia|lia| |done|].
      * intros j Hj. destruct (decide (j = r)) as [->|]; [by rewrite Ei|]. apply Hfail. lia.
      * by rewrite (schedule_cons path r k) by lia.
    + exists r. split_and!; [lia|lia|intros j ?; lia|lia|]. by rewrite schedule_last, Ei.
Qed.

End RetryLemmas.

(** ** Properties *)

(** C37: [retryChunkLoad] always ends, resolved or rejected, after at
    most [maxRetries + 1] imports, having waited 2 s, 4 s, ... before the
    retries: [1000 * (2^(k+1) - 2)] ms in all for [k] retries. *)
Theorem retryChunkLoad_bounded {Chunk Err} (dynamic_import : jstr -> nat -> Chunk + Err) chunkId maxRetries :
  snd (retryChunkLoad dynamic_import chunkId maxRetries) <> Stuck /\
  exists k, k <= maxRetries /\ imports (fst (retryChunkLoad dynamic_import chunkId maxRetries)) = S k /\
    total_sleep (fst (retryChunkLoad dynamic_import chunkId maxRetries)) = (1000 * (2 ^ Z.of_nat (k + 1) - 2))%Z.
Proof.
  unfold retryChunkLoad.
  destruct (loadChunk_spec dynamic_import (S maxRetries) (lit "../../" ++ chunkId) maxRetries 0)
    as (k & Hk & _ & _ & ->); [lia|lia|].
  split; [simpl; by case_match|]. exists k. split_and!; [lia| |].
  - apply (imports_schedule _ k 0).
  - simpl fst. rewrite (sleep_schedule _ k 0). simpl. lia.
Qed.

(** C38: when some import within the allowed retries succeeds, the
    load resolves, with the first chunk an import gave. *)
Theorem retryChunkLoad_resolves {Chunk Err} (dynamic_import : jstr -> nat -> Chunk + Err) chunkId maxRetries k c :
  k <= maxRetries -> dynamic_import (lit "../../" ++ chunkId) k = inl c ->
  exists k' c', k' <= k /\ dynamic_import (lit "../../" ++ chunkId) k' = inl c' /\
    snd (retryChunkLoad dynamic_import chunkId maxRetries) = Resolved c'.
Proof.
  intros Hk Hc. unfold retryChunkLoad.
  destruct (loadChunk_spec dynamic_import (S maxRetries) (lit "../../" ++ chunkId) maxRetries 0)
    as (k' & Hk' & Hfail & Hlast & ->); [lia|lia|].
  assert (k' <= k).
  { destruct (decide (k < k')) as [Hlt|]; [|lia]. exfalso.
    assert (Hk0 : 0 <= k < k') by lia. specialize (Hfail k Hk0). by rewrite Hc in Hfail. }
  destruct (dynamic_import _ k') as [c'|e] eqn:E.
  - by exists k', c'.
  - exfalso. destruct (decide (k' < maxRetries)) as [Hl|Hl]; [apply Hlast; [done|exact I]|].
    assert (k = k') as <- by lia. congruence.
Qed.

(** When every allowed import fails, [retryChunkLoad] makes all
    [maxRetries + 1] of them and rejects with the last error. *)
Theorem retryChunkLoad_rejects {Chunk Err} (dynamic_import : jstr -> nat -> Chunk + Err) chunkId maxRetries e :
  (forall j, j < maxRetries -> is_failure (dynamic_import (lit "../../" ++ chunkId) j)) ->
  dynamic_import (lit "../../" ++ chunkId) maxRetries = inr e ->
  retryChunkLoad dynamic_import chunkId maxRetries = (schedule (lit "../../" ++ chunkId) 0 maxRetries, Rejected e).
Proof.
  intros Hf He. unfold retryChunkLoad.
  destruct (loadChunk_spec dynamic_import (S maxRetries) (lit "../../" ++ chunkId) maxRetries 0)
    as (k & Hk & _ & Hlast & ->); [lia|lia|].
  destruct (decide (k = maxRetries)) as [->|Hne]; [by rewrite He|].
  exfalso. apply Hlast; [lia|]. apply Hf. lia.
Qed.

(** A client build puts chunkLoader.ts first in the ['main.js']
    entry and leaves the other entries alone, with one runtime chunk and
    a 60 s chunk timeout; a server build keeps the entry. *)
Theorem webpack_client_entry config dev n u :
  entry_of n (entry (webpack config false dev) u) =
    (if bool_decide (n = main_js) then cons loader_module <$> entry_of n (entry config u) else entry_of n (entry config u)) /\
  runtimeChunk (webpack config false dev) = Some (lit "single") /\
  chunkLoadTimeout (webpack config false dev) = Some 60000%Z /\
  entry_of n (entry (webpack config true dev) u) = entry_of n (entry config u).
Proof. split_and!; [apply unshift_main_entry|done..]. Qed.

(** ** Witnesses *)

Example three_failures :
  retryChunkLoad (flaky 9) (lit "chunk") DEFAULT_MAX_RETRIES =
    ([Import (lit "../../chunk"); Sleep 2000; Import (lit "../../chunk"); Sleep 4000;
      Import (lit "../../chunk"); Sleep 8000; Import (lit "../../chunk")], Rejected (lit "ChunkLoadError")).
Proof. vm_compute. reflexivity. Qed.

Lemma retryChunkLoad_resolves_witness :
  exists k' c', k' <= 2 /\ flaky 2 (lit "../../" ++ lit "chunk") k' = inl c' /\
    snd (retryChunkLoad (flaky 2) (lit "chunk") DEFAULT_MAX_RETRIES) = Resolved c'.
Proof. apply (retryChunkLoad_resolves (flaky 2) (lit "chunk") DEFAULT_MAX_RETRIES 2 (lit "../../chunk")); vm_compute; [lia|reflexivity]. Defined.

Lemma retryChunkLoad_rejects_witness :
  retryChunkLoad (flaky 9) (lit "chunk") DEFAULT_MAX_RETRIES =
    (schedule (lit "../../" ++ lit "chunk") 0 DEFAULT_MAX_RETRIES, Rejected (lit "ChunkLoadError")).
Proof.
  apply retryChunkLoad_rejects; [|vm_compute; reflexivity].
  intros j Hj. unfold flaky. replace (j <? 9) with true; [done|]. symmetry. apply Nat.ltb_lt. unfold DEFAULT_MAX_RETRIES in Hj. lia.
Defined.

End ChunkLoader.
