(* ===== verification/Presentation.v ===== *)
(** * Presentation and configuration: Logo, Footer, layout, Tailwind, Next

    - tailwind.config.ts is data: the [content] globs Tailwind scans for
      class names, and the theme extensions (two background images, the
      [flicker] keyframes and animation).  [animation_ok] resolves an
      [animate-*] class the way Tailwind does, against the extensions
      and the default theme, and checks that its keyframes exist and
      that an infinite animation starts and ends on the same frame.
    - next.config.js's flags other than the webpack hook (ChunkLoader.v)
      are [next_flags]; Next.js reads them, the program does not.
    - Logo.tsx and Footer.tsx are the trees [Logo] and [Footer] of
      Markup.v; the footer's year, [new Date().getFullYear()], is the
      parameter [year].  [<Link>] of next/link renders an [<a>] with the
      same attributes.
    - layout.tsx is [RootLayout]: the page slot and the chat bot inside
      [<main>], then the footer; [metadata] is its exported metadata and
      the font's class name ([Inter(...).className]) is a parameter. *)

From S2P Require Import Prelude JsRuntime Glob Markup.

Module Presentation.
Import Glob Markup.

(** ** tailwind.config.ts *)

Record Keyframe := mkKeyframe { kf_selector : jstr; kf_decls : list (jstr * jstr) }.

Record TailwindConfig := mkTailwind {
  content : list jstr;
  backgroundImage : list (jstr * jstr);
  keyframes : list (jstr * list Keyframe);
  animation : list (jstr * jstr);
  plugins : list jstr
}.

Definition tailwind_config : TailwindConfig :=
  mkTailwind
    [lit "./src/pages/**/*.{js,ts,jsx,tsx,mdx}";
     lit "./src/components/**/*.{js,ts,jsx,tsx,mdx}";
     lit "./src/app/**/*.{js,ts,jsx,tsx,mdx}"]
    [(lit "gradient-radial", lit "radial-gradient(var(--tw-gradient-stops))");
     (lit "gradient-conic", lit "conic-gradient(from 180deg at 50% 50%, var(--tw-gradient-stops))")]
    [(lit "flicker", [mkKeyframe (lit "0%, 100%") [(lit "opacity", lit "1")];
                      mkKeyframe (lit "50%") [(lit "opacity", lit "0.8")]])]
    [(lit "flicker", lit "flicker 3s ease-in-out infinite")]
    [].

(** Tailwind's default theme: the [animate-*] utilities and the
    keyframes they use (library data, not repository code). *)
Definition default_animations : list (jstr * jstr) :=
  [(lit "none", lit "none"); (lit "spin", lit "spin 1s linear infinite");
   (lit "ping", lit "ping 1s cubic-bezier(0, 0, 0.2, 1) infinite");
   (lit "pulse", lit "pulse 2s cubic-bezier(0.4, 0, 0.6, 1) infinite");
   (lit "bounce", lit "bounce 1s infinite")].

Definition default_keyframes : list jstr := [lit "spin"; lit "ping"; lit "pulse"; lit "bounce"].

Definition assoc {A} (k : jstr) (l : list (jstr * A)) : option A :=
  snd <$> find (fun kv => bool_decide (kv.1 = k)) l.

(** [theme.extend] entries come first, so they override a default of
    the same name. *)
Definition animate_utility (cfg : TailwindConfig) (cls : jstr) : option jstr :=
  if starts_with (lit "animate-") cls then assoc (drop 8 cls) (animation cfg ++ default_animations) else None.

(** The keyframes an [animation] value names: its first word. *)
Definition keyframes_name (v : jstr) : jstr := default [] (head (split_on " "%char v)).

(** The declarations at a percentage: the first block whose selector
    list has it. *)
Definition frame (p : jstr) (kfs : list Keyframe) : option (list (jstr * jstr)) :=
  kf_decls <$> find (fun k => bool_decide (p ∈ map trim (split_on ","%char (kf_selector k)))) kfs.

Definition seamless (kfs : list Keyframe) : bool :=
  bool_decide (is_Some (frame (lit "0%") kfs)) && bool_decide (frame (lit "0%") kfs = frame (lit "100%") kfs).

Definition animation_ok (cfg : TailwindConfig) (cls : jstr) : bool :=
  match animate_utility cfg cls with
  | Some v =>
      let k := keyframes_name v in
      match assoc k (keyframes cfg) with
      | Some kfs => seamless kfs
      | None => bool_decide (k ∈ lit "none" :: default_keyframes)
      end
  | None => false
  end.

(** ** next.config.js, lines 57-68 *)

Record NextFlags := mkNextFlags {
  swcMinify : bool; compress : bool; productionBrowserSourceMaps : bool;
  serverTimeoutMs : Z; poweredByHeader : bool; reactStrictMode : bool
}.

Definition next_flags : NextFlags := mkNextFlags true true false 60000 false true.

(** ** Logo.tsx *)

Definition cls (c : string) : jstr * jstr := (lit "className", lit c).
Definition at_ (k v : string) : jstr * jstr := (lit k, lit v).

Definition Logo : Node :=
  Elem (lit "div") [cls "flex items-center space-x-2"]
    [Elem (lit "div") [cls "relative"]
       [Elem (lit "svg") [cls "w-10 h-10"; at_ "viewBox" "0 0 40 40"; at_ "fill" "none";
                          at_ "xmlns" "http://www.w3.org/2000/svg"]
          [Elem (lit "path")
             [at_ "d" "M20 30c5.523 0 10-4.477 10-10V10c0-5.523-4.477-10-10-10S10 4.477 10 10v10c0 5.523 4.477 10 10 10z";
              at_ "fill" "url(#gradient-mic)"] [];
           Elem (lit "path")
             [cls "animate-flicker";
              at_ "d" "M20 35c8 0 12-4 12-4s-4-8-4-12c0-4-2-6-4-6s-4 2-4 6c0-4-2-6-4-6s-4 2-4 6c0 4-4 12-4 12s4 4 12 4z";
              at_ "fill" "url(#gradient-fire)"] [];
           Elem (lit "defs") []
             [Elem (lit "linearGradient") [at_ "id" "gradient-mic"; at_ "x1" "10"; at_ "y1" "0"; at_ "x2" "30";
                                           at_ "y2" "30"; at_ "gradientUnits" "userSpaceOnUse"]
                [Elem (lit "stop") [at_ "stopColor" "#3B82F6"] [];
                 Elem (lit "stop") [at_ "offset" "1"; at_ "stopColor" "#1D4ED8"] []];
              Elem (lit "linearGradient") [at_ "id" "gradient-fire"; at_ "x1" "8"; at_ "y1" "13"; at_ "x2" "32";
                                           at_ "y2" "35"; at_ "gradientUnits" "userSpaceOnUse"]
                [Elem (lit "stop") [at_ "stopColor" "#EF4444"] [];
                 Elem (lit "stop") [at_ "offset" "1"; at_ "stopColor" "#DC2626"] []]]]];
     Elem (lit "div") [cls "flex flex-col"]
       [Elem (lit "span") [cls "text-2xl font-bold bg-clip-text text-transparent bg-gradient-to-r from-blue-600 to-red-600"]
          [Text (lit "Hawi")];
        Elem (lit "span") [cls "text-sm font-medium text-gray-500"] [Text (lit "SmartRSSFeed")]]].

(** ** Footer.tsx *)

Definition copyright_sign : ascii := ascii_of_nat 169.

Definition Footer (year : nat) : Node :=
  Elem (lit "footer") [cls "w-full bg-gradient-to-r from-gray-900 to-gray-800 text-white py-8 mt-auto"]
    [Elem (lit "div") [cls "max-w-7xl mx-auto px-4 sm:px-6 lg:px-8"]
       [Elem (lit "div") [cls "flex flex-col md:flex-row justify-between items-center space-y-4 md:space-y-0"]
          [Elem (lit "div") [cls "flex items-center space-x-2"]
             [Elem (lit "span") [cls "text-2xl font-bold bg-clip-text text-transparent bg-gradient-to-r from-blue-400 to-teal-400"]
                [Text (lit "SmartRSSFeed")]];
           Elem (lit "div") [cls "flex flex-col items-center md:items-end space-y-2"]
             [Elem (lit "p") [cls "text-sm text-gray-400"]
                [Text (lit "Dev by"); Text (lit " ");
                 Elem (lit "a") [at_ "href" "https://medahad.github.io"; at_ "target" "_blank";
                                 at_ "rel" "noopener noreferrer";
                                 cls "text-blue-400 hover:text-blue-300 transition-colors duration-200 font-medium"]
                   [Text (lit "MEda")]];
              Elem (lit "p") [cls "text-xs text-gray-500"]
                [Text [copyright_sign; " "%char]; Text (number_toString year); Text (lit " All rights reserved")]]]]].

(** ** layout.tsx *)

Record Metadata := mkMetadata { title : jstr; description : jstr }.

Definition metadata : Metadata :=
  mkMetadata (lit "Smart-PodcastFeed") (lit "A modern podcast feed reader with AI-powered insights").

Definition RootLayout (inter_className : jstr) (year : nat) (children : Node) : Node :=
  Elem (lit "html") [at_ "lang" "en"]
    [Elem (lit "body") [(lit "className", inter_className ++ lit " flex flex-col min-h-screen")]
       [Elem (lit "main") [cls "flex-grow"] [children; Comp (lit "AIChatBot")];
        Footer year]].

(** ** The files the [content] globs select *)

Definition source_roots : list jstr := [lit "pages"; lit "components"; lit "app"].
Definition source_exts : list jstr := [lit "js"; lit "ts"; lit "jsx"; lit "tsx"; lit "mdx"].

(** The parsed form of [./src/<root>/**/*.{js,ts,jsx,tsx,mdx}]. *)
Definition glob_form (root : jstr) : list PatSeg :=
  [Seg [SLit "."%char]; Seg (map SLit (lit "src")); Seg (map SLit root); Globstar;
   Seg [SStar; SLit "."%char; SAlt source_exts]].

(** ** Lemmas *)

(** The footer's elements do not depend on the year it shows. *)
Lemma Footer_elems year : elems (Footer year) = elems (Footer 0).
Proof. reflexivity. Qed.

Lemma Footer_links_safe year : links_safe (Footer year) = true.
Proof. unfold links_safe. rewrite Footer_elems. vm_compute. reflexivity. Qed.


Lemma lits_no_slash : Forall (fun s => slash ∉ s) (source_roots ++ source_exts ++ [lit "."; lit "src"]).
Proof. decide_closed. Qed.

(** The last segment: any name, a dot and one of the extensions. *)
Lemma file_matches f :
  seg_matches [SStar; SLit "."%char; SAlt source_exts] f <->
  exists name ext, ext ∈ source_exts /\ f = name ++ ("."%char :: ext).
Proof.
  split.
  - intros H. inversion H; subst.
    match goal with H1 : seg_matches (SLit _ :: _) _ |- _ => inversion H1; subst end.
    match goal with H2 : seg_matches (SAlt _ :: _) _ |- _ => inversion H2; subst end.
    match goal with H3 : seg_matches [] _ |- _ => inversion H3; subst end.
    rewrite app_nil_r. eauto.
  - intros (name & ext & He & ->). apply sm_star, sm_lit. rewrite <- (app_nil_r ext).
    apply sm_alt; [done|constructor].
Qed.

Lemma glob_form_spec root segs :
  path_matches (glob_form root) segs <->
  exists dirs name ext, ext ∈ source_exts /\ Forall (fun d => hidden d = false) dirs /\
    hidden (name ++ ("."%char :: ext)) = false /\
    segs = [lit "."; lit "src"; root] ++ dirs ++ [name ++ ("."%char :: ext)].
Proof.
  unfold glob_form. split.
  - intros H. inversion H as [|ts ps s0 segs0 _ Hs0 H0|]; subst.
    apply (seg_matches_lits (lit ".")) in Hs0 as ->.
    inversion H0 as [|ts ps s1 segs1 _ Hs1 H1|]; subst. apply (seg_matches_lits (lit "src")) in Hs1 as ->.
    inversion H1 as [|ts ps s2 segs2 _ Hs2 H2|]; subst. apply seg_matches_lits in Hs2 as ->.
    inversion H2 as [| |ps dirs rest Hd Hr]; subst.
    inversion Hr as [|ts ps f rest' Hok Hf Hnil|]; subst. inversion Hnil; subst.
    apply file_matches in Hf as (name & ext & He & ->). apply negb_true_iff in Hok.
    exists dirs, name, ext. done.
  - intros (dirs & name & ext & He & Hd & Hh & ->).
    apply pm_seg; [done|by apply (seg_matches_lits (lit "."))|].
    apply pm_seg; [done|by apply (seg_matches_lits (lit "src"))|].
    apply pm_seg; [by destruct root|by apply seg_matches_lits|].
    apply pm_globstar; [done|]. apply pm_seg; [simpl; by rewrite Hh|apply file_matches; eauto|constructor].
Qed.

Lemma content_match p :
  (exists g, g ∈ content tailwind_config /\ glob_match g p = true) <->
  exists root, root ∈ source_roots /\ path_matches (glob_form root) (split_on slash p).
Proof.
  unfold glob_match. setoid_rewrite glob_match_spec.
  split.
  - intros (g & Hg & Hm). simpl in Hg.
    apply elem_of_cons in Hg as [->|Hg]; [exists (lit "pages"); split; [decide_closed|exact Hm]|].
    apply elem_of_cons in Hg as [->|Hg]; [exists (lit "components"); split; [decide_closed|exact Hm]|].
    apply elem_of_cons in Hg as [->|Hg]; [exists (lit "app"); split; [decide_closed|exact Hm]|].
    by apply elem_of_nil in Hg.
  - intros (root & Hr & Hm). unfold source_roots in Hr.
    apply elem_of_cons in Hr as [->|Hr]; [exists (lit "./src/pages/**/*.{js,ts,jsx,tsx,mdx}"); split; [decide_closed|exact Hm]|].
    apply elem_of_cons in Hr as [->|Hr]; [exists (lit "./src/components/**/*.{js,ts,jsx,tsx,mdx}"); split; [decide_closed|exact Hm]|].
    apply elem_of_cons in Hr as [->|Hr]; [exists (lit "./src/app/**/*.{js,ts,jsx,tsx,mdx}"); split; [decide_closed|exact Hm]|].
    by apply elem_of_nil in Hr.
Qed.


(** The root layout opens no new tab that keeps its opener, whatever
    page it wraps, as long as the page does not. *)
Lemma RootLayout_links_safe inter_className year children :
  links_safe children = true -> links_safe (RootLayout inter_className year children) = true.
Proof.
  intros Hc. unfold RootLayout. repeat (rewrite links_safe_Elem; cbn [forallb]).
  rewrite Hc, Footer_links_safe. reflexivity.
Qed.

(** * Properties *)

(** C39: the [content] globs make Tailwind scan exactly the source files
    under [src/pages], [src/components] and [src/app]: a path is matched
    iff it is [./src/<root>/<dirs>/<name>.<ext>] with one of the five
    extensions, its directories and file name free of [/] and not
    hidden.  Every component and page of the app is therefore scanned,
    and nothing outside these three directories is. *)
Theorem content_selects p :
  (exists g, g ∈ content tailwind_config /\ glob_match g p = true) <->
  exists root dirs name ext,
    root ∈ source_roots /\ ext ∈ source_exts /\
    Forall (fun d => (slash ∉ d) /\ hidden d = false) dirs /\ (slash ∉ name) /\
    hidden (name ++ ("."%char :: ext)) = false /\
    p = join [slash] ([lit "."; lit "src"; root] ++ dirs ++ [name ++ ("."%char :: ext)]).
Proof.
  rewrite content_match. pose proof lits_no_slash as Hl. rewrite !Forall_app in Hl.
  destruct Hl as (Hr & Hx & Hds). rewrite !Forall_forall in Hr, Hx. split.
  - intros (root & Hin & (dirs & name & ext & He & Hd & Hh & Hs)%glob_form_spec).
    pose proof (split_on_pieces slash p) as Hp. rewrite Hs, !Forall_app, Forall_singleton in Hp.
    destruct Hp as (_ & Hpd & Hpf). apply Forall_app in Hpf as [Hpn _].
    exists root, dirs, name, ext. split_and!; [done|done| |by apply no_sep_iff|done|].
    + rewrite Forall_forall in Hpd, Hd |- *. intros d Hdi. split; [apply no_sep_iff|]; auto.
    + by rewrite <- Hs, join_split_on.
  - intros (root & dirs & name & ext & Hin & He & Hd & Hn & Hh & ->). exists root. split; [done|].
    rewrite split_on_join.
    + apply glob_form_spec. exists dirs, name, ext. split_and!; [done| |done|done].
      by eapply Forall_impl; [exact Hd|]; intros ? [].
    + by destruct dirs.
    + inversion Hds as [|? ? Hdot Hsrc]; inversion Hsrc; subst.
      rewrite !Forall_app. split_and!; [by repeat constructor; auto|by eapply Forall_impl; [exact Hd|]; intros ? []|].
      repeat constructor. intros [?|[Hc|?]%elem_of_cons]%elem_of_app; [done|done|]. by apply (Hx ext).
Qed.


(** ** Checks of the markup and the configuration *)

(** The logo's two paint references name its two gradients, and no id
    is used twice. *)
Example Logo_refs_resolved : refs_resolved Logo = true /\ refs Logo = [lit "gradient-mic"; lit "gradient-fire"].
Proof. vm_compute. split; reflexivity. Qed.

(** The logo's only animation class resolves to the configured
    [flicker] animation, whose keyframes exist and begin and end on the
    same frame, so the infinite loop has no jump; Logo.tsx is one of the
    scanned files. *)
Example Logo_animation_generated :
  filter (fun c => starts_with (lit "animate-") c) (classes Logo) = [lit "animate-flicker"] /\
  animation_ok tailwind_config (lit "animate-flicker") = true /\
  glob_match (lit "./src/app/**/*.{js,ts,jsx,tsx,mdx}") (lit "./src/app/components/Logo.tsx") = true.
Proof. vm_compute. split_and!; reflexivity. Qed.

(** [animate-fade-in] (ContentPanel.tsx, line 381) is neither a default
    utility nor in [theme.extend]; the default ones used elsewhere are. *)
Example fade_in_undefined :
  animation_ok tailwind_config (lit "animate-fade-in") = false /\
  forallb (animation_ok tailwind_config) [lit "animate-spin"; lit "animate-bounce"; lit "animate-pulse"] = true.
Proof. vm_compute. split; reflexivity. Qed.

(** A file in a hidden directory is not scanned. *)
Example hidden_dir_not_scanned :
  glob_match (lit "./src/app/**/*.{js,ts,jsx,tsx,mdx}") (lit "./src/app/.cache/page.tsx") = false.
Proof. vm_compute. reflexivity. Qed.

(** The footer shows the year it is rendered with. *)
Lemma Footer_texts year :
  texts (Footer year) = [lit "SmartRSSFeed"; lit "Dev by"; lit " "; lit "MEda"; [copyright_sign; " "%char];
                         number_toString year; lit " All rights reserved"].
Proof. reflexivity. Qed.

End Presentation.
